(** * Stop-the-world protocol of the collector over POSIX threads

    A shallow embedding of [pthread_stop_world.c]: the suspend and restart
    signal handlers, the coordinator ([GC_stop_world], [GC_start_world],
    [GC_suspend_all]), the stack range walk ([GC_push_all_stacks]) and the
    initialisation ([GC_stop_init]).

    Sequential code is embedded as functions in a small trace-and-abort
    monad, with the results of C library calls supplied by the caller.
    The handshake between the coordinator and the handlers, which run on
    other threads, is embedded as an interleaving machine whose atomic
    steps are the shared-memory accesses of the source. *)

From Stdlib Require Import ZArith Lia String List Sorted.
From stdpp Require Import base list gmap strings.

Local Open Scope Z_scope.

(** ** Build configuration *)

(** Modelled from the spec: the constants that [pthread_stop_world.c] takes
    from [private/pthread_support.h], [gc_priv.h], [<signal.h>] and
    [<errno.h>], none of which is part of the file.  They are kept
    abstract; only what the C compiler and [sigaction] enforce is assumed:
    the two [case] labels [ESRCH] and [0] of a [switch] are distinct, the
    word has a positive width, and the two handlers are installed for two
    different signals. *)
Class Platform := {
  word_bits : Z;                       (* width of [AO_t] and of [word] *)
  FINISHED : Z;                        (* bit of [flags]: thread has exited *)
  MAIN_THREAD : Z;                     (* bit of [flags]: the original thread *)
  SIG_SUSPEND : Z;
  SIG_THR_RESTART : Z;
  SIGINT : Z; SIGQUIT : Z; SIGABRT : Z; SIGTERM : Z; SIGSEGV : Z;
  SIGBUS : option Z;                   (* #ifdef SIGBUS *)
  ESRCH : Z;
  EINTR : Z;
  VERBOSE : Z;                         (* level of [GC_print_stats] *)
  GC_OSF1_THREADS : bool;              (* #ifdef GC_OSF1_THREADS *)
  GC_NETBSD_THREADS_WORKAROUND : bool; (* #ifdef GC_NETBSD_THREADS_WORKAROUND *)
  MPROTECT_VDB : bool;                 (* #ifdef MPROTECT_VDB *)
  word_bits_pos : 0 < word_bits;
  ESRCH_nonzero : ESRCH <> 0;
  signals_distinct : SIG_SUSPEND <> SIG_THR_RESTART
}.

(** A usual Linux build on a 64-bit machine, for running the model. *)
Definition linux64 : Platform.
Proof.
  refine {| word_bits := 64; FINISHED := 1; MAIN_THREAD := 4;
            SIG_SUSPEND := 30; SIG_THR_RESTART := 24;
            SIGINT := 2; SIGQUIT := 3; SIGABRT := 6; SIGTERM := 15;
            SIGSEGV := 11; SIGBUS := Some 7;
            ESRCH := 3; EINTR := 4; VERBOSE := 2;
            GC_OSF1_THREADS := false;
            GC_NETBSD_THREADS_WORKAROUND := false;
            MPROTECT_VDB := true |}; lia.
Defined.

(** A build whose words are 8 bits wide: small enough to run the round
    counter through a whole wrap-around. *)
Definition tiny8 : Platform.
Proof.
  refine {| word_bits := 8; FINISHED := 1; MAIN_THREAD := 4;
            SIG_SUSPEND := 30; SIG_THR_RESTART := 24;
            SIGINT := 2; SIGQUIT := 3; SIGABRT := 6; SIGTERM := 15;
            SIGSEGV := 11; SIGBUS := None;
            ESRCH := 3; EINTR := 4; VERBOSE := 2;
            GC_OSF1_THREADS := true;
            GC_NETBSD_THREADS_WORKAROUND := true;
            MPROTECT_VDB := false |}; lia.
Defined.

(** ** Thread records *)

(** Modelled from the spec: [struct thread_stop_info] of
    [pthread_stop_world.h].  Pointers are addresses in [Z], with [NULL]
    being [0]. *)
Record thread_stop_info := {
  last_stop_count : Z;   (* word: the round last acknowledged *)
  stack_ptr : Z          (* ptr_t: stack pointer captured at suspension *)
}.

(** Modelled from the spec: the fields of [struct GC_Thread_Rep] of
    [private/pthread_support.h] that this file reads or writes. *)
Record GC_Thread_Rep := {
  id : Z;                       (* pthread_t *)
  flags : Z;
  thread_blocked : bool;
  stop_info : thread_stop_info;
  stack_end : Z;                (* ptr_t *)
  activation_frame : Z
}.

(** [p -> flags & BIT] used as a C condition. *)
Definition flag_set (fl bit : Z) : bool := negb (Z.land fl bit =? 0).

(** [THREAD_EQUAL(id1, id2)]. *)
Definition THREAD_EQUAL (id1 id2 : Z) : bool := id1 =? id2.

(** The value a store to an [AO_t] or [word] object keeps. *)
Definition wrap `{Platform} (v : Z) : Z := v mod 2 ^ word_bits.

(** ** Sequential code: a trace-and-abort monad *)

(** What a run of sequential code does to the outside world, in order. *)
Inductive event :=
| EvKill (thread sig result : Z)      (* pthread_kill(thread, sig) = result *)
| EvPush (lo hi frame : Z)            (* GC_push_all_stack_frames(lo, hi, frame) *)
| EvWarn (msg : string)                (* WARN(msg, ...) *)
| EvLog (msg : string) (arg : Z).      (* GC_log_printf(msg, arg) *)

(** [ABORT] ends the process: the run has no result. *)
Inductive outcome (A : Type) :=
| Ok (a : A)
| Aborted (msg : string).
Arguments Ok {A} a.
Arguments Aborted {A} msg.

Definition M (A : Type) : Type := list event * outcome A.

Definition ret {A} (a : A) : M A := ([], Ok a).
Definition ABORT {A} (msg : string) : M A := ([], Aborted msg).
Definition emit (e : event) : M unit := ([e], Ok tt).
Definition bind {A B} (m : M A) (k : A -> M B) : M B :=
  match m with
  | (tr, Ok a) => let '(tr', o) := k a in (tr ++ tr', o)
  | (tr, Aborted msg) => (tr, Aborted msg)
  end.

Notation "'let*' x ':=' m 'in' k" := (bind m (fun x => k))
  (at level 10, x pattern, m at level 100, k at level 200).
Notation "m ';;;' k" := (bind m (fun _ => k))
  (at level 100, k at level 200, right associativity).

(** [for (p = chain; p != 0; p = p -> next) body], threading the locals of
    the enclosing function through the iterations. *)
Fixpoint for_chain {A S} (body : A -> S -> M S) (chain : list A) (s : S) : M S :=
  match chain with
  | [] => ret s
  | p :: next => let* s' := body p s in for_chain body next s'
  end.

(** [for (i = 0; i < THREAD_TABLE_SZ; i++) for (p = GC_threads[i]; ...)]:
    the table is the list of its [THREAD_TABLE_SZ] chains. *)
Fixpoint for_table {A S} (body : A -> S -> M S) (table : list (list A)) (s : S) : M S :=
  match table with
  | [] => ret s
  | chain :: rest => let* s' := for_chain body chain s in for_table body rest s'
  end.

(** ** Process state *)

(** [sigset_t]: the signals that are members of the set. *)
Definition sigset := Z -> bool.
Definition sigfillset : sigset := fun _ => true.
Definition sigdelset (set : sigset) (sig : Z) : sigset :=
  fun s => if s =? sig then false else set s.

(** Where a thread is with respect to [GC_suspend_handler].  A thread in
    the handler carries the two locals that outlive its blocking points:
    [old_errno] of [GC_suspend_handler] and [my_stop_count] of
    [GC_suspend_handler_inner]. *)
Inductive handler_pc :=
| User                                        (* in the interrupted code *)
| AtSemPost (old_errno my_stop_count : Z)     (* line 207 done, 216 next *)
| AtStoreCount (old_errno my_stop_count : Z)  (* line 216 done, 217 next *)
| InSigsuspend (old_errno my_stop_count : Z)  (* blocked in line 231 *)
| AtLoadCount (old_errno my_stop_count : Z).  (* line 232 read TRUE, 233 next *)

(** A registered thread: its record in [GC_threads] and what the operating
    system and the C library hold for it. *)
Record Thread := {
  rep : GC_Thread_Rep;
  alive : bool;            (* the thread still exists for [pthread_kill] *)
  suspend_pending : bool;  (* a [SIG_SUSPEND] is pending *)
  restart_pending : bool;  (* a [SIG_THR_RESTART] is pending *)
  errno : Z;
  frame : Z;               (* [&dummy]: where the handler's frame lies *)
  pc : handler_pc
}.

(** Where the collecting thread is in [GC_stop_world] and
    [GC_start_world]; the constructors carry the live locals. *)
Inductive broadcast := First | Resend (n_live_threads : Z).

Inductive coord_pc :=
| Idle                                            (* world running *)
| AtStoreStopped                                  (* line 415 done, 417 next *)
| InSuspendAll (b : broadcast) (i : nat) (n : Z)  (* lines 364-389, record [i] next *)
| AtPoll (n_live_threads wait_usecs : Z)          (* line 427 next *)
| AtReconcile (n_live_threads newly_sent : Z)     (* line 430 done, 432 next *)
| InSemWait (i n_live_threads : Z)                (* line 447 next *)
| Stopped                                         (* [GC_stop_world] returned *)
| InRestartAll (i : nat) (n : Z)                  (* lines 487-511, record [i] next *)
| InRestartWait (i n_live_threads : Z).           (* line 513 next *)

(** The globals of the file, the thread table in the order the loops walk
    it (the chains of [GC_threads[0 .. THREAD_TABLE_SZ-1]] one after the
    other; the collector holds the allocation lock, so the table keeps
    its shape during a cycle), and the collector's position. *)
Record World := {
  GC_stop_count : Z;              (* volatile AO_t *)
  GC_world_is_stopped : bool;     (* volatile AO_t, TRUE or FALSE *)
  GC_retry_signals : bool;
  GC_suspend_ack_sem : Z;         (* value of the semaphore *)
  GC_restart_ack_sem : Z;
  suspend_handler_mask : sigset;
  GC_print_stats : Z;
  threads : list Thread;
  collector : Z;                  (* [pthread_self()] of the collecting thread *)
  coord : coord_pc;
  trace : list event;             (* what the process did so far *)
  aborted : option string         (* [ABORT] was called *)
}.

Definition set_rep (t : Thread) (r : GC_Thread_Rep) : Thread :=
  {| rep := r; alive := alive t; suspend_pending := suspend_pending t;
     restart_pending := restart_pending t; errno := errno t;
     frame := frame t; pc := pc t |}.
Definition set_alive (t : Thread) (b : bool) : Thread :=
  {| rep := rep t; alive := b; suspend_pending := suspend_pending t;
     restart_pending := restart_pending t; errno := errno t;
     frame := frame t; pc := pc t |}.
Definition set_suspend_pending (t : Thread) (b : bool) : Thread :=
  {| rep := rep t; alive := alive t; suspend_pending := b;
     restart_pending := restart_pending t; errno := errno t;
     frame := frame t; pc := pc t |}.
Definition set_restart_pending (t : Thread) (b : bool) : Thread :=
  {| rep := rep t; alive := alive t; suspend_pending := suspend_pending t;
     restart_pending := b; errno := errno t;
     frame := frame t; pc := pc t |}.
Definition set_errno (t : Thread) (e : Z) : Thread :=
  {| rep := rep t; alive := alive t; suspend_pending := suspend_pending t;
     restart_pending := restart_pending t; errno := e;
     frame := frame t; pc := pc t |}.
Definition set_pc (t : Thread) (l : handler_pc) : Thread :=
  {| rep := rep t; alive := alive t; suspend_pending := suspend_pending t;
     restart_pending := restart_pending t; errno := errno t;
     frame := frame t; pc := l |}.

(** [me -> stop_info.stack_ptr = v] and [me -> stop_info.last_stop_count = v]. *)
Definition store_stack_ptr (r : GC_Thread_Rep) (v : Z) : GC_Thread_Rep :=
  {| id := id r; flags := flags r; thread_blocked := thread_blocked r;
     stop_info := {| last_stop_count := last_stop_count (stop_info r);
                     stack_ptr := v |};
     stack_end := stack_end r; activation_frame := activation_frame r |}.
Definition store_last_stop_count (r : GC_Thread_Rep) (v : Z) : GC_Thread_Rep :=
  {| id := id r; flags := flags r; thread_blocked := thread_blocked r;
     stop_info := {| last_stop_count := v;
                     stack_ptr := stack_ptr (stop_info r) |};
     stack_end := stack_end r; activation_frame := activation_frame r |}.

Definition set_stop_count (w : World) (v : Z) : World :=
  {| GC_stop_count := v; GC_world_is_stopped := GC_world_is_stopped w;
     GC_retry_signals := GC_retry_signals w;
     GC_suspend_ack_sem := GC_suspend_ack_sem w;
     GC_restart_ack_sem := GC_restart_ack_sem w;
     suspend_handler_mask := suspend_handler_mask w;
     GC_print_stats := GC_print_stats w; threads := threads w;
     collector := collector w; coord := coord w; trace := trace w;
     aborted := aborted w |}.
Definition set_world_is_stopped (w : World) (v : bool) : World :=
  {| GC_stop_count := GC_stop_count w; GC_world_is_stopped := v;
     GC_retry_signals := GC_retry_signals w;
     GC_suspend_ack_sem := GC_suspend_ack_sem w;
     GC_restart_ack_sem := GC_restart_ack_sem w;
     suspend_handler_mask := suspend_handler_mask w;
     GC_print_stats := GC_print_stats w; threads := threads w;
     collector := collector w; coord := coord w; trace := trace w;
     aborted := aborted w |}.
Definition set_retry_signals (w : World) (v : bool) : World :=
  {| GC_stop_count := GC_stop_count w;
     GC_world_is_stopped := GC_world_is_stopped w;
     GC_retry_signals := v;
     GC_suspend_ack_sem := GC_suspend_ack_sem w;
     GC_restart_ack_sem := GC_restart_ack_sem w;
     suspend_handler_mask := suspend_handler_mask w;
     GC_print_stats := GC_print_stats w; threads := threads w;
     collector := collector w; coord := coord w; trace := trace w;
     aborted := aborted w |}.
Definition set_suspend_ack_sem (w : World) (v : Z) : World :=
  {| GC_stop_count := GC_stop_count w;
     GC_world_is_stopped := GC_world_is_stopped w;
     GC_retry_signals := GC_retry_signals w;
     GC_suspend_ack_sem := v;
     GC_restart_ack_sem := GC_restart_ack_sem w;
     suspend_handler_mask := suspend_handler_mask w;
     GC_print_stats := GC_print_stats w; threads := threads w;
     collector := collector w; coord := coord w; trace := trace w;
     aborted := aborted w |}.
Definition set_restart_ack_sem (w : World) (v : Z) : World :=
  {| GC_stop_count := GC_stop_count w;
     GC_world_is_stopped := GC_world_is_stopped w;
     GC_retry_signals := GC_retry_signals w;
     GC_suspend_ack_sem := GC_suspend_ack_sem w;
     GC_restart_ack_sem := v;
     suspend_handler_mask := suspend_handler_mask w;
     GC_print_stats := GC_print_stats w; threads := threads w;
     collector := collector w; coord := coord w; trace := trace w;
     aborted := aborted w |}.
Definition set_suspend_handler_mask (w : World) (v : sigset) : World :=
  {| GC_stop_count := GC_stop_count w;
     GC_world_is_stopped := GC_world_is_stopped w;
     GC_retry_signals := GC_retry_signals w;
     GC_suspend_ack_sem := GC_suspend_ack_sem w;
     GC_restart_ack_sem := GC_restart_ack_sem w;
     suspend_handler_mask := v;
     GC_print_stats := GC_print_stats w; threads := threads w;
     collector := collector w; coord := coord w; trace := trace w;
     aborted := aborted w |}.
Definition set_threads (w : World) (v : list Thread) : World :=
  {| GC_stop_count := GC_stop_count w;
     GC_world_is_stopped := GC_world_is_stopped w;
     GC_retry_signals := GC_retry_signals w;
     GC_suspend_ack_sem := GC_suspend_ack_sem w;
     GC_restart_ack_sem := GC_restart_ack_sem w;
     suspend_handler_mask := suspend_handler_mask w;
     GC_print_stats := GC_print_stats w; threads := v;
     collector := collector w; coord := coord w; trace := trace w;
     aborted := aborted w |}.
Definition set_collector (w : World) (v : Z) : World :=
  {| GC_stop_count := GC_stop_count w;
     GC_world_is_stopped := GC_world_is_stopped w;
     GC_retry_signals := GC_retry_signals w;
     GC_suspend_ack_sem := GC_suspend_ack_sem w;
     GC_restart_ack_sem := GC_restart_ack_sem w;
     suspend_handler_mask := suspend_handler_mask w;
     GC_print_stats := GC_print_stats w; threads := threads w;
     collector := v; coord := coord w; trace := trace w;
     aborted := aborted w |}.
Definition set_coord (w : World) (v : coord_pc) : World :=
  {| GC_stop_count := GC_stop_count w;
     GC_world_is_stopped := GC_world_is_stopped w;
     GC_retry_signals := GC_retry_signals w;
     GC_suspend_ack_sem := GC_suspend_ack_sem w;
     GC_restart_ack_sem := GC_restart_ack_sem w;
     suspend_handler_mask := suspend_handler_mask w;
     GC_print_stats := GC_print_stats w; threads := threads w;
     collector := collector w; coord := v; trace := trace w;
     aborted := aborted w |}.
Definition add_trace (w : World) (tr : list event) : World :=
  {| GC_stop_count := GC_stop_count w;
     GC_world_is_stopped := GC_world_is_stopped w;
     GC_retry_signals := GC_retry_signals w;
     GC_suspend_ack_sem := GC_suspend_ack_sem w;
     GC_restart_ack_sem := GC_restart_ack_sem w;
     suspend_handler_mask := suspend_handler_mask w;
     GC_print_stats := GC_print_stats w; threads := threads w;
     collector := collector w; coord := coord w; trace := trace w ++ tr;
     aborted := aborted w |}.
Definition set_aborted (w : World) (msg : string) : World :=
  {| GC_stop_count := GC_stop_count w;
     GC_world_is_stopped := GC_world_is_stopped w;
     GC_retry_signals := GC_retry_signals w;
     GC_suspend_ack_sem := GC_suspend_ack_sem w;
     GC_restart_ack_sem := GC_restart_ack_sem w;
     suspend_handler_mask := suspend_handler_mask w;
     GC_print_stats := GC_print_stats w; threads := threads w;
     collector := collector w; coord := coord w; trace := trace w;
     aborted := Some msg |}.

Section Sequential.
Context `{Platform}.

(** *** [GC_suspend_all] *)

(** One iteration of the inner loop of [GC_suspend_all] (lines 366-387).
    [stop_count] is the value of [GC_stop_count], [result] is what
    [pthread_kill] returns if this iteration calls it.  The counter is a C
    [int]; it never exceeds the number of records. *)
Definition GC_suspend_all_body (my_thread stop_count : Z) (result : Z)
    (p : GC_Thread_Rep) (n_live_threads : Z) : M Z :=
  if negb (THREAD_EQUAL (id p) my_thread) then
    if flag_set (flags p) FINISHED then ret n_live_threads            (* continue *)
    else if last_stop_count (stop_info p) =? stop_count then ret n_live_threads
    else if thread_blocked p then ret n_live_threads                  (* Will wait *)
    else
      let n_live_threads := n_live_threads + 1 in
      emit (EvKill (id p) SIG_SUSPEND result) ;;;
      if result =? ESRCH then ret (n_live_threads - 1)
      else if result =? 0 then ret n_live_threads
      else ABORT "pthread_kill failed"
  else ret n_live_threads.

(** [GC_suspend_all] (lines 352-391).  [pthread_kill thread sig] is the
    result the C library gives for that call. *)
Definition GC_suspend_all (pthread_kill : Z -> Z -> Z) (my_thread stop_count : Z)
    (GC_threads : list (list GC_Thread_Rep)) : M Z :=
  for_table
    (fun p n => GC_suspend_all_body my_thread stop_count
                  (pthread_kill (id p) SIG_SUSPEND) p n)
    GC_threads 0.

(** *** [GC_start_world] *)

(** One iteration of the inner loop of [GC_start_world] (lines 489-509). *)
Definition GC_start_world_body (my_thread : Z) (result : Z)
    (p : GC_Thread_Rep) (n_live_threads : Z) : M Z :=
  if negb (THREAD_EQUAL (id p) my_thread) then
    if flag_set (flags p) FINISHED then ret n_live_threads
    else if thread_blocked p then ret n_live_threads
    else
      let n_live_threads := n_live_threads + 1 in
      emit (EvKill (id p) SIG_THR_RESTART result) ;;;
      if result =? ESRCH then ret (n_live_threads - 1)
      else if result =? 0 then ret n_live_threads
      else ABORT "pthread_kill failed"
  else ret n_live_threads.

(** *** [GC_push_all_stacks] *)

(** The locals of [GC_push_all_stacks] that live across iterations. *)
Record push_locals := { found_me : bool; nthreads : Z }.

(** One iteration of the inner loop of [GC_push_all_stacks] (lines
    294-322), for a build that is neither [SPARC] nor [IA64] (they differ
    in which primitive yields the pointers, not in the control flow).
    [approx_sp] is what [GC_approx_sp()] returns. *)
Definition GC_push_all_stacks_body (me approx_sp GC_stackbottom : Z)
    (p : GC_Thread_Rep) (s : push_locals) : M push_locals :=
  if flag_set (flags p) FINISHED then ret s                          (* continue *)
  else
    let nthreads := nthreads s + 1 in
    let '(lo, found_me) :=
      if THREAD_EQUAL (id p) me then (approx_sp, true)
      else (stack_ptr (stop_info p), found_me s) in
    let hi :=
      if Z.land (flags p) MAIN_THREAD =? 0 then stack_end p
      else GC_stackbottom (* The original stack. *) in
    if 0 =? lo then ABORT "GC_push_all_stacks: sp not set!"
    else
      emit (EvPush lo hi (activation_frame p)) ;;;
      ret {| found_me := found_me; nthreads := nthreads |}.

(** [GC_push_all_stacks] (lines 277-340), called with the thread table
    initialised ([GC_thr_init] belongs to the registry). *)
Definition GC_push_all_stacks (me approx_sp GC_stackbottom : Z)
    (GC_in_thread_creation : bool) (print_stats : Z)
    (GC_threads : list (list GC_Thread_Rep)) : M unit :=
  let* s := for_table (GC_push_all_stacks_body me approx_sp GC_stackbottom)
              GC_threads {| found_me := false; nthreads := 0 |} in
  (if print_stats =? VERBOSE
   then emit (EvLog "Pushed %d thread stacks" (nthreads s)) else ret tt) ;;;
  if negb (found_me s) && negb GC_in_thread_creation
  then ABORT "Collecting from unknown thread."
  else ret tt.

(** *** [GC_stop_init] *)

(** What the C library answers to the calls of [GC_stop_init]: the return
    codes of [sem_init], [sigfillset], [sigdelset] and [sigaction] (the
    last two by signal number) and the process environment. *)
Record init_calls := {
  sem_init_suspend : Z;
  sem_init_restart : Z;
  sigfillset_result : Z;
  sigdelset_result : Z -> Z;
  sigaction_result : Z -> Z;
  environ : gmap string string
}.

Definition GETENV (c : init_calls) (name : string) : option string :=
  environ c !! name.

(** [x != 0] on a return code or a pointer. *)
Definition nonzero (x : Z) : bool := negb (x =? 0).
Definition nonnull {A} (x : option A) : bool :=
  match x with Some _ => true | None => false end.

(** [GC_remove_allowed_signals] (lines 61-81). *)
Definition GC_remove_allowed_signals (c : init_calls) (set : sigset) : M sigset :=
  if nonzero (sigdelset_result c SIGINT)
     || nonzero (sigdelset_result c SIGQUIT)
     || nonzero (sigdelset_result c SIGABRT)
     || nonzero (sigdelset_result c SIGTERM)
  then ABORT "sigdelset() failed"
  else
    let set := sigdelset (sigdelset (sigdelset (sigdelset set SIGINT) SIGQUIT)
                            SIGABRT) SIGTERM in
    if MPROTECT_VDB then
      if nonzero (sigdelset_result c SIGSEGV)
         || match SIGBUS with
            | Some bus => nonzero (sigdelset_result c bus)
            | None => false
            end
      then ABORT "sigdelset() failed"
      else ret match SIGBUS with
               | Some bus => sigdelset (sigdelset set SIGSEGV) bus
               | None => sigdelset set SIGSEGV
               end
    else ret set.

(** [GC_stop_init] (lines 526-581).  The two [sigaction] calls install
    [GC_suspend_handler] for [SIG_SUSPEND] and [GC_restart_handler] for
    [SIG_THR_RESTART], both with every signal but the allowed ones
    blocked while the handler runs. *)
Definition GC_stop_init (c : init_calls) (w : World) : M World :=
  if nonzero (sem_init_suspend c) then ABORT "sem_init failed" else
  let w := set_suspend_ack_sem w 0 in
  if GC_NETBSD_THREADS_WORKAROUND && nonzero (sem_init_restart c)
  then ABORT "sem_init failed" else
  let w := if GC_NETBSD_THREADS_WORKAROUND
           then set_restart_ack_sem w 0 else w in
  if nonzero (sigfillset_result c) then ABORT "sigfillset() failed" else
  let* sa_mask := GC_remove_allowed_signals c sigfillset in
  if nonzero (sigaction_result c SIG_SUSPEND)
  then ABORT "Cannot set SIG_SUSPEND handler" else
  if nonzero (sigaction_result c SIG_THR_RESTART)
  then ABORT "Cannot set SIG_THR_RESTART handler" else
  (* Initialize suspend_handler_mask. It excludes SIG_THR_RESTART. *)
  if nonzero (sigfillset_result c) then ABORT "sigfillset() failed" else
  let* mask := GC_remove_allowed_signals c sigfillset in
  if nonzero (sigdelset_result c SIG_THR_RESTART)
  then ABORT "sigdelset() failed" else
  let w := set_suspend_handler_mask w (sigdelset mask SIG_THR_RESTART) in
  (* Check for GC_RETRY_SIGNALS. *)
  let w := if nonnull (GETENV c "GC_RETRY_SIGNALS")
           then set_retry_signals w true else w in
  let w := if nonnull (GETENV c "GC_NO_RETRY_SIGNALS")
           then set_retry_signals w false else w in
  (if nonzero (GC_print_stats w) && GC_retry_signals w
   then emit (EvLog "Will retry suspend signal if necessary." 0)
   else ret tt) ;;;
  ret w.

(** *** The signal handlers *)

(** [GC_restart_handler] (lines 247-266). *)
Definition GC_restart_handler (sig : Z) (w : World) : M World :=
  if negb (sig =? SIG_THR_RESTART) then ABORT "Bad signal in suspend_handler"
  else if GC_NETBSD_THREADS_WORKAROUND
       then ret (set_restart_ack_sem w (GC_restart_ack_sem w + 1))
       else ret w.

(** The way out of [GC_suspend_handler]: [GC_suspend_handler_inner]
    returns and line 161 puts [errno] back. *)
Definition GC_suspend_handler_return (t : Thread) (old_errno : Z) : Thread :=
  set_pc (set_errno t old_errno) User.

(** [GC_suspend_handler] from its entry with argument [sig] on thread [t]
    up to the capture of the stack pointer: line 156 and lines 168-207 of
    [GC_suspend_handler_inner].  [GC_lookup_thread] finds the record of
    the running thread; cancellation is not modelled. *)
Definition GC_suspend_handler_enter (sig : Z) (w : World) (t : Thread) : M Thread :=
  let old_errno := errno t in
  let my_stop_count := GC_stop_count w in                    (* line 174 *)
  if negb (sig =? SIG_SUSPEND) then ABORT "Bad signal in suspend_handler"
  else
    let me := rep t in
    if last_stop_count (stop_info me) =? my_stop_count then
      (* Duplicate signal.  OK if we are retrying. *)
      (if negb (GC_retry_signals w)
       then emit (EvWarn "Duplicate suspend signal in thread %p")
       else ret tt) ;;;
      ret (GC_suspend_handler_return t old_errno)
    else
      ret (set_pc (set_rep t (store_stack_ptr me (frame t)))
             (AtSemPost old_errno my_stop_count)).

(** Line 216: [sem_post(&GC_suspend_ack_sem)]. *)
Definition GC_suspend_handler_post (w : World) (t : Thread)
    (old_errno my_stop_count : Z) : World * Thread :=
  (set_suspend_ack_sem w (GC_suspend_ack_sem w + 1),
   set_pc t (AtStoreCount old_errno my_stop_count)).

(** Line 217: [me -> stop_info.last_stop_count = my_stop_count], after
    which the thread blocks in [sigsuspend]. *)
Definition GC_suspend_handler_store (t : Thread)
    (old_errno my_stop_count : Z) : Thread :=
  set_pc (set_rep t (store_last_stop_count (rep t) my_stop_count))
    (InSigsuspend old_errno my_stop_count).

(** [sigsuspend] returns (with [EINTR], as it always does) and line 232
    loads [GC_world_is_stopped]: the left operand of the loop condition. *)
Definition GC_suspend_handler_wake (w : World) (t : Thread)
    (old_errno my_stop_count : Z) : Thread :=
  let t := set_errno t EINTR in
  if GC_world_is_stopped w then set_pc t (AtLoadCount old_errno my_stop_count)
  else GC_suspend_handler_return t old_errno.

(** Line 233 loads [GC_stop_count]: the right operand of the loop
    condition. *)
Definition GC_suspend_handler_recheck (w : World) (t : Thread)
    (old_errno my_stop_count : Z) : Thread :=
  if GC_stop_count w =? my_stop_count
  then set_pc t (InSigsuspend old_errno my_stop_count)
  else GC_suspend_handler_return t old_errno.

End Sequential.

(** *** The broadcast of [GC_start_world], the allowed signals,
    [GC_print_sig_mask] *)

Section MoreSequential.
Context `{Platform}.

(** The broadcast of [GC_start_world] (lines 487-511): the walk over the
    table that sends [SIG_THR_RESTART] and counts the deliveries. *)
Definition GC_start_world_broadcast (pthread_kill : Z -> Z -> Z) (my_thread : Z)
    (GC_threads : list (list GC_Thread_Rep)) : M Z :=
  for_table
    (fun p n => GC_start_world_body my_thread
                  (pthread_kill (id p) SIG_THR_RESTART) p n)
    GC_threads 0.

(** The signals [GC_remove_allowed_signals] takes out of a set in this
    build. *)
Definition allowed_signal (s : Z) : bool :=
  (s =? SIGINT) || (s =? SIGQUIT) || (s =? SIGABRT) || (s =? SIGTERM)
  || (MPROTECT_VDB
      && ((s =? SIGSEGV)
          || match SIGBUS with Some bus => s =? bus | None => false end)).

End MoreSequential.

(** The loop of [GC_print_sig_mask] (lines 50-52) from signal [i] on,
    [count] iterations: the numbers it prints. *)
Fixpoint print_blocked (blocked : sigset) (i : Z) (count : nat) : list Z :=
  match count with
  | O => []
  | S count' =>
      (if blocked i then [i] else []) ++ print_blocked blocked (i + 1) count'
  end.

(** [GC_print_sig_mask] (lines 43-55, [DEBUG_THREADS] builds):
    [sigmask_result] and [blocked] are what [pthread_sigmask] returns and
    stores; the result is the list of numbers printed after ["Blocked: "]. *)
Definition GC_print_sig_mask (NSIG : Z) (sigmask_result : Z) (blocked : sigset)
  : outcome (list Z) :=
  if nonzero sigmask_result then Aborted "pthread_sigmask"
  else Ok (print_blocked blocked 1 (Z.to_nat (NSIG - 1))).

(** ** The interleaving machine *)

(** The atomic steps of the process.  Each step of the collecting thread
    and of a handler contains at most one access to memory that another
    thread may write, so every interleaving of the source is one of the
    machine.  Signals are standard signals: a second one sent while the
    first is pending is merged with it. *)
Inductive label :=
| CallStopWorld (me : Z)          (* thread [me] enters [GC_stop_world] *)
| CallStartWorld                  (* the same thread enters [GC_start_world] *)
| Coord (code err : Z)            (* next step of the collecting thread; [code]
                                     and [err] are the return value and the
                                     [errno] of the library call it makes *)
| Signal (t : nat) (sig : Z)      (* thread [t] takes signal [sig] *)
| Next (t : nat)                  (* next step of the handler on thread [t] *)
| Exit (t : nat).                 (* thread [t] ceases to exist *)

Definition WAIT_UNIT : Z := 3000.
Definition RETRY_INTERVAL : Z := 100000.

Section Machine.
Context `{Platform}.

(** The effect of a run of sequential code on the process. *)
Definition commit {A} (w : World) (m : M A) (k : A -> World) : World :=
  match m with
  | (tr, Ok a) => add_trace (k a) tr
  | (tr, Aborted msg) => set_aborted (add_trace w tr) msg
  end.

Definition set_thread (w : World) (i : nat) (t : Thread) : World :=
  set_threads w (<[i := t]> (threads w)).

Definition kill_called (tr : list event) : bool :=
  match tr with
  | EvKill _ _ _ :: _ => true
  | _ => false
  end.

(** Thread [i] takes signal [sig].  In the interrupted code the handler
    installed for the signal runs, if the signal is pending.  In
    [sigsuspend] any signal outside [suspend_handler_mask] ends the wait
    ([SIG_THR_RESTART] after running its handler); a [SIG_SUSPEND] stays
    blocked there. *)
Definition signal_step (i : nat) (sig : Z) (w : World) : option World :=
  match threads w !! i with
  | None => None
  | Some t =>
    if negb (alive t) then None else
    match pc t with
    | User =>
      if (sig =? SIG_SUSPEND) && suspend_pending t then
        Some (commit w
                (GC_suspend_handler_enter sig w (set_suspend_pending t false))
                (set_thread w i))
      else if (sig =? SIG_THR_RESTART) && restart_pending t then
        let w := set_thread w i (set_restart_pending t false) in
        Some (commit w (GC_restart_handler sig w) (fun w' => w'))
      else None
    | InSigsuspend old_errno my_stop_count =>
      if suspend_handler_mask w sig || (sig =? SIG_SUSPEND) then None
      else if sig =? SIG_THR_RESTART then
        if restart_pending t then
          let t := set_restart_pending t false in
          Some (commit w (GC_restart_handler sig w)
                  (fun w' => set_thread w' i
                     (GC_suspend_handler_wake w' t old_errno my_stop_count)))
        else None
      else
        Some (set_thread w i
                (GC_suspend_handler_wake w t old_errno my_stop_count))
    | _ => None
    end
  end.

(** The handler on thread [i] goes on to its next blocking point or
    shared access. *)
Definition next_step (i : nat) (w : World) : option World :=
  match threads w !! i with
  | None => None
  | Some t =>
    if negb (alive t) then None else
    match pc t with
    | AtSemPost old_errno my_stop_count =>
      let '(w, t) := GC_suspend_handler_post w t old_errno my_stop_count in
      Some (set_thread w i t)
    | AtStoreCount old_errno my_stop_count =>
      Some (set_thread w i (GC_suspend_handler_store t old_errno my_stop_count))
    | AtLoadCount old_errno my_stop_count =>
      Some (set_thread w i
              (GC_suspend_handler_recheck w t old_errno my_stop_count))
    | _ => None
    end
  end.

Definition exit_step (i : nat) (w : World) : option World :=
  match threads w !! i with
  | None => None
  | Some t => if alive t then Some (set_thread w i (set_alive t false)) else None
  end.

(** The collecting thread enters [GC_stop_world]: line 415,
    [AO_store(&GC_stop_count, GC_stop_count+1)]. *)
Definition GC_stop_world_call (me : Z) (w : World) : option World :=
  match coord w with
  | Idle =>
    Some (set_coord
            (set_stop_count (set_collector w me) (wrap (GC_stop_count w + 1)))
            AtStoreStopped)
  | _ => None
  end.

(** The collecting thread in [GC_stop_world] (lines 417-467), one step.
    [pthread_kill] answers [ESRCH] only for a thread that has ceased to
    exist; a signal it accepts becomes pending on the target.  [sem_wait]
    returns 0 only by taking a unit of the semaphore.  The mark lock of
    [PARALLEL_MARK] builds is not modelled. *)
Definition GC_stop_world_step (code err : Z) (w : World) : option World :=
  match coord w with
  | AtStoreStopped =>                                           (* line 417 *)
    Some (set_coord (set_world_is_stopped w true) (InSuspendAll First 0 0))
  | InSuspendAll b i n =>                  (* in [GC_suspend_all], 364-390 *)
    match threads w !! i with
    | Some t =>
      match GC_suspend_all_body (collector w) (GC_stop_count w) code (rep t) n with
      | (tr, Ok n') =>
        if kill_called tr && (code =? ESRCH) && alive t then None else
        let t' := if kill_called tr && (code =? 0)
                  then set_suspend_pending t true else t in
        Some (add_trace (set_coord (set_thread w i t') (InSuspendAll b (S i) n')) tr)
      | (tr, Aborted msg) => Some (set_aborted (add_trace w tr) msg)
      end
    | None =>                                      (* return n_live_threads *)
      match b with
      | First =>                                          (* lines 418, 420 *)
        Some (set_coord w (if GC_retry_signals w then AtPoll n 0
                           else InSemWait 0 n))
      | Resend n_live_threads =>                               (* line 430 *)
        Some (set_coord w (AtReconcile n_live_threads n))
      end
    end
  | AtPoll n_live_threads wait_usecs =>                   (* lines 427-429 *)
    let ack_count := GC_suspend_ack_sem w in
    if ack_count =? n_live_threads
    then Some (set_coord w (InSemWait 0 n_live_threads))            (* break *)
    else if wait_usecs >? RETRY_INTERVAL
    then Some (set_coord w (InSuspendAll (Resend n_live_threads) 0 0))
    else (* lines 443-444 *)
      Some (set_coord w (AtPoll n_live_threads (wait_usecs + WAIT_UNIT)))
  | AtReconcile n_live_threads newly_sent =>              (* lines 432-444 *)
    let log := if nonzero (GC_print_stats w)
               then [EvLog "Resent %d signals after timeout" newly_sent]
               else [] in
    let ack_count := GC_suspend_ack_sem w in
    let '(warn, n_live_threads) :=
      if newly_sent <? n_live_threads - ack_count
      then ([EvWarn "Lost some threads during GC_stop_world?!"],
            ack_count + newly_sent)
      else ([], n_live_threads) in
    let wait_usecs := 0 in
    Some (add_trace (set_coord w (AtPoll n_live_threads (wait_usecs + WAIT_UNIT)))
            (log ++ warn))
  | InSemWait i n_live_threads =>                         (* lines 447-458 *)
    if i <? n_live_threads then
      if code =? 0 then
        if 0 <? GC_suspend_ack_sem w
        then Some (set_coord (set_suspend_ack_sem w (GC_suspend_ack_sem w - 1))
                     (InSemWait (i + 1) n_live_threads))
        else None                                      (* [sem_wait] blocks *)
      else if err =? EINTR then Some w                        (* goto retry *)
      else Some (set_aborted w "sem_wait for handler failed")
    else Some (set_coord w Stopped)
  | _ => None
  end.

(** The collecting thread enters [GC_start_world]: line 486,
    [AO_store(&GC_world_is_stopped, FALSE)]. *)
Definition GC_start_world_call (w : World) : option World :=
  match coord w with
  | Stopped =>
    Some (set_coord (set_world_is_stopped w false) (InRestartAll 0 0))
  | _ => None
  end.

(** The collecting thread in [GC_start_world] (lines 487-524), one step. *)
Definition GC_start_world_step (code err : Z) (w : World) : option World :=
  match coord w with
  | InRestartAll i n =>                                   (* lines 487-511 *)
    match threads w !! i with
    | Some t =>
      match GC_start_world_body (collector w) code (rep t) n with
      | (tr, Ok n') =>
        if kill_called tr && (code =? ESRCH) && alive t then None else
        let t' := if kill_called tr && (code =? 0)
                  then set_restart_pending t true else t in
        Some (add_trace (set_coord (set_thread w i t') (InRestartAll (S i) n')) tr)
      | (tr, Aborted msg) => Some (set_aborted (add_trace w tr) msg)
      end
    | None =>
      Some (set_coord w (if GC_NETBSD_THREADS_WORKAROUND
                         then InRestartWait 0 n else Idle))
    end
  | InRestartWait i n_live_threads =>                     (* lines 513-519 *)
    if i <? n_live_threads then
      if code =? 0 then
        if 0 <? GC_restart_ack_sem w
        then Some (set_coord (set_restart_ack_sem w (GC_restart_ack_sem w - 1))
                     (InRestartWait (i + 1) n_live_threads))
        else None
      else if err =? EINTR then Some w
      else Some (set_aborted w "sem_wait() for restart handler failed")
    else Some (set_coord w Idle)
  | _ => None
  end.

Definition in_start_world (c : coord_pc) : bool :=
  match c with
  | InRestartAll _ _ | InRestartWait _ _ => true
  | _ => false
  end.

(** One step of the process; [None] when the step cannot be taken. *)
Definition step (l : label) (w : World) : option World :=
  match aborted w with
  | Some _ => None                            (* the process is gone *)
  | None =>
    match l with
    | CallStopWorld me => GC_stop_world_call me w
    | CallStartWorld => GC_start_world_call w
    | Coord code err =>
      if in_start_world (coord w) then GC_start_world_step code err w
      else GC_stop_world_step code err w
    | Signal t sig => signal_step t sig w
    | Next t => next_step t w
    | Exit t => exit_step t w
    end
  end.

(** A schedule, run from left to right. *)
Fixpoint run (ls : list label) (w : World) : option World :=
  match ls with
  | [] => Some w
  | l :: ls' =>
    match step l w with
    | Some w' => run ls' w'
    | None => None
    end
  end.

End Machine.

(** ** Vocabulary of the statements *)

Section Vocabulary.
Context `{Platform}.

(** The records [GC_suspend_all] is to signal: not the calling thread,
    not [FINISHED], not yet at round [stop_count], not [thread_blocked]. *)
Definition suspend_target (my_thread stop_count : Z) (p : GC_Thread_Rep) : bool :=
  negb (THREAD_EQUAL (id p) my_thread)
  && negb (flag_set (flags p) FINISHED)
  && negb (last_stop_count (stop_info p) =? stop_count)
  && negb (thread_blocked p).

(** The [pthread_kill] calls that signal the records [ps] with [sig], in
    order, [res p] being the answer for record [p]. *)
Definition kills (sig : Z) (res : GC_Thread_Rep -> Z) (ps : list GC_Thread_Rep)
  : list event :=
  map (fun p => EvKill (id p) sig (res p)) ps.

(** A delivery that succeeded or found the thread gone. *)
Definition benign (r : Z) : bool := (r =? 0) || (r =? ESRCH).

(** The records [GC_push_all_stacks] scans, and the range it takes for
    each: from the captured stack pointer (for the calling thread, the
    pointer [approx_sp] taken in place) up to the original stack bottom
    for the main thread and to [stack_end] for the others. *)
Definition live_record (p : GC_Thread_Rep) : bool :=
  negb (flag_set (flags p) FINISHED).
Definition range_lo (me approx_sp : Z) (p : GC_Thread_Rep) : Z :=
  if THREAD_EQUAL (id p) me then approx_sp else stack_ptr (stop_info p).
Definition range_hi (GC_stackbottom : Z) (p : GC_Thread_Rep) : Z :=
  if flag_set (flags p) MAIN_THREAD then GC_stackbottom else stack_end p.
Definition pushes (me approx_sp GC_stackbottom : Z) (ps : list GC_Thread_Rep)
  : list event :=
  map (fun p => EvPush (range_lo me approx_sp p) (range_hi GC_stackbottom p)
                  (activation_frame p)) ps.

(** Every [sigdelset] of [GC_remove_allowed_signals] returns 0. *)
Definition removals_succeed (c : init_calls) : bool :=
  (sigdelset_result c SIGINT =? 0) && (sigdelset_result c SIGQUIT =? 0)
  && (sigdelset_result c SIGABRT =? 0) && (sigdelset_result c SIGTERM =? 0)
  && (if MPROTECT_VDB
      then (sigdelset_result c SIGSEGV =? 0)
           && match SIGBUS with
              | Some bus => sigdelset_result c bus =? 0
              | None => true
              end
      else true).

(** Every library call that [GC_stop_init] makes in this build returns 0. *)
Definition init_calls_succeed (c : init_calls) : bool :=
  (sem_init_suspend c =? 0)
  && (if GC_NETBSD_THREADS_WORKAROUND then sem_init_restart c =? 0 else true)
  && (sigfillset_result c =? 0)
  && removals_succeed c
  && (sigaction_result c SIG_SUSPEND =? 0)
  && (sigaction_result c SIG_THR_RESTART =? 0)
  && (sigdelset_result c SIG_THR_RESTART =? 0).

(** The [errno] of the code a thread was running when the handler took
    over: its [errno] in user code, the handler's [old_errno] inside. *)
Definition interrupted_errno (t : Thread) : Z :=
  match pc t with
  | User => errno t
  | AtSemPost e _ | AtStoreCount e _ | InSigsuspend e _ | AtLoadCount e _ => e
  end.

(** A thread inside the loop of lines 230-233. *)
Definition in_park_loop (l : handler_pc) : bool :=
  match l with
  | InSigsuspend _ _ | AtLoadCount _ _ => true
  | _ => false
  end.

(** Where the shared state sends a thread of the park loop at its next
    move: out of [sigsuspend], on to the second operand if the flag reads
    true and out of the loop otherwise; at the second operand, back into
    [sigsuspend] if the counter still is the round parked for and out of
    the loop otherwise. *)
Definition park_decision (w : World) (l : handler_pc) : handler_pc :=
  match l with
  | InSigsuspend e m => if GC_world_is_stopped w then AtLoadCount e m else User
  | AtLoadCount e m => if GC_stop_count w =? m then InSigsuspend e m else User
  | l => l
  end.

(** The steps that move the handler of thread [i]. *)
Definition moves_thread (i : nat) (l : label) : bool :=
  match l with
  | Signal j _ | Next j => Nat.eqb j i
  | _ => false
  end.

(** *** One round of [GC_stop_world], seen from the thread table *)

(** The records a round is about: not the collecting thread, not
    [FINISHED], not [thread_blocked]. *)
Definition eligible (me : Z) (p : GC_Thread_Rep) : bool :=
  negb (THREAD_EQUAL (id p) me)
  && negb (flag_set (flags p) FINISHED)
  && negb (thread_blocked p).

Definition at_sem_post (l : handler_pc) : bool :=
  match l with AtSemPost _ _ => true | _ => false end.

(** The thread has posted the acknowledgment of round [r] and has not
    left the handler since. *)
Definition acked (r : Z) (t : Thread) : bool :=
  match pc t with
  | AtStoreCount _ m | InSigsuspend _ m | AtLoadCount _ m => m =? r
  | _ => false
  end.

(** An existing thread the round is about that has not acknowledged. *)
Definition todo (me r : Z) (t : Thread) : bool :=
  eligible me (rep t) && alive t && negb (acked r t).

(** A thread round [r] has not touched: no suspend signal pending or
    being handled, no acknowledgment. *)
Definition quiet (r : Z) (t : Thread) : bool :=
  negb (suspend_pending t) && negb (at_sem_post (pc t)) && negb (acked r t).

Definition cnt (f : Thread -> bool) (l : list Thread) : Z :=
  Z.of_nat (length (List.filter f l)).

(** What a step of thread [t] can do to it, [sc] and [stopped] being the
    values of [GC_stop_count] and [GC_world_is_stopped] at the step; the
    last index is the number of posts to the acknowledgment semaphore. *)
Inductive thread_move (sc : Z) (stopped : bool) (t t' : Thread) : Z -> Prop :=
| move_bits :                    (* the thread exits or runs the restart handler *)
    rep t' = rep t -> pc t' = pc t -> frame t' = frame t ->
    suspend_pending t' = suspend_pending t ->
    (alive t' = true -> alive t = true) ->
    thread_move sc stopped t t' 0
| move_duplicate :               (* lines 196-202 *)
    pc t = User -> last_stop_count (stop_info (rep t)) = sc ->
    rep t' = rep t -> pc t' = User -> frame t' = frame t ->
    suspend_pending t' = false -> alive t' = alive t ->
    thread_move sc stopped t t' 0
| move_capture :                 (* line 207 *)
    pc t = User -> suspend_pending t = true ->
    last_stop_count (stop_info (rep t)) <> sc ->
    rep t' = store_stack_ptr (rep t) (frame t) ->
    pc t' = AtSemPost (errno t) sc -> frame t' = frame t ->
    suspend_pending t' = false -> alive t' = alive t ->
    thread_move sc stopped t t' 0
| move_post e m :                (* line 216 *)
    pc t = AtSemPost e m -> alive t = true ->
    rep t' = rep t -> pc t' = AtStoreCount e m -> frame t' = frame t ->
    suspend_pending t' = suspend_pending t -> alive t' = alive t ->
    thread_move sc stopped t t' 1
| move_store e m :               (* line 217 *)
    pc t = AtStoreCount e m ->
    rep t' = store_last_stop_count (rep t) m ->
    pc t' = InSigsuspend e m -> frame t' = frame t ->
    suspend_pending t' = suspend_pending t -> alive t' = alive t ->
    thread_move sc stopped t t' 0
| move_wake e m :                (* lines 231-232 *)
    pc t = InSigsuspend e m ->
    rep t' = rep t ->
    pc t' = (if stopped then AtLoadCount e m else User) -> frame t' = frame t ->
    suspend_pending t' = suspend_pending t -> alive t' = alive t ->
    thread_move sc stopped t t' 0
| move_recheck e m :             (* line 233 *)
    pc t = AtLoadCount e m ->
    rep t' = rep t ->
    pc t' = (if sc =? m then InSigsuspend e m else User) -> frame t' = frame t ->
    suspend_pending t' = suspend_pending t -> alive t' = alive t ->
    thread_move sc stopped t t' 0.

(** What round [r], collected by thread [me], keeps true of every thread. *)
Definition thread_ok (me r : Z) (t : Thread) : Prop :=
  frame t <> 0
  /\ (last_stop_count (stop_info (rep t)) = r ->
      exists e, pc t = InSigsuspend e r \/ pc t = AtLoadCount e r)
  /\ (acked r t = true -> stack_ptr (stop_info (rep t)) <> 0)
  /\ (forall e m, pc t = AtSemPost e m ->
        m = r /\ stack_ptr (stop_info (rep t)) <> 0)
  /\ (suspend_pending t = true \/ at_sem_post (pc t) = true ->
      eligible me (rep t) = true)
  /\ (forall e, pc t = InSigsuspend e r \/ pc t = AtLoadCount e r ->
        last_stop_count (stop_info (rep t)) = r).

(** What the collecting thread's position says about the counts: [n]
    bounds the threads that have acknowledged together with those that
    exist and have yet to. *)
Definition coord_ok (me r : Z) (w : World) : Prop :=
  let ths := threads w in
  let A := cnt (acked r) ths in
  let U := cnt (todo me r) ths in
  match coord w with
  | AtStoreStopped =>
      GC_suspend_ack_sem w = 0
      /\ forall j t, ths !! j = Some t -> quiet r t = true
  | InSuspendAll First i n =>
      GC_world_is_stopped w = true /\ GC_suspend_ack_sem w = A
      /\ cnt (acked r) (take i ths) + cnt (todo me r) (take i ths) <= n
      /\ forall j t, (i <= j)%nat -> ths !! j = Some t -> quiet r t = true
  | InSuspendAll (Resend n0) i n =>
      GC_world_is_stopped w = true /\ GC_suspend_ack_sem w = A
      /\ A + U <= n0 /\ cnt (todo me r) (take i ths) <= n
  | AtPoll n _ =>
      GC_world_is_stopped w = true /\ GC_suspend_ack_sem w = A /\ A + U <= n
  | AtReconcile n0 newly_sent =>
      GC_world_is_stopped w = true /\ GC_suspend_ack_sem w = A
      /\ A + U <= n0 /\ U <= newly_sent
  | InSemWait i n =>
      GC_world_is_stopped w = true /\ GC_suspend_ack_sem w = A - i
      /\ A + U <= n /\ i <= A
  | Stopped => GC_world_is_stopped w = true /\ U = 0
  | Idle | InRestartAll _ _ | InRestartWait _ _ => False
  end.

(** The invariant of round [r] of [GC_stop_world] called by [me]. *)
Definition round_inv (me r : Z) (w : World) : Prop :=
  GC_stop_count w = r /\ collector w = me
  /\ (forall j t, threads w !! j = Some t -> thread_ok me r t)
  /\ coord_ok me r w.

(** The state [GC_stop_world] expects to be called in, [r] being the
    round it is about to begin: the semaphore is at 0, no suspend signal
    is pending or being handled before its post, and no thread carries
    round [r] already. *)
Definition quiescent (r : Z) (w : World) : Prop :=
  GC_suspend_ack_sem w = 0
  /\ forall j t, threads w !! j = Some t ->
       frame t <> 0
       /\ last_stop_count (stop_info (rep t)) <> r
       /\ quiet r t = true.

(** Labels by which the collector enters one of its two functions. *)
Definition is_call (l : label) : bool :=
  match l with CallStopWorld _ | CallStartWorld => true | _ => false end.

(** The thread a label moves. *)
Definition label_thread (l : label) : option nat :=
  match l with
  | Signal j _ | Next j | Exit j => Some j
  | _ => None
  end.

(** The number of times a schedule enters [GC_stop_world]. *)
Definition enters_stop_world (l : label) : bool :=
  match l with CallStopWorld _ => true | _ => false end.
Definition stop_world_calls (ls : list label) : Z :=
  Z.of_nat (length (List.filter enters_stop_world ls)).

(** Some event of [tr] is a [pthread_kill] with [SIG_SUSPEND]. *)
Definition sends_suspend (tr : list event) : bool :=
  existsb (fun e => match e with
                    | EvKill _ sig _ => sig =? SIG_SUSPEND
                    | _ => false
                    end) tr.

(** The collecting thread is inside the retry loop of lines 424-445. *)
Definition in_retry_loop (c : coord_pc) : bool :=
  match c with
  | AtPoll _ _ | InSuspendAll (Resend _) _ _ | AtReconcile _ _ => true
  | _ => false
  end.

(** The process before [GC_stop_init]: the globals hold their static
    initialisers (lines 85-98). *)
Definition initial_world (ths : list Thread) (print_stats : Z) : World :=
  {| GC_stop_count := 0;
     GC_world_is_stopped := false;
     GC_retry_signals := GC_OSF1_THREADS;
     GC_suspend_ack_sem := 0;
     GC_restart_ack_sem := 0;
     suspend_handler_mask := fun _ => false;
     GC_print_stats := print_stats;
     threads := ths;
     collector := 0;
     coord := Idle;
     trace := [];
     aborted := None |}.

End Vocabulary.

(** ** Vocabulary of the further statements *)

(** What [GC_world_is_stopped] holds at each position of the collecting
    thread: true from line 417 to line 486. *)
Definition stopped_expected (c : coord_pc) : bool :=
  match c with
  | Idle | AtStoreStopped | InRestartAll _ _ | InRestartWait _ _ => false
  | _ => true
  end.


(** The number of acknowledgments the collecting thread expects, where it
    has one. *)
Definition expected_acks (c : coord_pc) : option Z :=
  match c with
  | AtPoll n _ | InSuspendAll (Resend n) _ _ | AtReconcile n _
  | InSemWait _ n => Some n
  | _ => None
  end.

(** The acknowledgments the collecting thread has taken off the
    semaphore in the loop of lines 447-458. *)
Definition acks_consumed (c : coord_pc) : Z :=
  match c with InSemWait i _ => i | _ => 0 end.

Section RestartDefs.
Context `{Platform}.

(** What [GC_start_world] keeps true of the restart signals in a build
    with [GC_NETBSD_THREADS_WORKAROUND]: every delivery counted in
    [n_live_threads] is a signal still pending, a post still on
    [GC_restart_ack_sem], or a post already taken off it. *)
Definition restart_counts (w : World) : Prop :=
  let pending := cnt restart_pending (threads w) in
  match coord w with
  | InRestartAll i n =>
      GC_restart_ack_sem w + pending = n /\ 0 <= GC_restart_ack_sem w
      /\ forall j t, (i <= j)%nat -> threads w !! j = Some t ->
           restart_pending t = false
  | InRestartWait i n =>
      GC_restart_ack_sem w + pending + i = n /\ 0 <= GC_restart_ack_sem w
  | Idle => GC_restart_ack_sem w = 0 /\ pending = 0
  | _ => False
  end.

(** No restart signal is pending and no post is on [GC_restart_ack_sem]. *)
Definition restart_quiet (w : World) : Prop :=
  GC_restart_ack_sem w = 0
  /\ forall j t, threads w !! j = Some t -> restart_pending t = false.

End RestartDefs.


Section ResumeDefs.
Context `{Platform}.



End ResumeDefs.

Section ScheduleDefs.
Context `{Platform}.

(** A thread that answers the signals of a collection by [me]: it
    exists and its record is one a round is about. *)
Definition responsive (me : Z) (t : Thread) : bool :=
  eligible me (rep t) && alive t.

(** The collector examines record [i], which holds [t], and the thread
    answers at once if it is signalled: it takes the signal, posts and
    stores its round.  A record whose thread is gone gets [ESRCH]. *)
Definition exam_schedule (me : Z) (i : nat) (t : Thread) : list label :=
  if eligible me (rep t)
  then if alive t
       then [Coord 0 0; Signal i SIG_SUSPEND; Next i; Next i]
       else [Coord ESRCH 0]
  else [Coord 0 0].

Fixpoint broadcast_schedule (me : Z) (i : nat) (ths : list Thread) : list label :=
  match ths with
  | [] => []
  | t :: rest => exam_schedule me i t ++ broadcast_schedule me (S i) rest
  end.

(** A schedule on which [GC_stop_world], entered by [me] in [w], runs to
    its return: the store of the flag, the broadcast with each thread
    answering, the return of [GC_suspend_all], the one poll of the retry
    loop, the [sem_wait]s and the return. *)
Definition stop_world_schedule (me : Z) (w : World) : list label :=
  [Coord 0 0]
  ++ broadcast_schedule me 0 (threads w)
  ++ [Coord 0 0]
  ++ (if GC_retry_signals w then [Coord 0 0] else [])
  ++ repeat (Coord 0 0) (length (List.filter (responsive me) (threads w)))
  ++ [Coord 0 0].

End ScheduleDefs.

Section RestartScheduleDefs.
Context `{Platform}.

(** How thread [i], wherever it is, comes to take a restart signal: it
    finishes what it has to do before [sigsuspend], if anything, and
    takes the signal there or in user code. *)
Definition restart_answer (i : nat) (t : Thread) : list label :=
  match pc t with
  | AtSemPost _ _ => [Next i; Next i; Signal i SIG_THR_RESTART]
  | AtStoreCount _ _ | AtLoadCount _ _ => [Next i; Signal i SIG_THR_RESTART]
  | User | InSigsuspend _ _ => [Signal i SIG_THR_RESTART]
  end.

Definition restart_exam_schedule (me : Z) (i : nat) (t : Thread) : list label :=
  if eligible me (rep t)
  then if alive t then Coord 0 0 :: restart_answer i t else [Coord ESRCH 0]
  else [Coord 0 0].

Fixpoint restart_schedule (me : Z) (i : nat) (ths : list Thread) : list label :=
  match ths with
  | [] => []
  | t :: rest => restart_exam_schedule me i t ++ restart_schedule me (S i) rest
  end.

(** A schedule on which [GC_start_world], entered in [w], runs to its
    return: the broadcast with each thread taking its signal, the end of
    the walk and, with the restart acknowledgment, the [sem_wait]s and
    the return. *)
Definition start_world_schedule (w : World) : list label :=
  restart_schedule (collector w) 0 (threads w)
  ++ [Coord 0 0]
  ++ (if GC_NETBSD_THREADS_WORKAROUND
      then repeat (Coord 0 0)
             (length (List.filter (responsive (collector w)) (threads w)))
           ++ [Coord 0 0]
      else []).

(** The posts one answering thread makes to [GC_restart_ack_sem]. *)
Definition restart_posts (me : Z) (t : Thread) : Z :=
  if GC_NETBSD_THREADS_WORKAROUND then Z.b2z (responsive me t) else 0.

End RestartScheduleDefs.

(** The thread has round [x] in its record or in its handler. *)
Definition carries (x : Z) (t : Thread) : bool :=
  (last_stop_count (stop_info (rep t)) =? x)
  || match pc t with
     | User => false
     | AtSemPost _ m | AtStoreCount _ m | InSigsuspend _ m | AtLoadCount _ m =>
         m =? x
     end.

(** Between the return of [GC_stop_world] and the next call of it: the
    semaphore is at 0 and no existing thread has a suspend signal pending
    or is about to post. *)
Definition calm (w : World) : Prop :=
  GC_suspend_ack_sem w = 0
  /\ Forall (fun t => frame t <> 0
                      /\ (alive t = true ->
                          suspend_pending t = false
                          /\ at_sem_post (pc t) = false))
       (threads w).

(** In default mode the collector never enters the retry loop, and a
    suspend signal is pending only for a thread that round [r] has not
    reached yet. *)
Definition pending_inv (r : Z) (w : World) : Prop :=
  GC_retry_signals w = false /\ in_retry_loop (coord w) = false
  /\ Forall (fun t => suspend_pending t = true -> alive t = true ->
                      at_sem_post (pc t) = false /\ acked r t = false)
       (threads w).

(** The collector is between two rounds. *)
Definition between_rounds (c : coord_pc) : bool :=
  match c with
  | Stopped | InRestartAll _ _ | InRestartWait _ _ | Idle => true
  | _ => false
  end.

(** ** Concrete processes *)

(** A record and a thread as the registry creates them: no round
    acknowledged, no stack pointer captured, running user code. *)
Definition new_rep (tid fl : Z) (blocked : bool) : GC_Thread_Rep :=
  {| id := tid; flags := fl; thread_blocked := blocked;
     stop_info := {| last_stop_count := 0; stack_ptr := 0 |};
     stack_end := 4096 * tid; activation_frame := 0 |}.
Definition new_thread (tid fl : Z) (blocked : bool) : Thread :=
  {| rep := new_rep tid fl blocked; alive := true;
     suspend_pending := false; restart_pending := false;
     errno := 11; frame := 4096 * tid - 64; pc := User |}.

(** The collector (thread 1, the main thread) and one worker (thread 2)
    in loss-tolerant mode, at coordinator position [c] of round 1, the
    worker having not reacted to any signal: it has not acknowledged and
    the semaphore is at 0. *)
Definition lost_signal_world (c : coord_pc) (tr : list event) (pending : bool)
  : World :=
  {| GC_stop_count := 1;
     GC_world_is_stopped := true;
     GC_retry_signals := true;
     GC_suspend_ack_sem := 0;
     GC_restart_ack_sem := 0;
     suspend_handler_mask := fun _ => false;
     GC_print_stats := 0;
     threads := [new_thread 1 4 false;
                 set_suspend_pending (new_thread 2 0 false) pending];
     collector := 1;
     coord := c;
     trace := tr;
     aborted := None |}.

(** The state a schedule leads to (the start if it cannot be run). *)
Definition run_to `{Platform} (ls : list label) (w : World) : World :=
  match run ls w with Some w' => w' | None => w end.

(** The thread at index [i] of the table. *)
Definition thread_at (i : nat) (w : World) : Thread :=
  match threads w !! i with Some t => t | None => new_thread 0 0 false end.

(** A Linux process of two threads at start-up: the collector (thread 1,
    the main thread) and one worker (thread 2). *)
Definition two_threads : World :=
  @initial_world linux64 [new_thread 1 4 false; new_thread 2 0 false] 0.

(** The same, the worker having ceased to exist with its record still in
    the table and not [FINISHED]. *)
Definition vanished_worker : World :=
  @initial_world linux64
    [new_thread 1 4 false; set_alive (new_thread 2 0 false) false] 0.

(** [GC_stop_world] on a process whose worker is gone: the one
    [pthread_kill] answers [ESRCH]. *)
Definition stop_vanished : list label :=
  [CallStopWorld 1; Coord 0 0; Coord 0 0; Coord 3 0; Coord 0 0; Coord 0 0].

(** [GC_stop_world] by thread 1, after its entry: the flag, the two
    records, the worker taking the signal, capturing, posting and storing
    its round, then the return from [GC_suspend_all], the one [sem_wait]
    and the return. *)
Definition stop_round : list label :=
  [Coord 0 0; Coord 0 0; Coord 0 0; Signal 1 30; Next 1; Next 1;
   Coord 0 0; Coord 0 0; Coord 0 0].

(** The same with the worker's store of [last_stop_count] left for
    later: the collector's [sem_wait] follows the post at once. *)
Definition stop_round_early : list label :=
  [Coord 0 0; Coord 0 0; Coord 0 0; Signal 1 30; Next 1;
   Coord 0 0; Coord 0 0; Coord 0 0].

(** A whole cycle: the round above, a [SIGINT] that wakes the parked
    worker while the world is stopped, then [GC_start_world] and the
    restart signal. *)
Definition stop_start_cycle : list label :=
  CallStopWorld 1 :: stop_round
  ++ [Signal 1 2; Next 1; CallStartWorld; Coord 0 0; Coord 0 0; Coord 0 0;
      Signal 1 24].

(** Two collections in a process without other threads, on the build
    with 8-bit words (loss-tolerant, with the second acknowledgment). *)
Definition two_collections : list label :=
  [CallStopWorld 1; Coord 0 0; Coord 0 0; Coord 0 0; Coord 0 0;
   CallStartWorld; Coord 0 0; Coord 0 0;
   CallStopWorld 1; Coord 0 0; Coord 0 0; Coord 0 0; Coord 0 0;
   CallStartWorld; Coord 0 0; Coord 0 0].

(** A worker with a suspend signal pending whose record already carries
    the current round. *)
Definition duplicate_pending : World :=
  @initial_world linux64
    [new_thread 1 4 false; set_suspend_pending (new_thread 2 0 false) true] 0.

(** A worker parked for round 1 while the world is stopped in round 1. *)
Definition parked_worker : World :=
  set_threads (lost_signal_world Stopped [EvKill 2 30 0] false)
    [new_thread 1 4 false;
     set_pc (set_rep (new_thread 2 0 false)
               (store_last_stop_count
                  (store_stack_ptr (new_rep 2 0 false) 8128) 1))
       (InSigsuspend 11 1)].

(** The positions the collector goes through in that process. *)
Definition lost_signal_pc (c : coord_pc) : bool :=
  match c with
  | AtPoll n _ => n =? 1
  | InSuspendAll (Resend n) i k =>
      (n =? 1) && (match i with
                   | 0%nat | 1%nat => k =? 0
                   | 2%nat => k =? 1
                   | _ => false
                   end)
  | AtReconcile n newly => (n =? 1) && (newly =? 1)
  | _ => false
  end.

(** The process [two_threads] in loss-tolerant mode. *)
Definition two_threads_retry : World := set_retry_signals two_threads true.

(** The collector and one worker on the build with 8-bit words
    (loss-tolerant, with the restart acknowledgment). *)
Definition two_threads_netbsd : World :=
  @initial_world tiny8 [new_thread 1 4 false; new_thread 2 0 false] 0.

(** A round in loss-tolerant mode, after the entry: the worker answers
    before the first poll. *)
Definition stop_round_retry : list label :=
  [Coord 0 0; Coord 0 0; Coord 0 0; Coord 0 0; Signal 1 30; Next 1; Next 1;
   Coord 0 0; Coord 0 0; Coord 0 0].

(** [GC_start_world] with the restart acknowledgment, after its entry:
    the two records, the end of the walk, the worker taking the restart
    signal, the one [sem_wait] and the return. *)
Definition start_round_netbsd : list label :=
  [Coord 0 0; Coord 0 0; Coord 0 0; Signal 1 24; Coord 0 0; Coord 0 0].

(** The worker vanishes while the collector polls: the re-broadcast
    finds it gone and the reconciliation lowers the expectation. *)
Definition worker_vanishes : list label :=
  Exit 1 :: repeat (Coord 0 0) 35
  ++ [Coord 0 0; Coord 3 0; Coord 0 0; Coord 0 0].

(** A process of five records: the collector, a worker, a record whose
    thread is gone, a [FINISHED] record and a blocked thread. *)
Definition five_records : World :=
  @initial_world linux64
    [new_thread 1 4 false; new_thread 2 0 false;
     set_alive (new_thread 3 0 false) false; new_thread 4 1 false;
     new_thread 5 0 true] 0.

(** A round in loss-tolerant mode that returns while the worker is still
    before its store of [last_stop_count]. *)
Definition stop_round_retry_early : list label :=
  [Coord 0 0; Coord 0 0; Coord 0 0; Coord 0 0; Signal 1 30; Next 1;
   Coord 0 0; Coord 0 0; Coord 0 0].

(** * Properties *)

(** ** The monad and the table walk *)

Lemma bind_ret_l {A B} (a : A) (k : A -> M B) : bind (ret a) k = k a.
Proof. unfold bind, ret. destruct (k a) as [tr o]. reflexivity. Qed.

Lemma bind_assoc {A B C} (m : M A) (k : A -> M B) (k' : B -> M C) :
  bind (bind m k) k' = bind m (fun a => bind (k a) k').
Proof.
  destruct m as [tr [a | msg]]; simpl; [| reflexivity].
  destruct (k a) as [tr1 [b | msg1]]; simpl; [| reflexivity].
  destruct (k' b) as [tr2 o2]. by rewrite app_assoc.
Qed.

Lemma bind_ext {A B} (m : M A) (k k' : A -> M B) :
  (forall a, k a = k' a) -> bind m k = bind m k'.
Proof.
  intros E. destruct m as [tr [a | msg]]; simpl; [| reflexivity].
  by rewrite E.
Qed.

Lemma for_chain_app {A S} (body : A -> S -> M S) (l1 l2 : list A) (s : S) :
  for_chain body (l1 ++ l2) s
  = bind (for_chain body l1 s) (for_chain body l2).
Proof.
  revert s. induction l1 as [| p l1 IH]; intros s; cbn [for_chain app].
  - by rewrite bind_ret_l.
  - rewrite bind_assoc. apply bind_ext. intros s'. apply IH.
Qed.

Lemma bind_emit_ok {S A} (e : event) (s : S) (k : S -> M A) :
  bind ([e], Ok s) k = (e :: fst (k s), snd (k s)).
Proof. unfold bind. destruct (k s); reflexivity. Qed.

Lemma bind_silent_ok {S A} (s : S) (k : S -> M A) : bind ([], Ok s) k = k s.
Proof. unfold bind. destruct (k s); reflexivity. Qed.

(** The two nested loops visit the records of the table chain by chain. *)
Lemma for_table_concat {A S} (body : A -> S -> M S) (table : list (list A)) (s : S) :
  for_table body table s = for_chain body (concat table) s.
Proof.
  revert s. induction table as [| chain rest IH]; intros s; cbn [for_table concat].
  - reflexivity.
  - rewrite for_chain_app. apply bind_ext. intros s'. apply IH.
Qed.

(** ** [GC_suspend_all] *)

Section SuspendAll.
Context `{Platform}.

Lemma GC_suspend_all_body_eq my_thread stop_count r p n :
  GC_suspend_all_body my_thread stop_count r p n
  = if suspend_target my_thread stop_count p
    then ([EvKill (id p) SIG_SUSPEND r],
          if r =? ESRCH then Ok n
          else if r =? 0 then Ok (n + 1)
          else Aborted "pthread_kill failed")
    else ([], Ok n).
Proof.
  unfold GC_suspend_all_body, suspend_target.
  destruct (THREAD_EQUAL (id p) my_thread); simpl; [reflexivity |].
  destruct (flag_set (flags p) FINISHED); simpl; [reflexivity |].
  destruct (last_stop_count (stop_info p) =? stop_count); simpl; [reflexivity |].
  destruct (thread_blocked p); simpl; [reflexivity |].
  destruct (r =? ESRCH); simpl.
  - do 2 f_equal. lia.
  - destruct (r =? 0); reflexivity.
Qed.

Lemma suspend_chain pthread_kill my_thread stop_count (l : list GC_Thread_Rep) (n0 : Z) :
  let res p := pthread_kill (id p) SIG_SUSPEND in
  let targets := List.filter (suspend_target my_thread stop_count) l in
  match for_chain
          (fun p n => GC_suspend_all_body my_thread stop_count (res p) p n) l n0
  with
  | (tr, Ok n) =>
      tr = kills SIG_SUSPEND res targets
      /\ forallb (fun p => benign (res p)) targets = true
      /\ n = n0 + Z.of_nat (length (List.filter (fun p => res p =? 0) targets))
      /\ n = n0 + Z.of_nat (length targets)
              - Z.of_nat (length (List.filter (fun p => res p =? ESRCH) targets))
  | (tr, Aborted msg) =>
      msg = "pthread_kill failed"%string
      /\ exists pre p post,
           targets = pre ++ p :: post
           /\ forallb (fun p => benign (res p)) pre = true
           /\ benign (res p) = false
           /\ tr = kills SIG_SUSPEND res (pre ++ [p])
  end.
Proof.
  intros res targets. subst targets. revert n0.
  induction l as [| p l IH]; intros n0.
  - simpl. repeat split; lia.
  - cbn [for_chain List.filter]. rewrite GC_suspend_all_body_eq.
    destruct (suspend_target my_thread stop_count p) eqn:Et.
    + destruct (res p =? ESRCH) eqn:E1; [| destruct (res p =? 0) eqn:E0].
      * rewrite bind_emit_ok. specialize (IH n0).
        destruct (for_chain _ l n0) as [tr [n | msg]]; cbn [fst snd].
        -- destruct IH as (-> & Hb & Hn & Hn').
           assert ((res p =? 0) = false) as E0.
           { apply Z.eqb_eq in E1. apply Z.eqb_neq. rewrite E1. apply ESRCH_nonzero. }
           cbn [kills map forallb List.filter length]. unfold benign at 1.
           rewrite E1, E0, orb_true_r. cbn [length andb].
           repeat split; [exact Hb | exact Hn | lia].
        -- destruct IH as (-> & pre & q & post & Ht & Hb & Hq & ->).
           split; [reflexivity |]. exists (p :: pre), q, post.
           rewrite Ht. cbn [forallb]. unfold benign at 1. rewrite E1, orb_true_r.
           repeat split; assumption.
      * rewrite bind_emit_ok. specialize (IH (n0 + 1)).
        destruct (for_chain _ l (n0 + 1)) as [tr [n | msg]]; cbn [fst snd].
        -- destruct IH as (-> & Hb & Hn & Hn').
           cbn [kills map forallb List.filter length]. unfold benign at 1.
           rewrite E1, E0. cbn [length orb andb].
           repeat split; [exact Hb | lia | lia].
        -- destruct IH as (-> & pre & q & post & Ht & Hb & Hq & ->).
           split; [reflexivity |]. exists (p :: pre), q, post.
           rewrite Ht. cbn [forallb]. unfold benign at 1. rewrite E0.
           repeat split; assumption.
      * unfold bind. split; [reflexivity |].
        exists [], p, (List.filter (suspend_target my_thread stop_count) l).
        unfold benign. rewrite E1, E0. repeat split.
    + rewrite bind_silent_ok. apply IH.
Qed.

(** C5.  [GC_suspend_all] calls [pthread_kill] with [SIG_SUSPEND] on
    exactly the records that are not the calling thread, not [FINISHED],
    not yet at the current round and not [thread_blocked], in table order.
    When every delivery succeeds or answers [ESRCH] it returns the number
    of successful deliveries, which is the number of signalled records
    less those that answered [ESRCH]; the first delivery that fails in
    another way aborts the process. *)
Theorem GC_suspend_all_delivery pthread_kill my_thread stop_count
    (GC_threads : list (list GC_Thread_Rep)) :
  let res p := pthread_kill (id p) SIG_SUSPEND in
  let targets :=
    List.filter (suspend_target my_thread stop_count) (concat GC_threads) in
  match GC_suspend_all pthread_kill my_thread stop_count GC_threads with
  | (tr, Ok n) =>
      tr = kills SIG_SUSPEND res targets
      /\ forallb (fun p => benign (res p)) targets = true
      /\ n = Z.of_nat (length (List.filter (fun p => res p =? 0) targets))
      /\ n = Z.of_nat (length targets)
              - Z.of_nat (length (List.filter (fun p => res p =? ESRCH) targets))
  | (tr, Aborted msg) =>
      msg = "pthread_kill failed"%string
      /\ exists pre p post,
           targets = pre ++ p :: post
           /\ forallb (fun p => benign (res p)) pre = true
           /\ benign (res p) = false
           /\ tr = kills SIG_SUSPEND res (pre ++ [p])
  end.
Proof.
  intros res targets. unfold GC_suspend_all. rewrite for_table_concat.
  pose proof (suspend_chain pthread_kill my_thread stop_count
                (concat GC_threads) 0) as Hc.
  cbv zeta in Hc. fold res in Hc. fold targets in Hc.
  destruct (for_chain _ (concat GC_threads) 0) as [tr [n | msg]].
  - destruct Hc as (Htr & Hb & Hn & Hn'). repeat split; [exact Htr | exact Hb | lia | lia].
  - exact Hc.
Qed.

Lemma GC_start_world_body_eq my_thread r p n :
  GC_start_world_body my_thread r p n
  = if negb (THREAD_EQUAL (id p) my_thread)
       && negb (flag_set (flags p) FINISHED) && negb (thread_blocked p)
    then ([EvKill (id p) SIG_THR_RESTART r],
          if r =? ESRCH then Ok n
          else if r =? 0 then Ok (n + 1)
          else Aborted "pthread_kill failed")
    else ([], Ok n).
Proof.
  unfold GC_start_world_body.
  destruct (THREAD_EQUAL (id p) my_thread); simpl; [reflexivity |].
  destruct (flag_set (flags p) FINISHED); simpl; [reflexivity |].
  destruct (thread_blocked p); simpl; [reflexivity |].
  destruct (r =? ESRCH); simpl.
  - do 2 f_equal. lia.
  - destruct (r =? 0); reflexivity.
Qed.

End SuspendAll.

(** ** [GC_push_all_stacks] *)

Section PushAllStacks.
Context `{Platform}.

Lemma GC_push_all_stacks_body_eq me approx_sp GC_stackbottom p s :
  GC_push_all_stacks_body me approx_sp GC_stackbottom p s
  = if live_record p then
      if range_lo me approx_sp p =? 0
      then ([], Aborted "GC_push_all_stacks: sp not set!")
      else (pushes me approx_sp GC_stackbottom [p],
            Ok {| found_me := THREAD_EQUAL (id p) me || found_me s;
                  nthreads := nthreads s + 1 |})
    else ([], Ok s).
Proof.
  unfold pushes. cbn [map].
  unfold GC_push_all_stacks_body, live_record, range_lo, range_hi, flag_set.
  destruct (Z.land (flags p) FINISHED =? 0); cbn [negb]; [| reflexivity].
  destruct (THREAD_EQUAL (id p) me); cbv beta iota zeta;
    rewrite (Z.eqb_sym 0);
    destruct (Z.land (flags p) MAIN_THREAD =? 0); cbn [negb orb];
    match goal with |- context [?x =? 0] => destruct (x =? 0) end; reflexivity.
Qed.

Lemma push_chain me approx_sp GC_stackbottom (l : list GC_Thread_Rep) (s0 : push_locals) :
  let live := List.filter live_record l in
  match for_chain (GC_push_all_stacks_body me approx_sp GC_stackbottom) l s0 with
  | (tr, Ok s) =>
      tr = pushes me approx_sp GC_stackbottom live
      /\ forallb (fun p => nonzero (range_lo me approx_sp p)) live = true
      /\ nthreads s = nthreads s0 + Z.of_nat (length live)
      /\ found_me s = existsb (fun p => THREAD_EQUAL (id p) me) live || found_me s0
  | (tr, Aborted msg) =>
      msg = "GC_push_all_stacks: sp not set!"%string
      /\ exists pre p post,
           live = pre ++ p :: post
           /\ forallb (fun p => nonzero (range_lo me approx_sp p)) pre = true
           /\ range_lo me approx_sp p = 0
           /\ tr = pushes me approx_sp GC_stackbottom pre
  end.
Proof.
  intros live. subst live. revert s0.
  induction l as [| p l IH]; intros s0.
  - simpl. repeat split. lia.
  - cbn [for_chain List.filter]. rewrite GC_push_all_stacks_body_eq.
    destruct (live_record p) eqn:El.
    + destruct (range_lo me approx_sp p =? 0) eqn:E0.
      * unfold bind. split; [reflexivity |].
        exists [], p, (List.filter live_record l).
        apply Z.eqb_eq in E0. repeat split. exact E0.
      * unfold pushes at 1. cbn [map]. rewrite bind_emit_ok.
        match goal with |- context [for_chain _ l ?s] => specialize (IH s) end.
        destruct (for_chain _ l _) as [tr [s | msg]]; cbn [fst snd].
        -- destruct IH as (-> & Hb & Hn & Hf). cbn [nthreads found_me] in Hn, Hf.
           cbn [pushes map forallb existsb length]. unfold nonzero at 1.
           rewrite E0. cbn [negb andb].
           repeat split; [exact Hb | lia |].
           rewrite Hf. by destruct (THREAD_EQUAL (id p) me), (existsb _ _), (found_me s0).
        -- destruct IH as (-> & pre & q & post & Ht & Hb & Hq & ->).
           split; [reflexivity |]. exists (p :: pre), q, post.
           rewrite Ht. cbn [forallb]. unfold nonzero at 1. rewrite E0.
           repeat split; assumption.
    + rewrite bind_silent_ok. apply IH.
Qed.

(** C6.  [GC_push_all_stacks] hands to the frame scanner one range for
    every record that is not [FINISHED], in table order: from the record's
    captured [stack_ptr] (for the calling thread, the pointer taken in
    place) to [GC_stackbottom] for a [MAIN_THREAD] record and to the
    record's [stack_end] otherwise.  The first such record whose lower
    bound is null aborts the process; so does a walk that never met the
    calling thread outside thread creation. *)
Theorem GC_push_all_stacks_ranges me approx_sp GC_stackbottom
    (GC_in_thread_creation : bool) (print_stats : Z)
    (GC_threads : list (list GC_Thread_Rep)) :
  let live := List.filter live_record (concat GC_threads) in
  let set p := nonzero (range_lo me approx_sp p) in
  let is_me p := THREAD_EQUAL (id p) me in
  let log := if print_stats =? VERBOSE
             then [EvLog "Pushed %d thread stacks" (Z.of_nat (length live))]
             else [] in
  match GC_push_all_stacks me approx_sp GC_stackbottom GC_in_thread_creation
          print_stats GC_threads with
  | (tr, Ok _) =>
      forallb set live = true
      /\ tr = pushes me approx_sp GC_stackbottom live ++ log
      /\ existsb is_me live || GC_in_thread_creation = true
  | (tr, Aborted msg) =>
      (msg = "GC_push_all_stacks: sp not set!"%string
       /\ exists pre p post,
            live = pre ++ p :: post
            /\ forallb set pre = true
            /\ range_lo me approx_sp p = 0
            /\ tr = pushes me approx_sp GC_stackbottom pre)
      \/ (msg = "Collecting from unknown thread."%string
          /\ forallb set live = true
          /\ tr = pushes me approx_sp GC_stackbottom live ++ log
          /\ existsb is_me live = false
          /\ GC_in_thread_creation = false)
  end.
Proof.
  intros live set is_me log. unfold GC_push_all_stacks.
  rewrite for_table_concat.
  pose proof (push_chain me approx_sp GC_stackbottom (concat GC_threads)
                {| found_me := false; nthreads := 0 |}) as Hc.
  cbv zeta in Hc. fold live in Hc.
  destruct (for_chain _ (concat GC_threads) _) as [tr [s | msg]].
  - destruct Hc as (-> & Hb & Hn & Hf). cbn [nthreads found_me] in Hn, Hf.
    rewrite orb_false_r in Hf. rewrite Z.add_0_l in Hn.
    unfold bind at 1. rewrite Hn, Hf. fold is_me. fold log.
    assert ((if print_stats =? VERBOSE
             then emit (EvLog "Pushed %d thread stacks" (Z.of_nat (length live)))
             else ret tt) = (log, Ok tt)) as ->.
    { subst log. destruct (print_stats =? VERBOSE); reflexivity. }
    unfold bind.
    destruct (existsb is_me live) eqn:Ef, GC_in_thread_creation; cbn.
    all: rewrite ?app_nil_r; try (repeat split; assumption).
    right. repeat split; assumption.
  - left. exact Hc.
Qed.

End PushAllStacks.

(** ** [GC_stop_init] and the handlers' checks *)

Section InitAndChecks.
Context `{Platform}.

Lemma GC_remove_allowed_signals_eq c set :
  exists set',
    GC_remove_allowed_signals c set
    = if removals_succeed c
      then ([], Ok set') else ([], Aborted "sigdelset() failed").
Proof.
  unfold GC_remove_allowed_signals, removals_succeed, nonzero.
  destruct (sigdelset_result c SIGINT =? 0); cbn [negb orb andb]; [| by eexists].
  destruct (sigdelset_result c SIGQUIT =? 0); cbn [negb orb andb]; [| by eexists].
  destruct (sigdelset_result c SIGABRT =? 0); cbn [negb orb andb]; [| by eexists].
  destruct (sigdelset_result c SIGTERM =? 0); cbn [negb orb andb]; [| by eexists].
  destruct MPROTECT_VDB; [| by eexists].
  destruct (sigdelset_result c SIGSEGV =? 0); cbn [negb orb andb]; [| by eexists].
  destruct SIGBUS as [bus |]; [| by eexists].
  destruct (sigdelset_result c bus =? 0); cbn [negb orb andb]; by eexists.
Qed.

(** C10.  [GC_stop_init] returns exactly when every library call it makes
    succeeds, and then [GC_retry_signals] is off if [GC_NO_RETRY_SIGNALS]
    is in the environment, else on if [GC_RETRY_SIGNALS] is, else what it
    was before the call; before the call it holds the platform default
    (on for [GC_OSF1_THREADS] builds only). *)
Theorem GC_stop_init_retry_signals (c : init_calls) (w : World) :
  let retry := nonnull (GETENV c "GC_RETRY_SIGNALS") in
  let no_retry := nonnull (GETENV c "GC_NO_RETRY_SIGNALS") in
  match GC_stop_init c w with
  | (_, Ok w') =>
      init_calls_succeed c = true
      /\ GC_retry_signals w'
         = (if no_retry then false
            else if retry then true
            else GC_retry_signals w)
  | (_, Aborted _) => init_calls_succeed c = false
  end
  /\ forall ths print_stats,
       GC_retry_signals (initial_world ths print_stats) = GC_OSF1_THREADS.
Proof.
  intros retry no_retry. split; [| reflexivity].
  unfold GC_stop_init, init_calls_succeed.
  destruct (GC_remove_allowed_signals_eq c sigfillset) as [set' ->].
  unfold nonzero.
  destruct (sem_init_suspend c =? 0); cbn [negb andb]; [| reflexivity].
  destruct GC_NETBSD_THREADS_WORKAROUND; cbn [andb];
    [destruct (sem_init_restart c =? 0); cbn [negb andb]; [| reflexivity] |].
  all: destruct (sigfillset_result c =? 0); cbn [negb andb]; [| reflexivity].
  all: destruct (removals_succeed c); cbn [negb andb]; [| reflexivity].
  all: rewrite bind_silent_ok.
  all: destruct (sigaction_result c SIG_SUSPEND =? 0);
    cbn [negb andb]; [| reflexivity].
  all: destruct (sigaction_result c SIG_THR_RESTART =? 0);
    cbn [negb andb]; [| reflexivity].
  all: rewrite bind_silent_ok.
  all: destruct (sigdelset_result c SIG_THR_RESTART =? 0);
    cbn [negb andb]; [| reflexivity].
  all: subst retry no_retry;
    destruct (nonnull (GETENV c "GC_NO_RETRY_SIGNALS")),
             (nonnull (GETENV c "GC_RETRY_SIGNALS")); cbn.
  all: match goal with
       | |- context [negb ?x && ?b] => destruct (negb x && b)
       | _ => idtac
       end; cbn; split; reflexivity.
Qed.

(** C7.  Each handler aborts the process when its argument is not its own
    signal.  Called with [SIG_THR_RESTART], [GC_restart_handler] returns
    and leaves the thread table, the round counter, the world-stopped
    flag, the acknowledgment semaphore and every other global as they
    were, apart from one post to [GC_restart_ack_sem] in builds with
    [GC_NETBSD_THREADS_WORKAROUND]; called with [SIG_SUSPEND],
    [GC_suspend_handler] goes on. *)
Theorem handlers_check_signal (sig : Z) (w : World) (t : Thread) :
  (if sig =? SIG_SUSPEND
   then exists tr t', GC_suspend_handler_enter sig w t = (tr, Ok t')
   else GC_suspend_handler_enter sig w t
        = ([], Aborted "Bad signal in suspend_handler"))
  /\ (if sig =? SIG_THR_RESTART
      then exists w',
             GC_restart_handler sig w = ([], Ok w')
             /\ threads w' = threads w
             /\ GC_stop_count w' = GC_stop_count w
             /\ GC_world_is_stopped w' = GC_world_is_stopped w
             /\ GC_retry_signals w' = GC_retry_signals w
             /\ GC_suspend_ack_sem w' = GC_suspend_ack_sem w
             /\ suspend_handler_mask w' = suspend_handler_mask w
             /\ coord w' = coord w
             /\ collector w' = collector w
             /\ trace w' = trace w
             /\ aborted w' = aborted w
             /\ GC_restart_ack_sem w'
                = GC_restart_ack_sem w
                  + (if GC_NETBSD_THREADS_WORKAROUND then 1 else 0)
      else GC_restart_handler sig w
           = ([], Aborted "Bad signal in suspend_handler")).
Proof.
  split.
  - unfold GC_suspend_handler_enter.
    destruct (sig =? SIG_SUSPEND); cbn [negb]; [| reflexivity].
    destruct (_ =? GC_stop_count w); [| by eauto].
    destruct (negb (GC_retry_signals w)); by eauto.
  - unfold GC_restart_handler.
    destruct (sig =? SIG_THR_RESTART); cbn [negb]; [| reflexivity].
    destruct GC_NETBSD_THREADS_WORKAROUND; eexists; (split; [reflexivity |]);
      cbn; repeat split; lia.
Qed.

End InitAndChecks.

(** ** Tactics for the machine *)

(** Case analysis on a step of the machine. *)
Ltac unfold_step H :=
  unfold step, GC_stop_world_call, GC_start_world_call, GC_stop_world_step,
    GC_start_world_step, signal_step, next_step, exit_step in H;
  unfold commit, GC_suspend_handler_enter, GC_restart_handler,
    GC_suspend_handler_wake, GC_suspend_handler_recheck,
    GC_suspend_handler_post, bind, ret, emit, ABORT in H.

Ltac step_cases H :=
  unfold_step H;
  repeat case_match; simplify_eq;
  repeat match goal with
  | E : GC_suspend_all_body _ _ _ _ _ = _ |- _ =>
      rewrite GC_suspend_all_body_eq in E
  | E : GC_start_world_body _ _ _ _ = _ |- _ =>
      rewrite GC_start_world_body_eq in E
  end;
  repeat case_match; simplify_eq.

Ltac simpl_world :=
  cbn [threads GC_stop_count GC_world_is_stopped GC_retry_signals
       GC_suspend_ack_sem GC_restart_ack_sem suspend_handler_mask
       GC_print_stats collector coord trace aborted
       set_stop_count set_world_is_stopped set_retry_signals
       set_suspend_ack_sem set_restart_ack_sem set_suspend_handler_mask
       set_threads set_collector set_coord add_trace set_aborted set_thread
       rep alive suspend_pending restart_pending errno frame pc
       set_rep set_alive set_suspend_pending set_restart_pending set_errno
       set_pc GC_suspend_handler_return GC_suspend_handler_post
       GC_suspend_handler_store] in *.

Ltac same_thread :=
  repeat match goal with
  | H : (_ =? _)%nat = true |- _ => apply Nat.eqb_eq in H; subst
  | H : (_ =? _)%nat = false |- _ => apply Nat.eqb_neq in H
  | H : ?x !! ?i = Some _, H' : ?x !! ?i = Some _ |- _ =>
      rewrite H in H'; inversion H'; subst; clear H'
  end.

(** ** The suspend handler *)

Section SuspendHandler.
Context `{Platform}.

Lemma lookup_set_thread_eq w i t t0 :
  threads w !! i = Some t0 -> threads (set_thread w i t) !! i = Some t.
Proof.
  intros Hl. cbn. apply list_lookup_insert_eq. by eapply lookup_lt_Some.
Qed.

Lemma lookup_set_thread_ne w i j t :
  i <> j -> threads (set_thread w i t) !! j = threads w !! j.
Proof. intros Hne. cbn. by apply list_lookup_insert_ne. Qed.

(** C2.  A [SIG_SUSPEND] taken by a thread whose record already carries
    the current round is dropped: the handler returns to the interrupted
    code at once, the acknowledgment semaphore keeps its value, the
    record (so its captured [stack_ptr]) is unchanged and the thread does
    not park; nothing else in the process changes but the pending bit of
    the signal and, outside retry mode, a warning. *)
Theorem duplicate_suspend_signal_dropped (w : World) (i : nat) (t : Thread) :
  aborted w = None ->
  threads w !! i = Some t ->
  alive t = true -> pc t = User -> suspend_pending t = true ->
  last_stop_count (stop_info (rep t)) = GC_stop_count w ->
  exists w' t',
    step (Signal i SIG_SUSPEND) w = Some w'
    /\ GC_suspend_ack_sem w' = GC_suspend_ack_sem w
    /\ threads w' !! i = Some t'
    /\ rep t' = rep t /\ pc t' = User /\ errno t' = errno t
    /\ suspend_pending t' = false
    /\ (forall j, j <> i -> threads w' !! j = threads w !! j)
    /\ GC_stop_count w' = GC_stop_count w
    /\ GC_world_is_stopped w' = GC_world_is_stopped w
    /\ coord w' = coord w
    /\ aborted w' = None
    /\ trace w' = trace w ++ (if GC_retry_signals w then []
                              else [EvWarn "Duplicate suspend signal in thread %p"]).
Proof.
  intros Hab Hl Hal Hpc Hp Hc.
  unfold step, signal_step. rewrite Hab, Hl, Hal, Hpc, Hp, Z.eqb_refl.
  cbn [negb andb]. unfold GC_suspend_handler_enter.
  rewrite Z.eqb_refl. cbn [negb rep set_suspend_pending].
  rewrite Hc, Z.eqb_refl.
  destruct (GC_retry_signals w); cbn [negb]; unfold commit, bind, emit, ret;
    cbn [app]; eexists _, _; (split; [reflexivity |]).
  all: cbn [GC_suspend_ack_sem add_trace set_thread set_threads threads
            GC_stop_count GC_world_is_stopped coord aborted trace].
  all: split; [reflexivity |].
  all: split; [apply list_lookup_insert_eq; by eapply lookup_lt_Some |].
  all: cbn; repeat split; try done.
  all: intros j Hj; by apply list_lookup_insert_ne.
Qed.

Lemma lookup_insert_thread (ths : list Thread) i j t t0 :
  ths !! i = Some t0 ->
  <[j := t]> ths !! i = Some (if decide (j = i) then t else t0).
Proof.
  intros Hl. destruct (decide (j = i)) as [-> | Hne].
  - apply list_lookup_insert_eq. by eapply lookup_lt_Some.
  - by rewrite list_lookup_insert_ne.
Qed.

Lemma step_park l w w' i t :
  step l w = Some w' -> threads w !! i = Some t -> in_park_loop (pc t) = true ->
  exists t', threads w' !! i = Some t'
    /\ pc t' = if moves_thread i l then park_decision w (pc t) else pc t.
Proof.
  intros Hs Hl Hp. unfold_step Hs.
  repeat case_match; simplify_eq.
  all: simpl_world.
  all: try (rewrite (lookup_insert_thread _ _ _ _ _ Hl); case_decide; subst).
  all: cbn [moves_thread] in *; same_thread.
  all: try (eexists; split; [eassumption || reflexivity |]; simpl_world; try done).
  all: try congruence.
  all: try match goal with
       | Hpc : pc ?t = _ |- _ => rewrite Hpc in *; cbn [park_decision in_park_loop] in *
       end.
  all: try congruence.
  all: repeat match goal with
       | Hb : ?b = _ |- context [if ?b then _ else _] => rewrite Hb
       end; done.
Qed.

(** C4.  A thread in the park loop leaves it only by its own next move,
    and that move is decided by the shared state alone: coming out of
    [sigsuspend] it goes on if [GC_world_is_stopped] reads true and
    leaves the handler if it reads false, whichever signal ended the
    wait; at the second operand it blocks again if [GC_stop_count] still
    is the round it parked for and leaves the handler otherwise.  So it
    stays in the loop across every step taken while the flag is true and
    the counter is its round. *)
Theorem park_loop_obeys_shared_state l w w' i t e m :
  step l w = Some w' ->
  threads w !! i = Some t ->
  pc t = InSigsuspend e m \/ pc t = AtLoadCount e m ->
  exists t',
    threads w' !! i = Some t'
    /\ pc t' = (if moves_thread i l then park_decision w (pc t) else pc t)
    /\ (GC_world_is_stopped w = true -> GC_stop_count w = m ->
        pc t' = InSigsuspend e m \/ pc t' = AtLoadCount e m)
    /\ (moves_thread i l = true ->
        (pc t = InSigsuspend e m /\ GC_world_is_stopped w = false)
        \/ (pc t = AtLoadCount e m /\ GC_stop_count w <> m) ->
        pc t' = User).
Proof.
  intros Hs Hl Hp.
  destruct (step_park l w w' i t Hs Hl) as (t' & Hl' & Hpc).
  { by destruct Hp as [-> | ->]. }
  exists t'. split; [exact Hl' |]. split; [exact Hpc |]. split.
  - intros Hf Hc. rewrite Hpc.
    destruct (moves_thread i l); [| exact Hp].
    destruct Hp as [-> | ->]; cbn [park_decision].
    + rewrite Hf. by right.
    + rewrite Hc, Z.eqb_refl. by left.
  - intros Hm Hx. rewrite Hpc, Hm.
    destruct Hx as [[-> Hf] | [-> Hc]]; cbn [park_decision].
    + by rewrite Hf.
    + apply Z.eqb_neq in Hc. by rewrite Hc.
Qed.

Lemma step_interrupted_errno l w w' i t :
  step l w = Some w' -> threads w !! i = Some t ->
  exists t', threads w' !! i = Some t'
    /\ interrupted_errno t' = interrupted_errno t.
Proof.
  intros Hs Hl. unfold_step Hs.
  repeat case_match; simplify_eq.
  all: simpl_world.
  all: try (rewrite (lookup_insert_thread _ _ _ _ _ Hl); case_decide; subst).
  all: same_thread.
  all: try (eexists; split; [eassumption || reflexivity |]; simpl_world; try done).
  all: unfold interrupted_errno; simpl_world.
  all: repeat match goal with
       | Hpc : pc ?t = _ |- _ => rewrite Hpc
       end; done.
Qed.

Lemma run_interrupted_errno ls w w' i t :
  run ls w = Some w' -> threads w !! i = Some t ->
  exists t', threads w' !! i = Some t'
    /\ interrupted_errno t' = interrupted_errno t.
Proof.
  revert w t. induction ls as [| l ls IH]; intros w t Hr Hl; cbn [run] in Hr.
  - simplify_eq. by exists t.
  - destruct (step l w) as [w1 |] eqn:Hs; [| done].
    destruct (step_interrupted_errno _ _ _ _ _ Hs Hl) as (t1 & Hl1 & He1).
    destruct (IH _ _ Hr Hl1) as (t' & Hl' & He').
    exists t'. split; [exact Hl' | congruence].
Qed.

(** C9.  Whatever the process does in between, a thread that is back in
    the code the suspend handler interrupted finds in [errno] the value
    it had there before: the handler keeps it in [old_errno] from its
    first line and puts it back on each of its two ways out, the early
    return on a duplicate signal and the return after the park loop. *)
Theorem suspend_handler_preserves_errno ls w w' i t t' :
  run ls w = Some w' ->
  threads w !! i = Some t -> threads w' !! i = Some t' ->
  pc t = User -> pc t' = User ->
  errno t' = errno t.
Proof.
  intros Hr Hl Hl' Hpc Hpc'.
  destruct (run_interrupted_errno _ _ _ _ _ Hr Hl) as (t1 & Hl1 & He).
  simplify_eq. unfold interrupted_errno in He. by rewrite Hpc, Hpc' in He.
Qed.

End SuspendHandler.

(** ** The round counter *)

Section RoundCounter.
Context `{Platform}.

Lemma restart_is_not_suspend : (SIG_THR_RESTART =? SIG_SUSPEND) = false.
Proof. apply Z.eqb_neq. intros E. by apply signals_distinct. Qed.

Lemma step_shared l w w' :
  step l w = Some w' ->
  GC_stop_count w'
  = (if enters_stop_world l then wrap (GC_stop_count w + 1) else GC_stop_count w)
  /\ (enters_stop_world l = true ->
      coord w = Idle /\ coord w' = AtStoreStopped
      /\ trace w' = trace w /\ threads w' = threads w
      /\ GC_world_is_stopped w' = GC_world_is_stopped w)
  /\ (GC_world_is_stopped w' = true ->
      GC_world_is_stopped w = true \/ coord w = AtStoreStopped)
  /\ exists new,
       trace w' = trace w ++ new
       /\ (sends_suspend new = true -> exists b i n, coord w = InSuspendAll b i n).
Proof.
  intros Hs. step_cases Hs.
  all: simpl_world; cbn [enters_stop_world].
  all: split; [reflexivity |].
  all: split; [try done |].
  all: split; [intros; try done; try congruence; auto |].
  all: try (exists []; split; [by rewrite app_nil_r | done]).
  all: eexists; (split; [reflexivity |]).
  all: cbn [sends_suspend existsb]; rewrite ?restart_is_not_suspend; by eauto.
Qed.

Lemma wrap_range v : 0 <= wrap v < 2 ^ word_bits.
Proof.
  unfold wrap. apply Z.mod_pos_bound. apply Z.pow_pos_nonneg; [lia |].
  pose proof word_bits_pos. lia.
Qed.

Lemma wrap_add_l a b : wrap (wrap a + b) = wrap (a + b).
Proof.
  unfold wrap. apply Z.add_mod_idemp_l.
  pose proof (wrap_range 0). lia.
Qed.

Lemma wrap_small v : 0 <= v < 2 ^ word_bits -> wrap v = v.
Proof. intros Hv. unfold wrap. by apply Z.mod_small. Qed.

Lemma run_app ls1 ls2 w :
  run (ls1 ++ ls2) w
  = match run ls1 w with Some w1 => run ls2 w1 | None => None end.
Proof.
  revert w. induction ls1 as [| l ls1 IH]; intros w; cbn [run app]; [done |].
  destruct (step l w); [apply IH | done].
Qed.

Lemma run_stop_count ls w w' :
  run ls w = Some w' ->
  wrap (GC_stop_count w') = wrap (GC_stop_count w + stop_world_calls ls).
Proof.
  revert w. induction ls as [| l ls IH]; intros w Hr; cbn [run] in Hr.
  - simplify_eq. unfold stop_world_calls. cbn. by rewrite Z.add_0_r.
  - destruct (step l w) as [w1 |] eqn:Hs; [| done].
    rewrite (IH _ Hr). destruct (step_shared _ _ _ Hs) as (-> & _).
    unfold stop_world_calls. cbn [List.filter].
    destruct (enters_stop_world l); cbn [length].
    + rewrite wrap_add_l. f_equal. lia.
    + reflexivity.
Qed.

Lemma run_stop_count_range ls w w' :
  run ls w = Some w' ->
  0 <= GC_stop_count w < 2 ^ word_bits ->
  0 <= GC_stop_count w' < 2 ^ word_bits.
Proof.
  revert w. induction ls as [| l ls IH]; intros w Hr Hw; cbn [run] in Hr.
  - by simplify_eq.
  - destruct (step l w) as [w1 |] eqn:Hs; [| done].
    apply (IH _ Hr). destruct (step_shared _ _ _ Hs) as (-> & _).
    destruct (enters_stop_world l); [apply wrap_range | exact Hw].
Qed.

(** C8.  Along any run of the process [GC_stop_count] advances by one,
    modulo the word, at each entry into [GC_stop_world] and at no other
    step.  The step that advances it is the first of the call: it sends
    no signal and leaves the world-stopped flag alone; the flag is set by
    the step that follows it and suspend signals are sent only from
    inside [GC_suspend_all].  Hence the rounds of fewer than [2 ^
    word_bits] successive calls are pairwise different, and they increase
    strictly as long as the counter does not wrap. *)
Theorem round_counter_advances_once_per_call ls w w' :
  run ls w = Some w' ->
  0 <= GC_stop_count w < 2 ^ word_bits ->
  let k := stop_world_calls ls in
  GC_stop_count w' = wrap (GC_stop_count w + k)
  /\ (0 < k < 2 ^ word_bits -> GC_stop_count w' <> GC_stop_count w)
  /\ (0 < k -> GC_stop_count w + k < 2 ^ word_bits ->
      GC_stop_count w < GC_stop_count w')
  /\ forall ls1 l ls2 w1 w2,
       ls = ls1 ++ l :: ls2 -> run ls1 w = Some w1 -> step l w1 = Some w2 ->
       if enters_stop_world l
       then GC_stop_count w2 = wrap (GC_stop_count w1 + 1)
            /\ coord w1 = Idle /\ coord w2 = AtStoreStopped
            /\ trace w2 = trace w1
            /\ GC_world_is_stopped w2 = GC_world_is_stopped w1
       else GC_stop_count w2 = GC_stop_count w1
            /\ (GC_world_is_stopped w2 = true ->
                GC_world_is_stopped w1 = true \/ coord w1 = AtStoreStopped)
            /\ exists new,
                 trace w2 = trace w1 ++ new
                 /\ (sends_suspend new = true ->
                     exists b i n, coord w1 = InSuspendAll b i n).
Proof.
  intros Hr Hw k.
  assert (GC_stop_count w' = wrap (GC_stop_count w + k)) as Hk.
  { unfold k. rewrite <- (run_stop_count _ _ _ Hr). symmetry. apply wrap_small.
    by eapply run_stop_count_range. }
  assert (0 <= k) as Hk0 by (unfold k, stop_world_calls; lia).
  clearbody k.
  split; [exact Hk |]. split; [| split].
  - intros Hlt E. rewrite Hk in E. unfold wrap in E.
    assert ((GC_stop_count w + k - GC_stop_count w) mod 2 ^ word_bits = 0) as E0.
    { rewrite Zminus_mod, E, (Z.mod_small (GC_stop_count w)) by lia.
      rewrite Z.sub_diag. apply Z.mod_0_l. lia. }
    replace (GC_stop_count w + k - GC_stop_count w) with k in E0 by lia.
    rewrite Z.mod_small in E0 by lia. lia.
  - intros Hpos Hlt. rewrite Hk, wrap_small by lia. lia.
  - intros ls1 l ls2 w1 w2 -> Hr1 Hs.
    destruct (step_shared _ _ _ Hs) as (Hc & Hcall & Hflag & Htr).
    destruct (enters_stop_world l).
    + destruct (Hcall eq_refl) as (? & ? & ? & ? & ?). by repeat split.
    + by repeat split.
Qed.

End RoundCounter.

(** ** The retry loop *)

Section RetryLoop.
Context `{Platform}.

Lemma step_retry_loop l w w' :
  step l w = Some w' -> in_retry_loop (coord w) = true ->
  in_retry_loop (coord w') = true
  \/ exists n wait,
       coord w = AtPoll n wait /\ GC_suspend_ack_sem w = n
       /\ coord w' = InSemWait 0 n.
Proof.
  intros Hs Hin. step_cases Hs.
  all: simpl_world.
  all: repeat match goal with
       | Hc : coord _ = _ |- _ => rewrite Hc in *
       end; cbn [in_retry_loop] in *; try done; auto.
  right. apply Z.eqb_eq in H4. by eauto.
Qed.

Lemma run_retry_loop ls w w' :
  run ls w = Some w' ->
  in_retry_loop (coord w) = true -> in_retry_loop (coord w') = false ->
  exists ls1 l ls2 w1 n wait,
    ls = ls1 ++ l :: ls2 /\ run ls1 w = Some w1
    /\ coord w1 = AtPoll n wait /\ GC_suspend_ack_sem w1 = n
    /\ step l w1 = Some (set_coord w1 (InSemWait 0 n)).
Proof.
  revert w. induction ls as [| l ls IH]; intros w Hr Hin Hout; cbn [run] in Hr.
  - simplify_eq. congruence.
  - destruct (step l w) as [w1 |] eqn:Hs; [| done].
    destruct (step_retry_loop _ _ _ Hs Hin) as [Hin1 | (n & wait & Hc & Hsem & Hc1)].
    + destruct (IH _ Hr Hin1 Hout) as (ls1 & l' & ls2 & w2 & n & wait & -> & Hr1 & ?).
      exists (l :: ls1), l', ls2, w2, n, wait.
      split; [done |]. split; [| done]. cbn [run]. by rewrite Hs.
    + exists [], l, ls, w, n, wait. repeat split; try done.
      rewrite Hs. f_equal. clear IH Hr Hout.
      step_cases Hs; simpl_world; try congruence.
      all: repeat match goal with
           | Hc : coord _ = _ |- _ => rewrite Hc in *
           end; cbn [in_retry_loop] in *; try done.
Qed.

Lemma poll_sleeps (j : nat) code err w n wait :
  aborted w = None -> coord w = AtPoll n wait -> GC_suspend_ack_sem w <> n ->
  wait + WAIT_UNIT * Z.of_nat j <= RETRY_INTERVAL + WAIT_UNIT ->
  run (repeat (Coord code err) j) w
  = Some (set_coord w (AtPoll n (wait + WAIT_UNIT * Z.of_nat j))).
Proof.
  revert w wait. induction j as [| j IH]; intros w wait Hab Hc Hsem Hw.
  - cbn [run repeat]. rewrite Nat2Z.inj_0, Z.mul_0_r, Z.add_0_r, <- Hc.
    by destruct w.
  - cbn [run repeat]. unfold step, GC_stop_world_step.
    rewrite Hab, Hc. cbn [in_start_world].
    apply Z.eqb_neq in Hsem. rewrite Hsem.
    assert ((wait >? RETRY_INTERVAL) = false) as ->.
    { unfold WAIT_UNIT, RETRY_INTERVAL in *. lia. }
    rewrite (IH _ (wait + WAIT_UNIT)); simpl_world; try done.
    + do 3 f_equal. lia.
    + by apply Z.eqb_neq.
    + lia.
Qed.

(** C3, as amended.  The retry loop of [GC_stop_world] is left only by a
    poll that finds the value of the semaphore equal to [n_live_threads].
    While the two differ it sleeps [WAIT_UNIT] per poll and re-broadcasts
    once more than [RETRY_INTERVAL] has been waited, which from a fresh
    interval is the 35th poll; after a re-broadcast it lowers
    [n_live_threads] to [ack_count + newly_sent] if fewer signals were
    re-sent than acknowledgments are missing, and polls on. *)
Theorem retry_loop_exits_only_on_full_count :
  (forall ls w w',
     run ls w = Some w' ->
     in_retry_loop (coord w) = true -> in_retry_loop (coord w') = false ->
     exists ls1 l ls2 w1 n wait,
       ls = ls1 ++ l :: ls2 /\ run ls1 w = Some w1
       /\ coord w1 = AtPoll n wait /\ GC_suspend_ack_sem w1 = n
       /\ step l w1 = Some (set_coord w1 (InSemWait 0 n)))
  /\ (forall code err w n,
        aborted w = None -> coord w = AtPoll n 0 -> GC_suspend_ack_sem w <> n ->
        run (repeat (Coord code err) 34) w
        = Some (set_coord w (AtPoll n (RETRY_INTERVAL + 2000)))
        /\ run (repeat (Coord code err) 35) w
           = Some (set_coord w (InSuspendAll (Resend n) 0 0)))
  /\ (forall code err w n newly_sent,
        aborted w = None -> coord w = AtReconcile n newly_sent ->
        exists w',
          step (Coord code err) w = Some w'
          /\ coord w'
             = AtPoll (if newly_sent <? n - GC_suspend_ack_sem w
                       then GC_suspend_ack_sem w + newly_sent else n)
                 WAIT_UNIT
          /\ GC_suspend_ack_sem w' = GC_suspend_ack_sem w
          /\ threads w' = threads w).
Proof.
  split; [exact run_retry_loop |]. split.
  - intros code err w n Hab Hc Hsem.
    assert (run (repeat (Coord code err) 34) w
            = Some (set_coord w (AtPoll n (RETRY_INTERVAL + 2000)))) as H34.
    { rewrite (poll_sleeps 34 code err w n 0 Hab Hc Hsem); [done |].
      unfold WAIT_UNIT, RETRY_INTERVAL. lia. }
    split; [exact H34 |].
    change 35%nat with (34 + 1)%nat. rewrite repeat_app, run_app, H34.
    cbn [run repeat]. unfold step, GC_stop_world_step. simpl_world.
    rewrite Hab. cbn [in_start_world].
    apply Z.eqb_neq in Hsem. rewrite Hsem. reflexivity.
  - intros code err w n newly Hab Hc.
    unfold step, GC_stop_world_step. rewrite Hab, Hc. cbn [in_start_world].
    destruct (newly <? n - GC_suspend_ack_sem w);
      eexists; (split; [reflexivity |]); simpl_world; done.
Qed.

End RetryLoop.

(** ** One round of [GC_stop_world] *)

Section Round.
Context `{Platform}.

Ltac solve_move :=
  simpl_world;
  repeat match goal with
  | Hb : negb _ = false |- _ => apply negb_false_iff in Hb
  | Hb : negb _ = true |- _ => apply negb_true_iff in Hb
  | Hb : _ && _ = true |- _ => apply andb_prop in Hb as [? ?]
  | Hb : (_ =? _) = true |- _ => apply Z.eqb_eq in Hb
  | Hb : (_ =? _) = false |- _ => apply Z.eqb_neq in Hb
  end;
  first
    [ by (eapply move_capture; simpl_world; eauto)
    | by (eapply move_duplicate; simpl_world; eauto)
    | by (eapply move_post; simpl_world; eauto)
    | by (eapply move_store; simpl_world; eauto)
    | by (eapply move_wake; simpl_world;
          repeat match goal with
          | Hb : ?b = _ |- context [if ?b then _ else _] => rewrite Hb
          end; eauto)
    | by (eapply move_recheck; simpl_world; eauto;
          match goal with
          | |- context [?a =? ?b] => destruct (Z.eqb_spec a b)
          end; congruence)
    | by (eapply move_bits; simpl_world; eauto) ].

Lemma thread_label_step l j w w' :
  label_thread l = Some j -> step l w = Some w' ->
  exists t t' d,
    threads w !! j = Some t /\ threads w' = <[j := t']> (threads w)
    /\ thread_move (GC_stop_count w) (GC_world_is_stopped w) t t' d
    /\ GC_suspend_ack_sem w' = GC_suspend_ack_sem w + d
    /\ coord w' = coord w /\ GC_stop_count w' = GC_stop_count w
    /\ GC_world_is_stopped w' = GC_world_is_stopped w
    /\ collector w' = collector w.
Proof.
  intros Hl Hs. destruct l; try discriminate Hl; cbn in Hl; simplify_eq.
  all: step_cases Hs.
  all: try congruence.
  all: try (do 3 eexists; (split; [first [eassumption | reflexivity] |]);
    simpl_world;
    (split; [reflexivity |]);
    (split; [solve_move |]); simpl_world; repeat split;
    first [lia | congruence]).
  exfalso. by destruct (sig =? SIG_SUSPEND).
Qed.

Ltac rewrite_move :=
  repeat match goal with
  | E : pc _ = _ |- _ => rewrite E in *; clear E
  | E : rep _ = _ |- _ => rewrite E in *; clear E
  | E : frame _ = frame _ |- _ => rewrite E in *; clear E
  | E : suspend_pending _ = _ |- _ => rewrite E in *; clear E
  | E : alive _ = alive _ |- _ => rewrite E in *; clear E
  end;
  cbn [acked at_sem_post store_stack_ptr store_last_stop_count
       stop_info last_stop_count stack_ptr id flags thread_blocked
       eligible negb andb orb Z.b2z] in *.

Ltac bool_crush :=
  repeat match goal with
  | Hb : context [Z.eqb ?a ?b] |- _ => destruct (Z.eqb_spec a b)
  | |- context [Z.eqb ?a ?b] => destruct (Z.eqb_spec a b)
  | Hb : context [suspend_pending ?t] |- _ => destruct (suspend_pending t)
  | |- context [suspend_pending ?t] => destruct (suspend_pending t)
  | Hb : context [alive ?t] |- _ => destruct (alive t)
  | |- context [alive ?t] => destruct (alive t)
  | Hb : context [eligible ?me ?p] |- _ => destruct (eligible me p)
  | |- context [eligible ?me ?p] => destruct (eligible me p)
  end;
  cbn [negb andb orb Z.b2z] in *.

Lemma move_quiet r stopped t t' d :
  thread_move r stopped t t' d -> quiet r t = true ->
  quiet r t' = true /\ d = 0.
Proof.
  intros Hm. unfold quiet, acked.
  destruct Hm; rewrite_move; intros Hq.
  all: try (destruct stopped); bool_crush; try done.
Qed.

Lemma move_acked me r stopped t t' d :
  thread_move r stopped t t' d ->
  stopped = true \/ acked r t = false ->
  thread_ok me r t ->
  Z.b2z (acked r t') = Z.b2z (acked r t) + d.
Proof.
  intros Hm Hs (Hf & Hl & Hsp & Hpost & Hel & Hpk).
  unfold acked in *.
  destruct Hm; rewrite_move; try lia.
  - destruct (Hpost _ _ eq_refl) as [-> _]. by rewrite Z.eqb_refl.
  - destruct stopped; cbn; [lia |].
    destruct Hs as [Hs | Hs]; [done |]. rewrite Hs. reflexivity.
  - bool_crush; lia.
Qed.

Lemma move_todo me r stopped t t' d :
  thread_move r stopped t t' d ->
  stopped = true \/ acked r t = false ->
  thread_ok me r t ->
  Z.b2z (todo me r t') + d <= Z.b2z (todo me r t).
Proof.
  intros Hm Hs Hok.
  pose proof (move_acked me r stopped t t' d Hm Hs Hok) as Ha.
  destruct Hok as (Hf & Hl & Hsp & Hpost & Hel & Hpk).
  unfold todo.
  assert (eligible me (rep t') = eligible me (rep t)) as ->.
  { destruct Hm; by rewrite_move. }
  assert (alive t' = true -> alive t = true) as Hal.
  { destruct Hm; congruence || auto. }
  assert (d = 0 \/ d = 1 /\ alive t = true /\ eligible me (rep t) = true) as Hd.
  { destruct Hm; auto. right. repeat split; [assumption |].
    apply Hel. right.
    match goal with Hpc : pc t = AtSemPost _ _ |- _ => by rewrite Hpc end. }
  clear Hm Hs Hel.
  destruct (eligible me (rep t)), (alive t'), (alive t),
    (acked r t'), (acked r t); cbn in *; try lia.
  all: naive_solver.
Qed.

Lemma eligible_store_stack_ptr me p v :
  eligible me (store_stack_ptr p v) = eligible me p.
Proof. reflexivity. Qed.

Lemma eligible_store_last_stop_count me p v :
  eligible me (store_last_stop_count p v) = eligible me p.
Proof. reflexivity. Qed.

Ltac split_ok := refine (conj _ (conj _ (conj _ (conj _ (conj _ _))))).

Lemma move_thread_ok me r stopped t t' d :
  thread_move r stopped t t' d ->
  stopped = true \/ acked r t = false ->
  thread_ok me r t -> thread_ok me r t'.
Proof.
  intros Hm Hs (Hf & Hl & Hsp & Hpost & Hel & Hpk).
  unfold thread_ok.
  destruct Hm.
  - (* bits *)
    unfold acked in *.
    repeat match goal with E : _ = _ |- _ => rewrite E end.
    exact (conj Hf (conj Hl (conj Hsp (conj Hpost (conj Hel Hpk))))).
  - (* duplicate *)
    subst r. destruct (Hl eq_refl) as [e [Hp | Hp]]; congruence.
  - (* capture *)
    unfold acked.
    repeat match goal with E : _ t' = _ |- _ => rewrite E end.
    cbn. rewrite eligible_store_stack_ptr.
    split_ok; try done.
    + intros e m [= <- <-]. by split.
    + intros _. apply Hel. by left.
    + intros e [? | ?]; done.
  - (* post *)
    destruct (Hpost _ _ H0) as [-> Hsp'].
    unfold acked.
    repeat match goal with E : _ t' = _ |- _ => rewrite E end.
    cbn. split_ok; try done.
    + intros Hr. destruct (Hl Hr) as [e' [Hp | Hp]]; congruence.
    + intros [Hx | ?]; [| done]. apply Hel. by left.
    + intros e' [? | ?]; done.
  - (* store *)
    unfold acked in *. rewrite H0 in *.
    repeat match goal with E : _ t' = _ |- _ => rewrite E end.
    cbn. rewrite eligible_store_last_stop_count.
    split_ok; try done.
    + intros ->. eauto.
    + intros e' [[= _ ->] | ?]; done.
  - (* wake *)
    unfold acked in *. rewrite H0 in *.
    repeat match goal with E : _ t' = _ |- _ => rewrite E end.
    destruct stopped; cbn.
    + split_ok; try done.
      * intros Hr. destruct (Hl Hr) as [e' [[= <- <-] | ?]]; [| done]. eauto.
      * intros e' [? | [= <- <-]]; [done |]. apply (Hpk e). by left.
    + destruct Hs as [? | Hs]; [done |].
      split_ok; try done.
      * intros Hr. destruct (Hl Hr) as [e' [[= <- <-] | ?]]; [| done].
        by rewrite Z.eqb_refl in Hs.
      * intros e' [? | ?]; done.
  - (* recheck *)
    unfold acked in *. rewrite H0 in *.
    repeat match goal with E : _ t' = _ |- _ => rewrite E end.
    destruct (Z.eqb_spec r m) as [<- | Hne]; cbn.
    + split_ok; try done.
      * intros _. eauto.
      * intros e' _. apply (Hpk e). by right.
    + split_ok; try done.
      * intros Hr. destruct (Hl Hr) as [e' [? | [= <- <-]]]; done.
      * intros e' [? | ?]; done.
Qed.

Lemma cnt_nonneg f (l : list Thread) : 0 <= cnt f l.
Proof. unfold cnt. lia. Qed.

Lemma cnt_app f (l1 l2 : list Thread) : cnt f (l1 ++ l2) = cnt f l1 + cnt f l2.
Proof. unfold cnt. rewrite List.filter_app, length_app. lia. Qed.

Lemma cnt_cons f t (l : list Thread) : cnt f (t :: l) = Z.b2z (f t) + cnt f l.
Proof. unfold cnt. cbn [List.filter]. destruct (f t); cbn [length Z.b2z]; lia. Qed.

Lemma cnt_insert f (l : list Thread) j t t' :
  l !! j = Some t ->
  cnt f (<[j := t']> l) = cnt f l - Z.b2z (f t) + Z.b2z (f t').
Proof.
  revert j. induction l as [| a l IH]; intros [| j] Hl; simplify_eq/=.
  - rewrite !cnt_cons. lia.
  - rewrite !cnt_cons, (IH _ Hl). lia.
Qed.

Lemma cnt_take_insert f (l : list Thread) i j t t' :
  l !! j = Some t ->
  cnt f (take i (<[j := t']> l))
  = cnt f (take i l)
    + (if decide (j < i)%nat then Z.b2z (f t') - Z.b2z (f t) else 0).
Proof.
  intros Hl. case_decide as Hji.
  - rewrite take_insert_lt by done.
    rewrite (cnt_insert f (take i l) j t t'); [lia |].
    by rewrite lookup_take_lt.
  - rewrite take_insert_ge by lia. lia.
Qed.

Lemma cnt_take_S f (l : list Thread) i t :
  l !! i = Some t -> cnt f (take (S i) l) = cnt f (take i l) + Z.b2z (f t).
Proof.
  intros Hl. rewrite (take_S_r _ _ _ Hl), cnt_app, cnt_cons.
  change (cnt f []) with 0. lia.
Qed.

Lemma take_all (l : list Thread) i : l !! i = None -> take i l = l.
Proof. intros Hl. apply take_ge. by apply lookup_ge_None. Qed.

Lemma cnt_zero f (l : list Thread) j t :
  cnt f l = 0 -> l !! j = Some t -> f t = false.
Proof.
  revert j. induction l as [| a l IH]; intros [| j] Hc Hl; simplify_eq/=.
  - rewrite cnt_cons in Hc. pose proof (cnt_nonneg f l).
    destruct (f t); cbn in *; [lia | done].
  - rewrite cnt_cons in Hc. pose proof (cnt_nonneg f l).
    apply (IH j); [| done]. destruct (f a); cbn in *; lia.
Qed.

Lemma move_posts sc stopped t t' d : thread_move sc stopped t t' d -> 0 <= d.
Proof. destruct 1; lia. Qed.

Lemma round_inv_thread_step me r l j w w' :
  label_thread l = Some j -> step l w = Some w' ->
  round_inv me r w -> round_inv me r w'.
Proof.
  intros Hlab Hs (Hcount & Hcoll & Hoks & Hco).
  destruct (thread_label_step _ _ _ _ Hlab Hs)
    as (t & t' & d & Hl & Hths & Hm & Hsem & Hc & Hsc & Hfl & Hme).
  rewrite Hcount in Hm.
  assert (GC_world_is_stopped w = true \/ acked r t = false) as Hsa.
  { unfold coord_ok in Hco. destruct (coord w) as [| | [| n0] i n | | | | | |];
      try tauto.
    right. destruct Hco as [_ Hq]. specialize (Hq _ _ Hl).
    unfold quiet in Hq. by destruct (acked r t), (suspend_pending t), (at_sem_post (pc t)). }
  pose proof (move_thread_ok me r _ _ _ _ Hm Hsa (Hoks _ _ Hl)) as Hok'.
  pose proof (move_acked me r _ _ _ _ Hm Hsa (Hoks _ _ Hl)) as Ha.
  pose proof (move_todo me r _ _ _ _ Hm Hsa (Hoks _ _ Hl)) as Ht.
  pose proof (move_posts _ _ _ _ _ Hm) as Hd.
  pose proof (move_quiet r _ _ _ _ Hm) as Hq.
  pose proof (cnt_insert (acked r) _ _ _ t' Hl) as HA.
  pose proof (cnt_insert (todo me r) _ _ _ t' Hl) as HU.
  pose proof (fun i => cnt_take_insert (acked r) _ i _ _ t' Hl) as HpA.
  pose proof (fun i => cnt_take_insert (todo me r) _ i _ _ t' Hl) as HpU.
  split; [congruence |]. split; [congruence |]. split.
  - intros k tk. rewrite Hths. intros Hk.
    destruct (decide (j = k)) as [-> | Hne].
    + rewrite list_lookup_insert_eq in Hk by (by eapply lookup_lt_Some).
      by simplify_eq.
    + rewrite list_lookup_insert_ne in Hk by done. by eapply Hoks.
  - unfold coord_ok in *. rewrite Hc, Hths, Hfl, Hsem.
    destruct (coord w) as [| | [| n0] i n | n wait | n0 newly | i n | | |];
      try done.
    + destruct Hco as [Hsem0 Hqs].
      destruct (Hq (Hqs _ _ Hl)) as [Hq' ->].
      split; [lia |]. intros k tk Hk.
      destruct (decide (j = k)) as [-> | Hne].
      * rewrite list_lookup_insert_eq in Hk by (by eapply lookup_lt_Some).
        by simplify_eq.
      * rewrite list_lookup_insert_ne in Hk by done. by eapply Hqs.
    + destruct Hco as (Hst & HsemA & Hpre & Hqs).
      split; [done |]. split; [lia |]. split.
      * rewrite HpA, HpU. case_decide; lia.
      * intros k tk Hik Hk.
        destruct (decide (j = k)) as [-> | Hne].
        -- rewrite list_lookup_insert_eq in Hk by (by eapply lookup_lt_Some).
           simplify_eq. by apply Hq, (Hqs k).
        -- rewrite list_lookup_insert_ne in Hk by done. by eapply Hqs.
    + destruct Hco as (Hst & HsemA & Hsum & Hpre).
      split; [done |]. split; [lia |]. split; [lia |].
      rewrite HpU. case_decide; lia.
    + destruct Hco as (Hst & HsemA & Hsum). repeat split; [done | lia | lia].
    + destruct Hco as (Hst & HsemA & Hsum & Hnew).
      repeat split; [done | lia | lia | lia].
    + destruct Hco as (Hst & HsemA & Hsum & Hi).
      repeat split; [done | lia | lia | lia].
    + destruct Hco as (Hst & HU0). split; [done |].
      pose proof (cnt_nonneg (todo me r) (<[j:=t']> (threads w))). lia.
Qed.

Lemma acked_set_suspend_pending r t b :
  acked r (set_suspend_pending t b) = acked r t.
Proof. reflexivity. Qed.

Lemma todo_set_suspend_pending me r t b :
  todo me r (set_suspend_pending t b) = todo me r t.
Proof. reflexivity. Qed.

Lemma thread_ok_set_suspend_pending me r t :
  thread_ok me r t -> eligible me (rep t) = true ->
  thread_ok me r (set_suspend_pending t true).
Proof.
  intros (Hf & Hl & Hsp & Hpost & Hel & Hpk) He.
  unfold thread_ok. rewrite acked_set_suspend_pending. simpl_world.
  split_ok; try done.
Qed.

Lemma suspend_target_eligible me r p :
  suspend_target me r p
  = eligible me p && negb (last_stop_count (stop_info p) =? r).
Proof.
  unfold suspend_target, eligible.
  by destruct (THREAD_EQUAL _ _), (flag_set _ _), (_ =? r), (thread_blocked p).
Qed.

(** What the examination of one record by [GC_suspend_all] adds to its
    counter covers the record's thread if it has still to acknowledge. *)
Lemma exam_count me r code t n tr n' :
  thread_ok me r t ->
  GC_suspend_all_body me r code (rep t) n = (tr, Ok n') ->
  kill_called tr && (code =? ESRCH) && alive t = false ->
  n + Z.b2z (todo me r t) <= n'
  /\ (kill_called tr = true -> eligible me (rep t) = true).
Proof.
  intros (Hf & Hl & Hsp & Hpost & Hel & Hpk) Hb Hg.
  rewrite GC_suspend_all_body_eq, suspend_target_eligible in Hb.
  unfold todo.
  destruct (eligible me (rep t)) eqn:He; cbn [andb] in *.
  - destruct (Z.eqb_spec (last_stop_count (stop_info (rep t))) r) as [Hr | Hr];
      cbn [negb] in Hb.
    + destruct (Hl Hr) as [e Hp]. injection Hb as <- <-. split; [| done].
      destruct Hp as [Hp | Hp]; unfold acked; rewrite Hp, Z.eqb_refl;
        rewrite andb_false_r; cbn; lia.
    + destruct (code =? ESRCH) eqn:Ec; simplify_eq.
      * cbn in Hg. rewrite Hg. cbn. split; [lia | done].
      * destruct (code =? 0); simplify_eq. split; [| done].
        destruct (alive t && negb (acked r t)); cbn; lia.
  - simplify_eq. cbn. split; [lia | done].
Qed.

Lemma quiet_all_acked r (l : list Thread) :
  (forall j t, l !! j = Some t -> quiet r t = true) -> cnt (acked r) l = 0.
Proof.
  induction l as [| a l IH]; intros Hq; [done |].
  rewrite cnt_cons, IH.
  - specialize (Hq 0%nat a eq_refl). unfold quiet in Hq.
    destruct (acked r a); [| done].
    by rewrite andb_false_r in Hq.
  - intros j t Hj. by apply (Hq (S j)).
Qed.

Ltac inv_intro Hoks :=
  unfold round_inv; simpl_world;
  split; [done |]; split; [done |]; split; [exact Hoks |];
  unfold coord_ok; simpl_world.

Lemma round_inv_coord_step me r code err w w' :
  step (Coord code err) w = Some w' ->
  round_inv me r w -> round_inv me r w'.
Proof.
  intros Hs (Hcount & Hcoll & Hoks & Hco).
  unfold step in Hs. destruct (aborted w) eqn:Hab; [done |].
  unfold coord_ok in Hco.
  destruct (coord w) as [| | b i n | n wait | n0 newly | i n | | |] eqn:Hc;
    try done; cbn [in_start_world] in Hs; unfold GC_stop_world_step in Hs;
    rewrite Hc in Hs.
  - (* line 417 *)
    simplify_eq. destruct Hco as [Hsem Hq].
    inv_intro Hoks. repeat split.
    + by rewrite quiet_all_acked.
    + rewrite take_0. change (cnt _ []) with 0. lia.
    + intros j t _. apply Hq.
  - (* GC_suspend_all *)
    destruct (threads w !! i) as [t |] eqn:Hi.
    + destruct (GC_suspend_all_body _ _ _ _ _) as [tr [n' | msg]] eqn:Hb.
      2:{ simplify_eq. inv_intro Hoks. by rewrite Hc. }
      destruct (kill_called tr && (code =? ESRCH) && alive t) eqn:Hg; [done |].
      simplify_eq.
      destruct (exam_count _ _ _ _ _ _ _ (Hoks _ _ Hi) Hb Hg) as [Hn He].
      set (t' := if kill_called tr && (code =? 0)
                 then set_suspend_pending t true else t).
      assert (thread_ok (collector w) (GC_stop_count w) t') as Hok'.
      { subst t'. destruct (kill_called tr) eqn:Hk; cbn [andb];
          [| by apply Hoks with i].
        destruct (code =? 0); [| by apply Hoks with i].
        apply thread_ok_set_suspend_pending; [by apply Hoks with i | auto]. }
      assert (acked (GC_stop_count w) t' = acked (GC_stop_count w) t) as Ha'.
      { subst t'. by destruct (kill_called tr && (code =? 0)). }
      assert (todo (collector w) (GC_stop_count w) t'
              = todo (collector w) (GC_stop_count w) t) as Ht'.
      { subst t'. by destruct (kill_called tr && (code =? 0)). }
      pose proof (cnt_insert (acked (GC_stop_count w)) _ _ _ t' Hi) as HA.
      pose proof (cnt_insert (todo (collector w) (GC_stop_count w)) _ _ _ t' Hi)
        as HU.
      pose proof (cnt_take_insert (acked (GC_stop_count w)) _ (S i) _ _ t' Hi)
        as HpA.
      pose proof (cnt_take_insert (todo (collector w) (GC_stop_count w)) _
                    (S i) _ _ t' Hi) as HpU.
      rewrite (cnt_take_S (acked (GC_stop_count w)) _ _ _ Hi) in HpA.
      rewrite (cnt_take_S (todo (collector w) (GC_stop_count w)) _ _ _ Hi) in HpU.
      rewrite Ha' in HA, HpA. rewrite Ht' in HU, HpU.
      rewrite decide_True in HpA, HpU by lia.
      unfold round_inv, coord_ok. simpl_world.
      split; [done |]. split; [done |]. split.
      { intros k tk Hk.
        destruct (decide (i = k)) as [-> | Hne].
        - rewrite list_lookup_insert_eq in Hk by (by eapply lookup_lt_Some).
          by simplify_eq.
        - rewrite list_lookup_insert_ne in Hk by done. by eapply Hoks. }
      destruct b as [| n0].
      * destruct Hco as (Hst & HsemA & Hpre & Hqs).
        split; [done |]. split; [lia |]. split.
        -- rewrite HpA, HpU.
           pose proof (Hqs i t (Nat.le_refl _) Hi) as Hqt. unfold quiet in Hqt.
           destruct (acked (GC_stop_count w) t);
             [by rewrite andb_false_r in Hqt |].
           cbn [Z.b2z]. lia.
        -- intros k tk Hik Hk.
           rewrite list_lookup_insert_ne in Hk by lia.
           apply (Hqs k); [lia | done].
      * destruct Hco as (Hst & HsemA & Hsum & Hpre).
        split; [done |]. split; [lia |]. split; [lia |].
        rewrite HpU. lia.
    + (* return n_live_threads *)
      pose proof (take_all _ _ Hi) as Hall.
      destruct b as [| n0]; simplify_eq.
      * destruct Hco as (Hst & HsemA & Hpre & Hqs). rewrite Hall in Hpre.
        inv_intro Hoks.
        destruct (GC_retry_signals w); repeat split; try done; try lia.
        pose proof (cnt_nonneg (acked (GC_stop_count w)) (threads w)). lia.
      * destruct Hco as (Hst & HsemA & Hsum & Hpre). rewrite Hall in Hpre.
        inv_intro Hoks. by repeat split.
  - (* poll *)
    destruct Hco as (Hst & HsemA & Hsum).
    destruct (Z.eqb_spec (GC_suspend_ack_sem w) n) as [Hn | Hn]; simplify_eq.
    + inv_intro Hoks. repeat split; try done; try lia.
      pose proof (cnt_nonneg (acked (GC_stop_count w)) (threads w)). lia.
    + destruct (wait >? RETRY_INTERVAL); simplify_eq;
        inv_intro Hoks; repeat split; try done;
        rewrite take_0; change (cnt (todo (collector w) (GC_stop_count w)) [])
          with 0; lia.
  - (* reconcile *)
    destruct Hco as (Hst & HsemA & Hsum & Hnew).
    destruct (newly <? n0 - GC_suspend_ack_sem w) eqn:Hlt; simplify_eq;
      inv_intro Hoks; repeat split; try done; lia.
  - (* sem_wait *)
    destruct Hco as (Hst & HsemA & Hsum & Hi).
    destruct (i <? n) eqn:Hin.
    + destruct (code =? 0).
      * destruct (0 <? GC_suspend_ack_sem w) eqn:Hpos; [| done]. simplify_eq.
        inv_intro Hoks. repeat split; try done; lia.
      * destruct (err =? EINTR); simplify_eq.
        -- unfold round_inv. split; [done |]. split; [done |].
           split; [exact Hoks |]. unfold coord_ok. rewrite Hc. by repeat split.
        -- inv_intro Hoks. rewrite Hc. by repeat split.
    + simplify_eq. inv_intro Hoks.
      repeat split; try done.
      pose proof (cnt_nonneg (todo (collector w) (GC_stop_count w)) (threads w)).
      lia.
  - done.
Qed.

Lemma round_inv_step me r l w w' :
  step l w = Some w' -> is_call l = false ->
  round_inv me r w -> round_inv me r w'.
Proof.
  intros Hs Hl. destruct l as [? | | code err | j sig | j | j]; try done.
  - by apply round_inv_coord_step with code err.
  - by apply round_inv_thread_step with (Signal j sig) j.
  - by apply round_inv_thread_step with (Next j) j.
  - by apply round_inv_thread_step with (Exit j) j.
Qed.

Lemma round_inv_run me r ls w w' :
  run ls w = Some w' ->
  forallb (fun l => negb (is_call l)) ls = true ->
  round_inv me r w -> round_inv me r w'.
Proof.
  revert w. induction ls as [| l ls IH]; intros w Hr Hls Hinv; cbn [run] in Hr.
  - by simplify_eq.
  - destruct (step l w) as [w1 |] eqn:Hs; [| done].
    cbn [forallb] in Hls. apply andb_prop in Hls as [Hl Hls].
    apply negb_true_iff in Hl.
    apply (IH w1 Hr Hls). by apply round_inv_step with l w.
Qed.

Lemma round_inv_begin me w w1 :
  quiescent (wrap (GC_stop_count w + 1)) w ->
  step (CallStopWorld me) w = Some w1 ->
  round_inv me (wrap (GC_stop_count w + 1)) w1.
Proof.
  intros [Hsem Hq] Hs. unfold step, GC_stop_world_call in Hs.
  destruct (aborted w); [done |]. destruct (coord w); try done. simplify_eq.
  unfold round_inv, coord_ok. simpl_world.
  split; [done |]. split; [done |]. split; [| split; [done |]].
  - intros j t Hj. destruct (Hq _ _ Hj) as (Hf & Hl & Hqt).
    unfold quiet in Hqt.
    destruct (suspend_pending t) eqn:Hp, (at_sem_post (pc t)) eqn:Hpc,
      (acked (wrap (GC_stop_count w + 1)) t) eqn:Ha; try done.
    unfold thread_ok. rewrite Hp, Hpc, Ha. split_ok; try done.
    + intros e m Hm. by rewrite Hm in Hpc.
    + by intros [? | ?].
    + intros e [Hm | Hm]; unfold acked in Ha; rewrite Hm, Z.eqb_refl in Ha; done.
  - intros j t Hj. by destruct (Hq _ _ Hj) as (_ & _ & ?).
Qed.

(** C1, as amended.  Let [GC_stop_world] be called by thread [me] in a
    quiescent process and let it return, after any interleaving of its
    steps with those of the threads, [r] being the round it began.  Then
    the round counter is [r], the world-stopped flag is true, and every
    thread that still exists and whose record is not that of [me], not
    [FINISHED] and not [thread_blocked] has a non-null captured
    [stack_ptr] and has posted its acknowledgment for round [r]: either
    it is between its [sem_post] and the store of [last_stop_count] that
    follows it, or its [last_stop_count] is [r] and it is in the park
    loop. *)
Theorem stop_world_stops_existing_threads me ls w w' :
  quiescent (wrap (GC_stop_count w + 1)) w ->
  run (CallStopWorld me :: ls) w = Some w' ->
  forallb (fun l => negb (is_call l)) ls = true ->
  coord w' = Stopped ->
  let r := wrap (GC_stop_count w + 1) in
  GC_stop_count w' = r
  /\ GC_world_is_stopped w' = true
  /\ forall i t,
       threads w' !! i = Some t ->
       THREAD_EQUAL (id (rep t)) me = false ->
       flag_set (flags (rep t)) FINISHED = false ->
       thread_blocked (rep t) = false ->
       alive t = true ->
       stack_ptr (stop_info (rep t)) <> 0
       /\ ((exists e, pc t = AtStoreCount e r)
           \/ (last_stop_count (stop_info (rep t)) = r
               /\ exists e, pc t = InSigsuspend e r \/ pc t = AtLoadCount e r)).
Proof.
  intros Hq Hr Hls Hc r. cbn [run] in Hr.
  destruct (step (CallStopWorld me) w) as [w1 |] eqn:Hs; [| done].
  pose proof (round_inv_begin me w w1 Hq Hs) as Hinv.
  apply (round_inv_run _ _ _ _ _ Hr Hls) in Hinv.
  destruct Hinv as (Hcount & Hcoll & Hoks & Hco).
  unfold coord_ok in Hco. rewrite Hc in Hco. destruct Hco as [Hst HU].
  split; [done |]. split; [done |].
  intros i t Hi Hme Hfin Hbl Hal.
  pose proof (cnt_zero _ _ _ _ HU Hi) as Ht.
  unfold todo, eligible in Ht. rewrite Hme, Hfin, Hbl, Hal in Ht.
  cbn in Ht. apply negb_false_iff in Ht.
  destruct (Hoks _ _ Hi) as (Hf & Hl & Hsp & Hpost & Hel & Hpk).
  split; [by apply Hsp |].
  unfold acked in Ht. fold r in Ht, Hpk.
  destruct (pc t) as [| e m | e m | e m | e m] eqn:Hpc; try done;
    apply Z.eqb_eq in Ht; subst m.
  - left. by exists e.
  - right. split; [apply (Hpk e); by left | exists e; by left].
  - right. split; [apply (Hpk e); by right | exists e; by right].
Qed.

End Round.

(** ** A signal that is never answered *)

Lemma lost_signal_step (c : coord_pc) (tr : list event) (pending : bool) :
  lost_signal_pc c = true ->
  exists c' tr' pending',
    @step linux64 (Coord 0 0) (lost_signal_world c tr pending)
    = Some (lost_signal_world c' tr' pending')
    /\ lost_signal_pc c' = true.
Proof.
  intros Hc. destruct c as [| | b i n | n wait | n newly | | | |];
    try discriminate Hc; cbn [lost_signal_pc] in Hc.
  - destruct b as [| n0]; [discriminate |].
    apply andb_prop in Hc as [Hn Hi]. apply Z.eqb_eq in Hn. subst n0.
    destruct i as [| [| [| i]]]; try discriminate Hi;
      apply Z.eqb_eq in Hi; subst n.
    + exists (InSuspendAll (Resend 1) 1 0), (tr ++ []), pending.
      split; reflexivity.
    + exists (InSuspendAll (Resend 1) 2 1), (tr ++ [EvKill 2 30 0]), true.
      split; reflexivity.
    + exists (AtReconcile 1 1), tr, pending. split; reflexivity.
  - apply Z.eqb_eq in Hc. subst n.
    destruct (wait >? RETRY_INTERVAL) eqn:Hw.
    + exists (InSuspendAll (Resend 1) 0 0), tr, pending.
      split; [| done]. unfold step, GC_stop_world_step. cbn. by rewrite Hw.
    + exists (AtPoll 1 (wait + WAIT_UNIT)), tr, pending.
      split; [| done]. unfold step, GC_stop_world_step. cbn. by rewrite Hw.
  - apply andb_prop in Hc as [Hn Hi].
    apply Z.eqb_eq in Hn, Hi. subst n newly.
    exists (AtPoll 1 WAIT_UNIT), (tr ++ []), pending. split; reflexivity.
Qed.

(** C3, the counterexample.  One worker never reacts to the suspend
    signal, so no acknowledgment ever arrives; the collector, left to run
    alone for any number of steps from its first poll, is still inside
    the retry loop and the semaphore is still at 0: the loop has no bound
    after which it gives up. *)
Lemma retry_loop_never_gives_up :
  @run linux64 [CallStopWorld 1; Coord 0 0; Coord 0 0; Coord 0 0; Coord 0 0]
    (set_retry_signals
       (@initial_world linux64 [new_thread 1 4 false; new_thread 2 0 false] 0)
       true)
  = Some (lost_signal_world (AtPoll 1 0) [EvKill 2 30 0] true)
  /\ forall k : nat,
       exists w',
         @run linux64 (repeat (Coord 0 0) k)
           (lost_signal_world (AtPoll 1 0) [EvKill 2 30 0] true) = Some w'
         /\ in_retry_loop (coord w') = true
         /\ GC_suspend_ack_sem w' = 0
         /\ aborted w' = None.
Proof.
  split; [reflexivity |].
  assert (forall (k : nat) c tr pending,
            lost_signal_pc c = true ->
            exists c' tr' pending',
              @run linux64 (repeat (Coord 0 0) k) (lost_signal_world c tr pending)
              = Some (lost_signal_world c' tr' pending')
              /\ lost_signal_pc c' = true) as Hk.
  { induction k as [| k IH]; intros c tr pending Hc.
    - by exists c, tr, pending.
    - destruct (lost_signal_step c tr pending Hc) as (c1 & tr1 & p1 & Hs & Hc1).
      destruct (IH c1 tr1 p1 Hc1) as (c2 & tr2 & p2 & Hr & Hc2).
      exists c2, tr2, p2. split; [| exact Hc2].
      cbn [repeat run]. by rewrite Hs. }
  intros k.
  destruct (Hk k (AtPoll 1 0) [EvKill 2 30 0] true eq_refl)
    as (c & tr & p & Hr & Hc).
  eexists. split; [exact Hr |]. cbn. split; [| done].
  destruct c as [| | [| ?] ? ? | | | | | |]; done.
Qed.

(** ** The protocol on concrete processes *)

(** C1, the counterexample.  [GC_stop_world] returns as soon as the worker
    has posted (line 216), before the worker's store of [last_stop_count]
    (line 217): the worker exists, is not the collector, not [FINISHED]
    and not [thread_blocked], it has taken the signal and captured its
    stack pointer, and its record still carries the round before. *)
Lemma stop_world_returns_before_store :
  let w' := @run_to linux64 (CallStopWorld 1 :: stop_round_early) two_threads in
  let t := thread_at 1 w' in
  @run linux64 (CallStopWorld 1 :: stop_round_early) two_threads = Some w'
  /\ coord w' = Stopped /\ GC_world_is_stopped w' = true
  /\ GC_stop_count w' = 1
  /\ threads w' !! 1%nat = Some t
  /\ alive t = true
  /\ THREAD_EQUAL (id (rep t)) (collector w') = false
  /\ flag_set (flags (rep t)) (@FINISHED linux64) = false
  /\ thread_blocked (rep t) = false
  /\ pc t = AtStoreCount 11 1
  /\ last_stop_count (stop_info (rep t)) = 0
  /\ last_stop_count (stop_info (rep t)) <> GC_stop_count w'.
Proof. vm_compute. by repeat split. Qed.

(** A record whose thread is gone is left out of the round altogether:
    the record is in the table, it is not the collector's, not [FINISHED]
    and not [thread_blocked]; [pthread_kill] answers [ESRCH],
    [GC_stop_world] returns, and the record has neither the round nor a
    stack pointer. *)
Lemma stop_world_skips_vanished_thread :
  let w' := @run_to linux64 stop_vanished vanished_worker in
  let t := set_alive (new_thread 2 0 false) false in
  @run linux64 stop_vanished vanished_worker = Some w'
  /\ coord w' = Stopped /\ GC_world_is_stopped w' = true
  /\ threads w' !! 1%nat = Some t
  /\ THREAD_EQUAL (id (rep t)) (collector w') = false
  /\ flag_set (flags (rep t)) (@FINISHED linux64) = false
  /\ thread_blocked (rep t) = false
  /\ last_stop_count (stop_info (rep t)) <> GC_stop_count w'
  /\ stack_ptr (stop_info (rep t)) = 0.
Proof. vm_compute. by repeat split. Qed.

(** The process [two_threads] is one in which [GC_stop_world] may be
    called. *)
Lemma two_threads_quiescent :
  quiescent (@wrap linux64 (GC_stop_count two_threads + 1)) two_threads.
Proof.
  split; [reflexivity |].
  intros [| [| j]] t Hj; vm_compute in Hj; simplify_eq; vm_compute;
    repeat split; congruence.
Defined.

(** The round [stop_round] in the process [two_threads]. *)
Lemma stop_world_stops_existing_threads_witness :
  let w' := @run_to linux64 (CallStopWorld 1 :: stop_round) two_threads in
  coord w' = Stopped
  /\ GC_stop_count w' = 1
  /\ GC_world_is_stopped w' = true
  /\ forall i t,
       threads w' !! i = Some t ->
       THREAD_EQUAL (id (rep t)) 1 = false ->
       flag_set (flags (rep t)) (@FINISHED linux64) = false ->
       thread_blocked (rep t) = false ->
       alive t = true ->
       stack_ptr (stop_info (rep t)) <> 0
       /\ ((exists e, pc t = AtStoreCount e 1)
           \/ (last_stop_count (stop_info (rep t)) = 1
               /\ exists e, pc t = InSigsuspend e 1 \/ pc t = AtLoadCount e 1)).
Proof.
  cbv zeta. split; [vm_compute; reflexivity |].
  apply (@stop_world_stops_existing_threads linux64 1 stop_round two_threads).
  - exact two_threads_quiescent.
  - vm_compute; reflexivity.
  - vm_compute; reflexivity.
  - vm_compute; reflexivity.
Defined.

(** A duplicate taken by the worker of [duplicate_pending]. *)
Lemma duplicate_suspend_signal_dropped_witness :
  exists w' t',
    @step linux64 (Signal 1 30) duplicate_pending = Some w'
    /\ GC_suspend_ack_sem w' = 0
    /\ threads w' !! 1%nat = Some t'
    /\ rep t' = new_rep 2 0 false /\ pc t' = User /\ errno t' = 11.
Proof.
  destruct (@duplicate_suspend_signal_dropped linux64 duplicate_pending 1
              (set_suspend_pending (new_thread 2 0 false) true))
    as (w' & t' & Hs & Hsem & Hl & Hrep & Hpc & Herr & _);
    try (vm_compute; reflexivity).
  exists w', t'. repeat split; assumption.
Defined.

(** A [SIGINT] wakes the parked worker while the world is stopped: it goes
    on to the second operand of the loop condition. *)
Lemma park_loop_obeys_shared_state_witness :
  exists t',
    threads (@run_to linux64 [Signal 1 2] parked_worker) !! 1%nat = Some t'
    /\ pc t' = AtLoadCount 11 1.
Proof.
  destruct (@park_loop_obeys_shared_state linux64 (Signal 1 2) parked_worker
              (@run_to linux64 [Signal 1 2] parked_worker) 1
              (set_pc (set_rep (new_thread 2 0 false)
                         (store_last_stop_count
                            (store_stack_ptr (new_rep 2 0 false) 8128) 1))
                 (InSigsuspend 11 1)) 11 1)
    as (t' & Hl & Hpc & _).
  - vm_compute; reflexivity.
  - vm_compute; reflexivity.
  - left. reflexivity.
  - exists t'. split; [exact Hl | exact Hpc].
Defined.

(** Two collections from start-up end in round 2. *)
Lemma round_counter_advances_once_per_call_witness :
  GC_stop_count (@run_to tiny8 two_collections (@initial_world tiny8 [] 0)) = 2.
Proof.
  destruct (@round_counter_advances_once_per_call tiny8 two_collections
              (@initial_world tiny8 [] 0)
              (@run_to tiny8 two_collections (@initial_world tiny8 [] 0)))
    as [Hk _].
  - vm_compute; reflexivity.
  - vm_compute. split; [discriminate | reflexivity].
  - exact Hk.
Defined.

(** The worker's [errno] (11 at start-up) after a whole cycle in which
    [sigsuspend] returned twice. *)
Lemma suspend_handler_preserves_errno_witness :
  errno (thread_at 1 (@run_to linux64 stop_start_cycle two_threads)) = 11.
Proof.
  apply (@suspend_handler_preserves_errno linux64 stop_start_cycle two_threads
           (@run_to linux64 stop_start_cycle two_threads) 1
           (new_thread 2 0 false)).
  - vm_compute; reflexivity.
  - vm_compute; reflexivity.
  - vm_compute; reflexivity.
  - reflexivity.
  - vm_compute; reflexivity.
Defined.

(** The worker answers after the first poll: the second poll finds the
    semaphore at [n_live_threads] and leaves the loop. *)
Lemma retry_loop_exits_only_on_full_count_witness :
  let w := lost_signal_world (AtPoll 1 0) [EvKill 2 30 0] true in
  let ls := [Coord 0 0; Signal 1 30; Next 1; Coord 0 0] in
  coord (@run_to linux64 ls w) = InSemWait 0 1
  /\ exists ls1 l ls2 w1 n wait,
       ls = ls1 ++ l :: ls2 /\ @run linux64 ls1 w = Some w1
       /\ coord w1 = AtPoll n wait /\ GC_suspend_ack_sem w1 = n
       /\ @step linux64 l w1 = Some (set_coord w1 (InSemWait 0 n)).
Proof.
  cbv zeta. split; [vm_compute; reflexivity |].
  destruct (@retry_loop_exits_only_on_full_count linux64) as [Hexit _].
  apply (Hexit [Coord 0 0; Signal 1 30; Next 1; Coord 0 0]
           (lost_signal_world (AtPoll 1 0) [EvKill 2 30 0] true)
           (@run_to linux64 [Coord 0 0; Signal 1 30; Next 1; Coord 0 0]
              (lost_signal_world (AtPoll 1 0) [EvKill 2 30 0] true))).
  - vm_compute; reflexivity.
  - reflexivity.
  - vm_compute; reflexivity.
Defined.

(** While the worker is parked its [errno] is the [EINTR] that
    [sigsuspend] left, not the interrupted code's. *)
Example errno_clobbered_while_parked :
  let w := @run_to linux64 (CallStopWorld 1 :: stop_round ++ [Signal 1 2])
             two_threads in
  errno (thread_at 1 w) = @EINTR linux64
  /\ pc (thread_at 1 w) = AtLoadCount 11 1
  /\ interrupted_errno (thread_at 1 w) = 11.
Proof. vm_compute. by repeat split. Qed.

(** After the 256th call the 8-bit counter is back at its first value. *)
Example round_counter_wraps :
  let w := set_stop_count (@initial_world tiny8 [] 0) 255 in
  GC_stop_count (@run_to tiny8 [CallStopWorld 1] w) = 0.
Proof. vm_compute. reflexivity. Qed.

(** [GC_suspend_all] on a table of three chains: the caller, a finished
    thread, a thread that takes the signal, one that is gone, one that is
    blocked and one that has the round already. *)
Example GC_suspend_all_example :
  let p tid fl blocked lsc :=
    {| id := tid; flags := fl; thread_blocked := blocked;
       stop_info := {| last_stop_count := lsc; stack_ptr := 0 |};
       stack_end := 0; activation_frame := 0 |} in
  @GC_suspend_all linux64 (fun tid _ => if tid =? 4 then 3 else 0) 1 7
    [[p 1 4 false 6]; [p 2 1 false 6; p 3 0 false 6; p 4 0 false 6];
     [p 5 0 true 6; p 6 0 false 7]]
  = ([EvKill 3 30 0; EvKill 4 30 3], Ok 1).
Proof. vm_compute. reflexivity. Qed.

(** A delivery failure other than [ESRCH] (here [EINVAL], 22) aborts,
    and the records after it are not signalled. *)
Example GC_suspend_all_abort_example :
  let p tid :=
    {| id := tid; flags := 0; thread_blocked := false;
       stop_info := {| last_stop_count := 6; stack_ptr := 0 |};
       stack_end := 0; activation_frame := 0 |} in
  @GC_suspend_all linux64 (fun tid _ => if tid =? 3 then 22 else 0) 1 7
    [[p 2; p 3; p 4]]
  = ([EvKill 2 30 0; EvKill 3 30 22], Aborted "pthread_kill failed").
Proof. vm_compute. reflexivity. Qed.

(** [GC_push_all_stacks] called by the main thread (record 1) with one
    parked worker and one finished record. *)
Example GC_push_all_stacks_example :
  let p tid fl sp :=
    {| id := tid; flags := fl; thread_blocked := false;
       stop_info := {| last_stop_count := 1; stack_ptr := sp |};
       stack_end := 1000 * tid; activation_frame := 0 |} in
  @GC_push_all_stacks linux64 1 900 9999 false 0
    [[p 1 4 0]; [p 2 0 1800; p 3 1 0]]
  = ([EvPush 900 9999 0; EvPush 1800 2000 0], Ok tt)
  /\ @GC_push_all_stacks linux64 1 900 9999 false 0 [[p 1 4 0]; [p 2 0 0]]
     = ([EvPush 900 9999 0], Aborted "GC_push_all_stacks: sp not set!").
Proof. vm_compute. by split. Qed.

(** With both variables in the environment the retry mode ends up off,
    whatever the platform default. *)
Example GC_stop_init_both_set :
  let c := {| sem_init_suspend := 0; sem_init_restart := 0;
              sigfillset_result := 0; sigdelset_result := fun _ => 0;
              sigaction_result := fun _ => 0;
              environ := {[ "GC_RETRY_SIGNALS" := "1";
                            "GC_NO_RETRY_SIGNALS" := "1" ]} |} in
  match @GC_stop_init tiny8 c (@initial_world tiny8 [] 0) with
  | (tr, Ok w') => tr = [] /\ GC_retry_signals w' = false
  | (_, Aborted _) => False
  end
  /\ GC_retry_signals (@initial_world tiny8 [] 0) = true.
Proof. vm_compute. by repeat split. Qed.

(** In retry mode a duplicate left pending by a re-broadcast can be taken
    at the start of the next round, before its record is examined: the
    record is then skipped as already suspended while its post is counted,
    and the round completes with thread 3 signalled but still running.
    Here thread 1 collects; thread 2 posts late in the first round. *)
Example stale_duplicate_releases_world_early :
  let w := set_retry_signals
             (@initial_world linux64
                [new_thread 1 4 false; new_thread 2 0 false;
                 new_thread 3 0 false] 0) true in
  let first_round :=
    [CallStopWorld 1; Coord 0 0; Coord 0 0; Coord 0 0; Coord 0 0; Coord 0 0;
     Signal 2 30; Next 2; Next 2; Signal 1 30]
    ++ repeat (Coord 0 0) 35
    ++ [Coord 0 0; Coord 0 0; Coord 0 0; Coord 0 0; Coord 0 0;
        Next 1; Next 1;
        Coord 0 0; Coord 0 0; Coord 0 0; Coord 0 0;
        CallStartWorld; Coord 0 0; Coord 0 0; Coord 0 0; Coord 0 0;
        Signal 1 24; Signal 2 24] in
  let second_round :=
    [CallStopWorld 1; Signal 1 30; Next 1; Next 1;
     Coord 0 0; Coord 0 0; Coord 0 0; Coord 0 0; Coord 0 0; Coord 0 0;
     Coord 0 0; Coord 0 0] in
  let w1 := @run_to linux64 first_round w in
  let w2 := @run_to linux64 (first_round ++ second_round) w in
  @run linux64 (first_round ++ second_round) w = Some w2
  /\ coord w1 = Idle /\ GC_stop_count w1 = 1
  /\ suspend_pending (thread_at 1 w1) = true
  /\ coord w2 = Stopped /\ GC_stop_count w2 = 2
  /\ aborted w2 = None
  /\ alive (thread_at 2 w2) = true
  /\ pc (thread_at 2 w2) = User
  /\ last_stop_count (stop_info (rep (thread_at 2 w2))) = 1.
Proof. vm_compute. by repeat split. Qed.

(** ** [GC_start_world], [GC_remove_allowed_signals], [GC_stop_init] *)

Section MoreSequentialFacts.
Context `{Platform}.

Lemma restart_chain pthread_kill my_thread (l : list GC_Thread_Rep) (n0 : Z) :
  let res p := pthread_kill (id p) SIG_THR_RESTART in
  let targets := List.filter (eligible my_thread) l in
  match for_chain
          (fun p n => GC_start_world_body my_thread (res p) p n) l n0
  with
  | (tr, Ok n) =>
      tr = kills SIG_THR_RESTART res targets
      /\ forallb (fun p => benign (res p)) targets = true
      /\ n = n0 + Z.of_nat (length (List.filter (fun p => res p =? 0) targets))
  | (tr, Aborted msg) =>
      msg = "pthread_kill failed"%string
      /\ exists pre p post,
           targets = pre ++ p :: post
           /\ forallb (fun p => benign (res p)) pre = true
           /\ benign (res p) = false
           /\ tr = kills SIG_THR_RESTART res (pre ++ [p])
  end.
Proof.
  intros res targets. subst targets. revert n0.
  induction l as [| p l IH]; intros n0.
  - simpl. repeat split; lia.
  - cbn [for_chain List.filter]. rewrite GC_start_world_body_eq.
    fold (eligible my_thread p).
    destruct (eligible my_thread p) eqn:Et.
    + destruct (res p =? ESRCH) eqn:E1; [| destruct (res p =? 0) eqn:E0].
      * rewrite bind_emit_ok. specialize (IH n0).
        destruct (for_chain _ l n0) as [tr [n | msg]]; cbn [fst snd].
        -- destruct IH as (-> & Hb & Hn).
           assert ((res p =? 0) = false) as E0.
           { apply Z.eqb_eq in E1. apply Z.eqb_neq. rewrite E1. apply ESRCH_nonzero. }
           cbn [kills map forallb List.filter length]. unfold benign at 1.
           rewrite E1, E0, orb_true_r. cbn [length andb].
           repeat split; [exact Hb | exact Hn].
        -- destruct IH as (-> & pre & q & post & Ht & Hb & Hq & ->).
           split; [reflexivity |]. exists (p :: pre), q, post.
           rewrite Ht. cbn [forallb]. unfold benign at 1. rewrite E1, orb_true_r.
           repeat split; assumption.
      * rewrite bind_emit_ok. specialize (IH (n0 + 1)).
        destruct (for_chain _ l (n0 + 1)) as [tr [n | msg]]; cbn [fst snd].
        -- destruct IH as (-> & Hb & Hn).
           cbn [kills map forallb List.filter length]. unfold benign at 1.
           rewrite E0. cbn [length orb andb].
           repeat split; [exact Hb | lia].
        -- destruct IH as (-> & pre & q & post & Ht & Hb & Hq & ->).
           split; [reflexivity |]. exists (p :: pre), q, post.
           rewrite Ht. cbn [forallb]. unfold benign at 1. rewrite E0.
           repeat split; assumption.
      * unfold bind. split; [reflexivity |].
        exists [], p, (List.filter (eligible my_thread) l).
        unfold benign. rewrite E1, E0. repeat split.
    + rewrite bind_silent_ok. apply IH.
Qed.

(** X1.  The broadcast of [GC_start_world] calls [pthread_kill] with
    [SIG_THR_RESTART] on exactly the records that are not the calling
    thread, not [FINISHED] and not [thread_blocked], in table order and
    whatever round the record carries.  The number it counts (and, with
    [GC_NETBSD_THREADS_WORKAROUND], goes on to wait for) is that of the
    deliveries that returned 0, so it lies between 0 and the number of
    signalled records; the first delivery that fails otherwise than with
    [ESRCH] aborts the process. *)
Theorem GC_start_world_delivery pthread_kill my_thread
    (GC_threads : list (list GC_Thread_Rep)) :
  let res p := pthread_kill (id p) SIG_THR_RESTART in
  let targets := List.filter (eligible my_thread) (concat GC_threads) in
  match GC_start_world_broadcast pthread_kill my_thread GC_threads with
  | (tr, Ok n) =>
      tr = kills SIG_THR_RESTART res targets
      /\ forallb (fun p => benign (res p)) targets = true
      /\ n = Z.of_nat (length (List.filter (fun p => res p =? 0) targets))
      /\ 0 <= n <= Z.of_nat (length targets)
  | (tr, Aborted msg) =>
      msg = "pthread_kill failed"%string
      /\ exists pre p post,
           targets = pre ++ p :: post
           /\ forallb (fun p => benign (res p)) pre = true
           /\ benign (res p) = false
           /\ tr = kills SIG_THR_RESTART res (pre ++ [p])
  end.
Proof.
  intros res targets. unfold GC_start_world_broadcast.
  rewrite for_table_concat.
  pose proof (restart_chain pthread_kill my_thread (concat GC_threads) 0) as Hc.
  cbv zeta in Hc. fold res in Hc. fold targets in Hc.
  destruct (for_chain _ (concat GC_threads) 0) as [tr [n | msg]].
  - destruct Hc as (Htr & Hb & Hn).
    pose proof (filter_length_le (fun p => res p =? 0) targets) as Hle.
    repeat split; [exact Htr | exact Hb | lia | lia | lia].
  - exact Hc.
Qed.

Lemma sigdelset_member set sig s :
  sigdelset set sig s = set s && negb (s =? sig).
Proof. unfold sigdelset. destruct (s =? sig), (set s); reflexivity. Qed.

Lemma GC_remove_allowed_signals_cases (c : init_calls) (set : sigset) :
  (removals_succeed c = true
   /\ exists set',
        GC_remove_allowed_signals c set = ([], Ok set')
        /\ forall s, set' s = set s && negb (allowed_signal s))
  \/ (removals_succeed c = false
      /\ GC_remove_allowed_signals c set = ([], Aborted "sigdelset() failed")).
Proof.
  unfold GC_remove_allowed_signals, removals_succeed, allowed_signal, nonzero.
  destruct (sigdelset_result c SIGINT =? 0); cbn [negb orb andb]; [| by right].
  destruct (sigdelset_result c SIGQUIT =? 0); cbn [negb orb andb]; [| by right].
  destruct (sigdelset_result c SIGABRT =? 0); cbn [negb orb andb]; [| by right].
  destruct (sigdelset_result c SIGTERM =? 0); cbn [negb orb andb]; [| by right].
  destruct MPROTECT_VDB; cbn [andb].
  - destruct (sigdelset_result c SIGSEGV =? 0); cbn [negb orb andb]; [| by right].
    destruct SIGBUS as [bus |].
    + destruct (sigdelset_result c bus =? 0); cbn [negb orb andb]; [| by right].
      left. split; [done |]. eexists. split; [reflexivity |].
      intros s. rewrite !sigdelset_member.
      destruct (set s), (s =? SIGINT), (s =? SIGQUIT), (s =? SIGABRT),
        (s =? SIGTERM), (s =? SIGSEGV), (s =? bus); reflexivity.
    + left. split; [done |]. eexists. split; [reflexivity |].
      intros s. rewrite !sigdelset_member.
      destruct (set s), (s =? SIGINT), (s =? SIGQUIT), (s =? SIGABRT),
        (s =? SIGTERM), (s =? SIGSEGV); reflexivity.
  - left. split; [done |]. eexists. split; [reflexivity |].
    intros s. rewrite !sigdelset_member.
    destruct (set s), (s =? SIGINT), (s =? SIGQUIT), (s =? SIGABRT),
      (s =? SIGTERM); reflexivity.
Qed.

(** X2.  [GC_remove_allowed_signals] returns exactly when every
    [sigdelset] it makes returns 0, and then the set has lost [SIGINT],
    [SIGQUIT], [SIGABRT] and [SIGTERM] and, in [MPROTECT_VDB] builds,
    [SIGSEGV] and (where it is defined) [SIGBUS]; the membership of every
    other signal is what it was.  Otherwise it aborts with the message of
    lines 67 and 78. *)
Theorem GC_remove_allowed_signals_members (c : init_calls) (set : sigset) :
  match GC_remove_allowed_signals c set with
  | (tr, Ok set') =>
      tr = [] /\ removals_succeed c = true
      /\ forall s, set' s = set s && negb (allowed_signal s)
  | (tr, Aborted msg) =>
      tr = [] /\ msg = "sigdelset() failed"%string
      /\ removals_succeed c = false
  end.
Proof.
  destruct (GC_remove_allowed_signals_cases c set)
    as [(Hok & set' & -> & Hm) | (Hko & ->)]; by repeat split.
Qed.


End MoreSequentialFacts.

(** ** [GC_print_sig_mask] *)

Lemma print_blocked_members blocked i count s :
  In s (print_blocked blocked i count)
  <-> (i <= s < i + Z.of_nat count /\ blocked s = true).
Proof.
  revert i. induction count as [| count IH]; intros i; cbn [print_blocked].
  - split; [done | lia].
  - rewrite in_app_iff, IH. split.
    + intros [Hi | (Hr & Hb)].
      * destruct (blocked i) eqn:Eb; [| done].
        destruct Hi as [<- | []]. split; [lia | done].
      * split; [lia | done].
    + intros (Hr & Hb). destruct (decide (s = i)) as [-> | Hne].
      * left. rewrite Hb. by left.
      * right. split; [lia | done].
Qed.

Lemma print_blocked_sorted blocked i count :
  StronglySorted Z.lt (print_blocked blocked i count).
Proof.
  revert i. induction count as [| count IH]; intros i; cbn [print_blocked].
  - constructor.
  - destruct (blocked i); cbn [app]; [| apply IH].
    constructor; [apply IH |].
    apply Stdlib.Lists.List.Forall_forall. intros s Hs.
    apply print_blocked_members in Hs. lia.
Qed.

(** X4.  [GC_print_sig_mask] aborts when [pthread_sigmask] fails;
    otherwise it prints the blocked signals from 1 to [NSIG - 1], each
    once and in increasing order, and no other number. *)
Theorem GC_print_sig_mask_prints_blocked (NSIG sigmask_result : Z)
    (blocked : sigset) :
  match GC_print_sig_mask NSIG sigmask_result blocked with
  | Ok out =>
      sigmask_result = 0
      /\ StronglySorted Z.lt out
      /\ forall s, In s out <-> (1 <= s < NSIG /\ blocked s = true)
  | Aborted msg => sigmask_result <> 0 /\ msg = "pthread_sigmask"%string
  end.
Proof.
  unfold GC_print_sig_mask, nonzero.
  destruct (Z.eqb_spec sigmask_result 0) as [-> | Hne]; cbn [negb]; [| done].
  split; [done |]. split; [apply print_blocked_sorted |].
  intros s. rewrite print_blocked_members.
  split; intros [Hr Hb]; (split; [lia | exact Hb]).
Qed.

(** ** What every step keeps *)

Section Shared.
Context `{Platform}.

Lemma step_stopped_expected l w w' :
  step l w = Some w' ->
  GC_world_is_stopped w = stopped_expected (coord w) ->
  GC_world_is_stopped w' = stopped_expected (coord w').
Proof.
  intros Hs Hf. step_cases Hs.
  all: simpl_world; cbn [stopped_expected].
  all: repeat match goal with
       | Hc : coord _ = _ |- _ => rewrite Hc in *
       end; cbn [stopped_expected in_start_world] in *; try done.
  all: congruence.
Qed.


Lemma step_records l w w' j t :
  step l w = Some w' -> threads w !! j = Some t ->
  length (threads w') = length (threads w)
  /\ exists t',
       threads w' !! j = Some t'
       /\ id (rep t') = id (rep t) /\ flags (rep t') = flags (rep t)
       /\ thread_blocked (rep t') = thread_blocked (rep t)
       /\ stack_end (rep t') = stack_end (rep t)
       /\ activation_frame (rep t') = activation_frame (rep t)
       /\ (moves_thread j l = false ->
           rep t' = rep t /\ pc t' = pc t /\ errno t' = errno t).
Proof.
  intros Hs Hl. step_cases Hs.
  all: simpl_world.
  all: rewrite ?length_insert.
  all: (split; [reflexivity |]).
  all: try (rewrite (lookup_insert_thread _ _ _ _ _ Hl); case_decide; subst).
  all: cbn [moves_thread] in *; same_thread.
  all: try (eexists; split; [eassumption || reflexivity |]; simpl_world).
  all: rewrite ?Nat.eqb_refl.
  all: try (repeat split; (done || congruence)).
Qed.


(** X5.  [GC_world_is_stopped] is true exactly while the collecting
    thread is between its store of line 417 and its store of line 486:
    no other step of the process writes the flag. *)
Theorem world_is_stopped_tracks_coordinator ls w w' :
  run ls w = Some w' ->
  GC_world_is_stopped w = stopped_expected (coord w) ->
  GC_world_is_stopped w' = stopped_expected (coord w').
Proof.
  revert w. induction ls as [| l ls IH]; intros w Hr Hw; cbn [run] in Hr.
  - by simplify_eq.
  - destruct (step l w) as [w1 |] eqn:Hs; [| done].
    apply (IH _ Hr). by apply step_stopped_expected with l w.
Qed.


(** X7.  The table keeps its length and every record its identity
    ([id], [flags], [thread_blocked], [stack_end], [activation_frame]):
    the protocol writes nothing of a record but [stop_info].  And that is
    written by the record's own thread only: across any run in which
    thread [j] makes no move, whatever the collector and the other
    threads do, its record, its position and its [errno] stay as they
    were. *)
Theorem record_written_by_own_handler_only ls w w' j t :
  run ls w = Some w' -> threads w !! j = Some t ->
  length (threads w') = length (threads w)
  /\ exists t',
       threads w' !! j = Some t'
       /\ id (rep t') = id (rep t) /\ flags (rep t') = flags (rep t)
       /\ thread_blocked (rep t') = thread_blocked (rep t)
       /\ stack_end (rep t') = stack_end (rep t)
       /\ activation_frame (rep t') = activation_frame (rep t)
       /\ (forallb (fun l => negb (moves_thread j l)) ls = true ->
           rep t' = rep t /\ pc t' = pc t /\ errno t' = errno t).
Proof.
  revert w t. induction ls as [| l ls IH]; intros w t Hr Hl; cbn [run] in Hr.
  - simplify_eq. split; [done |]. exists t. by repeat split.
  - destruct (step l w) as [w1 |] eqn:Hs; [| done].
    destruct (step_records _ _ _ _ _ Hs Hl)
      as (Hlen & t1 & Hl1 & Hid & Hfl & Hbl & Hse & Haf & Hsame).
    destruct (IH _ _ Hr Hl1)
      as (Hlen' & t' & Hl' & Hid' & Hfl' & Hbl' & Hse' & Haf' & Hsame').
    split; [congruence |]. exists t'.
    split; [done |]. repeat split; try congruence.
    all: cbn [forallb] in *.
    all: match goal with
         | Hb : _ && _ = true |- _ => apply andb_prop in Hb as [Hm Hms]
         end.
    all: apply negb_true_iff in Hm.
    all: destruct (Hsame Hm) as (? & ? & ?), (Hsame' Hms) as (? & ? & ?);
      congruence.
Qed.

Lemma step_expected_acks l w w' n :
  step l w = Some w' -> is_call l = false ->
  coord w = Stopped \/ (exists n0, expected_acks (coord w) = Some n0 /\ n0 <= n) ->
  coord w' = Stopped \/ (exists n1, expected_acks (coord w') = Some n1 /\ n1 <= n).
Proof.
  intros Hs Hc Hn. step_cases Hs.
  all: simpl_world; cbn [is_call] in *; try done.
  all: repeat match goal with
       | Hc : coord _ = _ |- _ => rewrite Hc in *
       end; cbn [expected_acks in_start_world] in *; try done.
  all: try (by left).
  all: destruct Hn as [Hn | (nn & Hn & Hle)]; try done; simplify_eq.
  all: try (right; eexists; split; [reflexivity |]; lia).
  all: right; exists nn; by split.
Qed.

(** X8.  From the first poll to the return of [GC_stop_world] the number
    of acknowledgments the collector expects never grows: a
    re-broadcast leaves it alone and the reconciliation of lines 437-440
    can only lower it. *)
Theorem n_live_threads_never_grows ls w w' n n' :
  run ls w = Some w' ->
  forallb (fun l => negb (is_call l)) ls = true ->
  expected_acks (coord w) = Some n -> expected_acks (coord w') = Some n' ->
  n' <= n.
Proof.
  intros Hr Hls Hn Hn'.
  assert (coord w' = Stopped
          \/ exists n1, expected_acks (coord w') = Some n1 /\ n1 <= n) as Hfin.
  { assert (coord w = Stopped
            \/ exists n0, expected_acks (coord w) = Some n0 /\ n0 <= n) as Hini.
    { right. exists n. split; [done | lia]. }
    clear Hn Hn'. revert w Hr Hini.
    induction ls as [| l ls IH]; intros w Hr Hini; cbn [run] in Hr.
    - by simplify_eq.
    - destruct (step l w) as [w1 |] eqn:Hs; [| done].
      cbn [forallb] in Hls. apply andb_prop in Hls as [Hl Hls].
      apply negb_true_iff in Hl.
      apply (IH Hls _ Hr). by apply step_expected_acks with l w. }
  destruct Hfin as [Hst | (n1 & Hn1 & Hle)].
  - rewrite Hst in Hn'. discriminate.
  - congruence.
Qed.

End Shared.

(** ** More on one round of [GC_stop_world] *)

Section RoundMore.
Context `{Platform}.

Lemma round_reached me ls w w' :
  quiescent (wrap (GC_stop_count w + 1)) w ->
  run (CallStopWorld me :: ls) w = Some w' ->
  forallb (fun l => negb (is_call l)) ls = true ->
  round_inv me (wrap (GC_stop_count w + 1)) w'.
Proof.
  intros Hq Hr Hls. cbn [run] in Hr.
  destruct (step (CallStopWorld me) w) as [w1 |] eqn:Hs; [| done].
  pose proof (round_inv_begin me w w1 Hq Hs) as Hinv.
  by apply (round_inv_run _ _ _ _ _ Hr Hls).
Qed.

(** X9.  Throughout the wait of [GC_stop_world] the semaphore counts the
    threads that have posted for the round less the acknowledgments
    already taken off it, and [n_live_threads] is at least the number of
    threads that have posted plus the existing threads that are still to:
    neither a re-broadcast nor the reconciliation makes the collector
    expect fewer acknowledgments than will come. *)
Theorem expected_acks_cover_round me ls w w' n :
  quiescent (wrap (GC_stop_count w + 1)) w ->
  run (CallStopWorld me :: ls) w = Some w' ->
  forallb (fun l => negb (is_call l)) ls = true ->
  expected_acks (coord w') = Some n ->
  let r := wrap (GC_stop_count w + 1) in
  GC_suspend_ack_sem w'
  = cnt (acked r) (threads w') - acks_consumed (coord w')
  /\ cnt (acked r) (threads w') + cnt (todo me r) (threads w') <= n.
Proof.
  intros Hq Hr Hls Hn r.
  destruct (round_reached me ls w w' Hq Hr Hls) as (_ & _ & _ & Hco).
  fold r in Hco. unfold coord_ok in Hco.
  destruct (coord w') as [| | [| n0] i k | k wait | n0 newly | i k | | |];
    try discriminate Hn; cbn [expected_acks acks_consumed] in *; simplify_eq.
  - destruct Hco as (_ & Hs & Hsum & _). split; lia.
  - destruct Hco as (_ & Hs & Hsum). split; lia.
  - destruct Hco as (_ & Hs & Hsum & _). split; lia.
  - destruct Hco as (_ & Hs & Hsum & _). split; lia.
Qed.

(** X10.  In a round begun in a quiescent process no suspend signal is
    treated as a duplicate, in either mode: a thread that takes one
    before [GC_start_world] is called captures its stack pointer and goes
    on to post, and the warning of line 199 is not printed. *)
Theorem round_takes_no_duplicate me ls i w w1 w2 :
  quiescent (wrap (GC_stop_count w + 1)) w ->
  run (CallStopWorld me :: ls) w = Some w1 ->
  forallb (fun l => negb (is_call l)) ls = true ->
  step (Signal i SIG_SUSPEND) w1 = Some w2 ->
  let r := wrap (GC_stop_count w + 1) in
  exists t1 t2,
    threads w1 !! i = Some t1 /\ threads w2 !! i = Some t2
    /\ pc t1 = User /\ pc t2 = AtSemPost (errno t1) r
    /\ stack_ptr (stop_info (rep t2)) = frame t1
    /\ trace w2 = trace w1.
Proof.
  intros Hq Hr Hls Hs r.
  destruct (round_reached me ls w w1 Hq Hr Hls) as (Hcount & _ & Hoks & _).
  fold r in Hcount, Hoks.
  unfold step, signal_step in Hs.
  destruct (aborted w1); [done |].
  destruct (threads w1 !! i) as [t1 |] eqn:Hl; [| done].
  destruct (negb (alive t1)); [done |].
  destruct (Hoks _ _ Hl) as (_ & Hlsc & _).
  destruct (pc t1) as [| e m | e m | e m | e m] eqn:Hpc; try done.
  - rewrite Z.eqb_refl in Hs. cbn [andb] in Hs.
    destruct (suspend_pending t1) eqn:Hp.
    + unfold GC_suspend_handler_enter, commit in Hs.
      rewrite Z.eqb_refl in Hs. cbn [negb] in Hs. simpl_world.
      destruct (Z.eqb_spec (last_stop_count (stop_info (rep t1))) (GC_stop_count w1))
        as [He | Hne].
      * rewrite Hcount in He. destruct (Hlsc He) as (e & [? | ?]); congruence.
      * unfold ret in Hs. simplify_eq. exists t1. eexists.
        split; [done |]. simpl_world.
        split; [apply list_lookup_insert_eq; by eapply lookup_lt_Some |].
        simpl_world. repeat split; try done.
        -- by rewrite Hcount.
        -- apply app_nil_r.
    + rewrite (Z.eqb_sym SIG_SUSPEND), restart_is_not_suspend in Hs. done.
  - rewrite Z.eqb_refl, orb_true_r in Hs. done.
Qed.

(** The collector has taken every acknowledgment off the semaphore. *)
Lemma round_drained_step me r l w w' :
  step l w = Some w' -> is_call l = false ->
  round_inv me r w ->
  (coord w = Stopped -> GC_suspend_ack_sem w = 0) ->
  (coord w' = Stopped -> GC_suspend_ack_sem w' = 0).
Proof.
  intros Hs Hcall (Hcount & Hcoll & Hoks & Hco) Hd Hst'.
  destruct (label_thread l) as [j |] eqn:Hlab.
  - destruct (thread_label_step _ _ _ _ Hlab Hs)
      as (t & t' & d & Hl & Hths & Hm & Hsem & Hc & _).
    rewrite Hc in Hst'. specialize (Hd Hst').
    unfold coord_ok in Hco. rewrite Hst' in Hco. destruct Hco as [_ HU].
    pose proof (cnt_zero _ _ _ _ HU Hl) as Ht.
    destruct Hm; try lia.
    destruct (Hoks _ _ Hl) as (_ & _ & _ & _ & Hel & _).
    unfold todo, acked in Ht.
    match goal with Hpc : pc t = AtSemPost _ _ |- _ => rewrite Hpc in Ht, Hel end.
    match goal with Ha : alive t = true |- _ => rewrite Ha in Ht end.
    rewrite Hel in Ht; [done | by right].
  - destruct l as [? | | code err | ? ? | ? | ?]; try done.
    unfold step in Hs. destruct (aborted w) eqn:Hab; [done |].
    unfold coord_ok in Hco.
    destruct (coord w) as [| | b i n | n wait | n0 newly | i n | | |] eqn:Hc;
      try done; cbn [in_start_world] in Hs; unfold GC_stop_world_step in Hs;
      rewrite ?Hc in Hs.
    all: try (repeat case_match; simplify_eq; simpl_world; (done || congruence)).
    destruct Hco as (_ & Hsem & Hsum & Hi).
    pose proof (cnt_nonneg (todo me r) (threads w)).
    repeat case_match; simplify_eq; simpl_world; try (done || congruence).
    match goal with Hb : (_ <? _) = false |- _ => apply Z.ltb_ge in Hb end.
    lia.
Qed.

(** X11.  When [GC_stop_world] returns it has taken every acknowledgment
    of the round off the semaphore, which is back at 0, and no thread can
    post to it any more before the next round: whatever the threads do
    until [GC_start_world] is called, it stays at 0. *)
Theorem stop_world_drains_semaphore me ls w w' :
  quiescent (wrap (GC_stop_count w + 1)) w ->
  run (CallStopWorld me :: ls) w = Some w' ->
  forallb (fun l => negb (is_call l)) ls = true ->
  coord w' = Stopped ->
  GC_suspend_ack_sem w' = 0.
Proof.
  intros Hq Hr Hls. cbn [run] in Hr.
  destruct (step (CallStopWorld me) w) as [w1 |] eqn:Hs; [| done].
  pose proof (round_inv_begin me w w1 Hq Hs) as Hinv.
  assert (coord w1 = Stopped -> GC_suspend_ack_sem w1 = 0) as Hd.
  { unfold step, GC_stop_world_call in Hs.
    destruct (aborted w); [done |]. destruct (coord w); try done.
    simplify_eq. simpl_world. done. }
  clear Hs Hq. revert w1 Hr Hinv Hd.
  induction ls as [| l ls IH]; intros w1 Hr Hinv Hd; cbn [run] in Hr.
  - by simplify_eq.
  - destruct (step l w1) as [w2 |] eqn:Hs; [| done].
    cbn [forallb] in Hls. apply andb_prop in Hls as [Hl Hls].
    apply negb_true_iff in Hl.
    apply (IH Hls w2 Hr).
    + by apply round_inv_step with l w1.
    + by apply round_drained_step with me (wrap (GC_stop_count w + 1)) l w1.
Qed.

End RoundMore.

(** ** Scanning a stopped world *)

Section Scan.
Context `{Platform}.

Lemma GC_push_all_stacks_succeeds me approx_sp GC_stackbottom
    (GC_in_thread_creation : bool) (print_stats : Z)
    (GC_threads : list (list GC_Thread_Rep)) :
  let live := List.filter live_record (concat GC_threads) in
  forallb (fun p => nonzero (range_lo me approx_sp p)) live = true ->
  existsb (fun p => THREAD_EQUAL (id p) me) live || GC_in_thread_creation = true ->
  GC_push_all_stacks me approx_sp GC_stackbottom GC_in_thread_creation
    print_stats GC_threads
  = (pushes me approx_sp GC_stackbottom live
       ++ (if print_stats =? VERBOSE
           then [EvLog "Pushed %d thread stacks" (Z.of_nat (length live))]
           else []),
     Ok tt).
Proof.
  intros live Hset Hme. unfold GC_push_all_stacks.
  rewrite for_table_concat.
  pose proof (push_chain me approx_sp GC_stackbottom (concat GC_threads)
                {| found_me := false; nthreads := 0 |}) as Hc.
  cbv zeta in Hc. fold live in Hc.
  destruct (for_chain _ (concat GC_threads) _) as [tr [s | msg]].
  - destruct Hc as (-> & _ & Hn & Hf). cbn [nthreads found_me] in Hn, Hf.
    rewrite orb_false_r in Hf. rewrite Z.add_0_l in Hn.
    unfold bind at 1. rewrite Hn, Hf.
    destruct (print_stats =? VERBOSE); unfold emit, ret, bind.
    all: destruct (existsb _ live), GC_in_thread_creation; try done.
    all: by rewrite ?app_nil_r.
  - destruct Hc as (_ & pre & p & post & Hl & _ & Hp & _).
    rewrite Hl, forallb_app in Hset. cbn [forallb] in Hset.
    unfold nonzero in Hset. rewrite Hp in Hset. cbn in Hset.
    by rewrite andb_false_r in Hset.
Qed.

(** X12.  A world stopped by [GC_stop_world] can be scanned: when the
    round began in a quiescent process, every other thread with a live
    record still exists, and the blocked ones have published a stack
    pointer, [GC_push_all_stacks] called by the collector from a
    registered thread does not abort and pushes one range for every
    record that is not [FINISHED]. *)
Theorem stopped_world_can_be_scanned me ls w w' approx_sp GC_stackbottom
    print_stats :
  quiescent (wrap (GC_stop_count w + 1)) w ->
  run (CallStopWorld me :: ls) w = Some w' ->
  forallb (fun l => negb (is_call l)) ls = true ->
  coord w' = Stopped ->
  approx_sp <> 0 ->
  existsb (fun t => THREAD_EQUAL (id (rep t)) me && live_record (rep t))
    (threads w') = true ->
  (forall i t,
     threads w' !! i = Some t ->
     THREAD_EQUAL (id (rep t)) me = false -> live_record (rep t) = true ->
     alive t = true
     /\ (thread_blocked (rep t) = true -> stack_ptr (stop_info (rep t)) <> 0)) ->
  let records := map rep (threads w') in
  let live := List.filter live_record records in
  GC_push_all_stacks me approx_sp GC_stackbottom false print_stats [records]
  = (pushes me approx_sp GC_stackbottom live
       ++ (if print_stats =? VERBOSE
           then [EvLog "Pushed %d thread stacks" (Z.of_nat (length live))]
           else []),
     Ok tt).
Proof.
  intros Hq Hr Hls Hst Hsp Hme Hothers records live.
  destruct (round_reached me ls w w' Hq Hr Hls) as (_ & _ & Hoks & Hco).
  unfold coord_ok in Hco. rewrite Hst in Hco. destruct Hco as [_ HU].
  pose proof (GC_push_all_stacks_succeeds me approx_sp GC_stackbottom false
                print_stats [records]) as Hpush.
  cbv zeta in Hpush. cbn [concat] in Hpush. rewrite app_nil_r in Hpush.
  fold live in Hpush. apply Hpush; clear Hpush.
  - apply forallb_forall. intros p Hp.
    subst live. apply filter_In in Hp as [Hp Hlive].
    subst records. apply in_map_iff in Hp as (t & <- & Ht).
    apply list_elem_of_In, list_elem_of_lookup in Ht as [i Hi].
    unfold nonzero, range_lo. apply negb_true_iff, Z.eqb_neq.
    destruct (THREAD_EQUAL (id (rep t)) me) eqn:Eme; [done |].
    destruct (Hothers _ _ Hi Eme Hlive) as [Hal Hbl].
    destruct (thread_blocked (rep t)) eqn:Eb; [by apply Hbl |].
    pose proof (cnt_zero _ _ _ _ HU Hi) as Ht.
    unfold todo, eligible in Ht. unfold live_record in Hlive.
    rewrite Eme, Hlive, Eb, Hal in Ht. cbn in Ht.
    apply negb_false_iff in Ht.
    destruct (Hoks _ _ Hi) as (_ & _ & Hcap & _). by apply Hcap.
  - rewrite orb_false_r. apply existsb_exists.
    apply existsb_exists in Hme as (t & Ht & Hb).
    apply andb_prop in Hb as [Hid Hlive].
    exists (rep t). split; [| done].
    subst live. apply filter_In. split; [| done].
    subst records. by apply in_map.
Qed.

End Scan.

(** ** [GC_start_world] and the restart acknowledgment *)

Section Restart.
Context `{Platform}.

Lemma thread_step_restart_bits l j w w' :
  label_thread l = Some j -> step l w = Some w' ->
  exists t t',
    threads w !! j = Some t /\ threads w' !! j = Some t'
    /\ threads w' = <[j := t']> (threads w)
    /\ ((restart_pending t' = restart_pending t
         /\ GC_restart_ack_sem w' = GC_restart_ack_sem w)
        \/ (restart_pending t = true /\ restart_pending t' = false
            /\ GC_restart_ack_sem w'
               = GC_restart_ack_sem w
                 + (if GC_NETBSD_THREADS_WORKAROUND then 1 else 0)
            /\ rep t' = rep t
            /\ (pc t = User \/ exists e m, pc t = InSigsuspend e m)
            /\ (GC_world_is_stopped w = false -> pc t' = User))).
Proof.
  intros Hl Hs. destruct l; try discriminate Hl; cbn in Hl; simplify_eq.
  all: step_cases Hs.
  all: simpl_world.
  all: repeat match goal with
       | Hb : _ && _ = true |- _ => apply andb_prop in Hb as [? ?]
       end.
  all: try (exfalso; by destruct (sig =? SIG_SUSPEND)).
  all: try (do 2 eexists; (split; [first [eassumption | reflexivity] |]);
    (split; [apply list_lookup_insert_eq; by eapply lookup_lt_Some |]);
    (split; [reflexivity |]); simpl_world;
    first [ by left
          | right; repeat split; try done; try lia; eauto;
            intros Hf; congruence ]).
Qed.


Lemma restart_counts_thread_step l j w w' :
  GC_NETBSD_THREADS_WORKAROUND = true ->
  label_thread l = Some j -> step l w = Some w' ->
  restart_counts w -> restart_counts w'.
Proof.
  intros Hnb Hlab Hs Hrc.
  destruct (thread_label_step _ _ _ _ Hlab Hs)
    as (t0 & t0' & d & Hl0 & _ & _ & _ & Hc & _).
  destruct (thread_step_restart_bits _ _ _ _ Hlab Hs)
    as (t & t' & Hl & Hl' & Hths & Hbits).
  pose proof (cnt_insert restart_pending _ _ _ t' Hl) as Hcnt.
  pose proof (cnt_nonneg restart_pending (threads w)) as Hnn.
  assert (restart_pending t = true -> 0 < cnt restart_pending (threads w)) as Hpos.
  { intros Hp. destruct (decide (cnt restart_pending (threads w) = 0)) as [Hz |];
      [| lia].
    pose proof (cnt_zero _ _ _ _ Hz Hl). congruence. }
  assert (forall i, (forall k tk, (i <= k)%nat -> threads w !! k = Some tk ->
                       restart_pending tk = false) ->
                    restart_pending t' = false \/ restart_pending t' = restart_pending t ->
                    forall k tk, (i <= k)%nat -> threads w' !! k = Some tk ->
                      restart_pending tk = false) as Hrest.
  { intros i Hall Hp k tk Hik Hk. rewrite Hths in Hk.
    destruct (decide (j = k)) as [-> | Hne].
    - rewrite list_lookup_insert_eq in Hk by (by eapply lookup_lt_Some).
      simplify_eq. destruct Hp as [Hp | Hp]; [done |].
      rewrite Hp. by apply (Hall k).
    - rewrite list_lookup_insert_ne in Hk by done. by apply (Hall k). }
  unfold restart_counts in *. rewrite Hc, Hths, Hcnt. rewrite Hnb in Hbits.
  destruct (coord w) as [| | | | | | | i n | i n]; try done.
  - destruct Hrc as [Hsem HP].
    destruct Hbits as [(Hp & Hsr) | (Hp & Hp' & Hsr & _)].
    + rewrite Hp, Hsr. split; [done | lia].
    + specialize (Hpos Hp). lia.
  - destruct Hrc as (Hsum & Hsem & Hall).
    destruct Hbits as [(Hp & Hsr) | (Hp & Hp' & Hsr & _)].
    + rewrite Hp, Hsr. split; [lia |]. split; [done |].
      rewrite <- Hths. apply Hrest; [done | by right].
    + rewrite Hp, Hp', Hsr. cbn [Z.b2z]. split; [lia |]. split; [lia |].
      rewrite <- Hths. apply Hrest; [done | by left].
  - destruct Hrc as (Hsum & Hsem).
    destruct Hbits as [(Hp & Hsr) | (Hp & Hp' & Hsr & _)].
    + rewrite Hp, Hsr. split; [lia | done].
    + rewrite Hp, Hp', Hsr. cbn [Z.b2z]. split; lia.
Qed.

Lemma restart_counts_coord_step code err w w' :
  GC_NETBSD_THREADS_WORKAROUND = true ->
  step (Coord code err) w = Some w' ->
  restart_counts w -> restart_counts w'.
Proof.
  intros Hnb Hs Hrc.
  unfold step in Hs. destruct (aborted w) eqn:Hab; [done |].
  pose proof (cnt_nonneg restart_pending (threads w)) as Hnn.
  unfold restart_counts in Hrc.
  destruct (coord w) as [| | | | | | | i n | i n] eqn:Hc; try done;
    cbn [in_start_world] in Hs;
    unfold GC_start_world_step, GC_stop_world_step in Hs; rewrite Hc in Hs;
    try done.
  - destruct Hrc as (Hsum & Hsem & Hall).
    destruct (threads w !! i) as [t |] eqn:Hi.
    + pose proof (Hall i t (le_n _) Hi) as Hp.
      pose proof (cnt_insert restart_pending _ _ _ t Hi) as Hsame.
      pose proof (cnt_insert restart_pending _ _ _
                    (set_restart_pending t true) Hi) as Hset.
      rewrite Hp in Hsame, Hset. cbn [restart_pending set_restart_pending Z.b2z]
        in Hsame, Hset.
      assert (forall t', forall k tk, (S i <= k)%nat ->
                <[i := t']> (threads w) !! k = Some tk ->
                restart_pending tk = false) as Hrest.
      { intros t' k tk Hk Hlk.
        rewrite list_lookup_insert_ne in Hlk by lia.
        apply (Hall k); [lia | done]. }
      rewrite GC_start_world_body_eq in Hs.
      repeat case_match; simplify_eq; unfold restart_counts; simpl_world;
        rewrite ?Hc; try done.
      all: repeat match goal with
           | Hb : (_ =? _) = true |- _ => apply Z.eqb_eq in Hb
           | Hb : (_ =? _) = false |- _ => apply Z.eqb_neq in Hb
           end.
      all: cbn [kill_called andb] in *; try done; try congruence.
      all: rewrite ?Hsame, ?Hset.
      all: try (split; [lia |]; split; [lia |]; by apply Hrest).
      all: repeat match goal with
           | Hb : (_ =? _) = true |- _ => apply Z.eqb_eq in Hb
           end.
      all: pose proof ESRCH_nonzero; congruence.
    + simplify_eq. unfold restart_counts. simpl_world. rewrite Hnb.
      split; [lia | done].
  - destruct Hrc as (Hsum & Hsem).
    repeat case_match; simplify_eq; unfold restart_counts; simpl_world;
      rewrite ?Hc; try done.
    all: repeat match goal with
         | Hb : (_ <? _) = true |- _ => apply Z.ltb_lt in Hb
         | Hb : (_ <? _) = false |- _ => apply Z.ltb_ge in Hb
         end.
    all: split; lia.
Qed.


Lemma cnt_none f (l : list Thread) :
  (forall j t, l !! j = Some t -> f t = false) -> cnt f l = 0.
Proof.
  induction l as [| a l IH]; intros Hall; [done |].
  rewrite cnt_cons, (Hall 0%nat a eq_refl), IH; [done |].
  intros j t Hj. by apply (Hall (S j)).
Qed.

Lemma restart_counts_step l w w' :
  GC_NETBSD_THREADS_WORKAROUND = true ->
  step l w = Some w' -> is_call l = false ->
  restart_counts w -> restart_counts w'.
Proof.
  intros Hnb Hs Hl. destruct l as [? | | code err | j sig | j | j]; try done.
  - by apply restart_counts_coord_step with code err.
  - by apply restart_counts_thread_step with (Signal j sig) j.
  - by apply restart_counts_thread_step with (Next j) j.
  - by apply restart_counts_thread_step with (Exit j) j.
Qed.

Lemma restart_counts_begin w w1 :
  restart_quiet w -> step CallStartWorld w = Some w1 -> restart_counts w1.
Proof.
  intros [Hsem Hall] Hs. unfold step, GC_start_world_call in Hs.
  destruct (aborted w); [done |]. destruct (coord w); try done. simplify_eq.
  unfold restart_counts. simpl_world.
  rewrite (cnt_none _ _ Hall). split; [lia |]. split; [lia |].
  intros j t _ Hj. by apply (Hall j).
Qed.

(** X13.  In a build with [GC_NETBSD_THREADS_WORKAROUND], when
    [GC_start_world] returns every restart signal it delivered has been
    taken and its handler has run: called with no restart signal pending
    and [GC_restart_ack_sem] at 0, it leaves no restart signal pending
    and the semaphore at 0 again. *)
Theorem start_world_waits_for_restart_handlers ls w w' :
  GC_NETBSD_THREADS_WORKAROUND = true ->
  restart_quiet w ->
  run (CallStartWorld :: ls) w = Some w' ->
  forallb (fun l => negb (is_call l)) ls = true ->
  coord w' = Idle ->
  restart_quiet w'.
Proof.
  intros Hnb Hq Hr Hls Hidle. cbn [run] in Hr.
  destruct (step CallStartWorld w) as [w1 |] eqn:Hs; [| done].
  pose proof (restart_counts_begin w w1 Hq Hs) as Hrc.
  assert (restart_counts w') as Hfin.
  { clear Hs Hq. revert w1 Hr Hrc.
    induction ls as [| l ls IH]; intros w1 Hr Hrc; cbn [run] in Hr.
    - by simplify_eq.
    - destruct (step l w1) as [w2 |] eqn:Hs; [| done].
      cbn [forallb] in Hls. apply andb_prop in Hls as [Hl Hls].
      apply negb_true_iff in Hl.
      apply (IH Hls w2 Hr). by apply restart_counts_step with l w1. }
  unfold restart_counts in Hfin. rewrite Hidle in Hfin.
  destruct Hfin as [Hsem HP]. split; [done |].
  intros j t Hj. by apply (cnt_zero _ _ _ _ HP Hj).
Qed.

End Restart.

(** ** A whole cycle *)

Section Resume.
Context `{Platform}.











End Resume.

(** ** [GC_stop_world] runs to its return *)

Section Schedule.
Context `{Platform}.

Lemma exam_one me r w pre t rest n :
  aborted w = None -> coord w = InSuspendAll First (length pre) n ->
  threads w = pre ++ t :: rest ->
  GC_stop_count w = r -> collector w = me -> GC_suspend_ack_sem w = n ->
  last_stop_count (stop_info (rep t)) <> r -> suspend_pending t = false ->
  (eligible me (rep t) = true -> alive t = true -> pc t = User) ->
  exists w' t',
    run (exam_schedule me (length pre) t) w = Some w'
    /\ aborted w' = None
    /\ coord w'
       = InSuspendAll First (S (length pre)) (n + Z.b2z (responsive me t))
    /\ threads w' = pre ++ t' :: rest
    /\ GC_stop_count w' = r /\ collector w' = me
    /\ GC_suspend_ack_sem w' = n + Z.b2z (responsive me t)
    /\ GC_retry_signals w' = GC_retry_signals w
    /\ GC_world_is_stopped w' = GC_world_is_stopped w.
Proof.
  intros Hab Hc Hths Hcount Hcoll Hsem Hlsc Hsp Huser.
  assert (threads w !! length pre = Some t) as Hi.
  { rewrite Hths. by apply list_lookup_middle. }
  assert (forall x, <[length pre := x]> (threads w) = pre ++ x :: rest) as Hins.
  { intros x. rewrite Hths, insert_app_r_alt by lia.
    by rewrite Nat.sub_diag. }
  assert (suspend_target me r (rep t) = eligible me (rep t)) as Htarget.
  { unfold suspend_target, eligible. apply Z.eqb_neq in Hlsc. rewrite Hlsc.
    cbn [negb]. by rewrite andb_true_r. }
  assert (forall code,
            step (Coord code 0) w
            = match GC_suspend_all_body me r code (rep t) n with
              | (tr, Ok n') =>
                  if kill_called tr && (code =? ESRCH) && alive t then None
                  else Some (add_trace
                               (set_coord
                                  (set_thread w (length pre)
                                     (if kill_called tr && (code =? 0)
                                      then set_suspend_pending t true else t))
                                  (InSuspendAll First (S (length pre)) n')) tr)
              | (tr, Aborted msg) => Some (set_aborted (add_trace w tr) msg)
              end) as Hexam.
  { intros code. unfold step. rewrite Hab, Hc. cbn [in_start_world].
    unfold GC_stop_world_step. by rewrite Hc, Hi, Hcoll, Hcount. }
  unfold exam_schedule, responsive.
  destruct (eligible me (rep t)) eqn:Hel; [destruct (alive t) eqn:Hal |].
  - (* signalled, and the thread answers *)
    specialize (Huser eq_refl eq_refl).
    cbn [run]. rewrite Hexam, GC_suspend_all_body_eq, Htarget.
    assert ((0 =? ESRCH) = false) as Hz.
    { apply Z.eqb_neq. pose proof ESRCH_nonzero. lia. }
    rewrite Hz. cbn [Z.eqb kill_called andb].
    set (i := length pre) in *.
    (* the thread takes the signal *)
    unfold step at 1. simpl_world. rewrite Hab. unfold signal_step.
    simpl_world. rewrite list_lookup_insert_eq by (by eapply lookup_lt_Some).
    simpl_world. rewrite Hal, Huser. cbn [negb].
    rewrite Z.eqb_refl. cbn [andb].
    unfold GC_suspend_handler_enter. rewrite Z.eqb_refl. cbn [negb].
    simpl_world. rewrite Hcount.
    assert ((last_stop_count (stop_info (rep t)) =? r) = false) as Hne
      by (by apply Z.eqb_neq).
    rewrite Hne. unfold commit, ret. simpl_world.
    (* it posts *)
    unfold step at 1. simpl_world. rewrite Hab. unfold next_step.
    simpl_world.
    rewrite list_lookup_insert_eq
      by (rewrite ?length_insert; by eapply lookup_lt_Some).
    simpl_world. rewrite Hal. cbn [negb].
    unfold GC_suspend_handler_post. simpl_world.
    (* it stores its round *)
    unfold step at 1. simpl_world. rewrite Hab. unfold next_step.
    simpl_world.
    rewrite list_lookup_insert_eq
      by (rewrite ?length_insert; by eapply lookup_lt_Some).
    simpl_world. rewrite Hal. cbn [negb].
    unfold GC_suspend_handler_store. simpl_world.
    eexists. eexists. split; [reflexivity |]. simpl_world.
    rewrite !list_insert_insert_eq, Hins. cbn [Z.b2z andb].
    repeat split; try done; lia.
  - (* signalled, but the thread is gone *)
    cbn [run]. rewrite Hexam, GC_suspend_all_body_eq, Htarget.
    rewrite Z.eqb_refl. cbn [kill_called andb].
    assert ((ESRCH =? 0) = false) as Hz by (apply Z.eqb_neq, ESRCH_nonzero).
    rewrite Hz. eexists. exists t. split; [reflexivity |]. simpl_world.
    rewrite Hins, ?Z.add_0_r. cbn [Z.b2z andb].
    rewrite ?Z.add_0_r. repeat split; try done; lia.
  - (* not signalled *)
    cbn [run]. rewrite Hexam, GC_suspend_all_body_eq, Htarget.
    cbn [kill_called andb]. eexists. exists t. split; [reflexivity |]. simpl_world.
    rewrite Hins, ?Z.add_0_r. cbn [Z.b2z andb].
    rewrite ?Z.add_0_r. repeat split; try done; lia.
Qed.


Lemma broadcast_run me r (rest : list Thread) :
  forall pre w n,
    aborted w = None -> coord w = InSuspendAll First (length pre) n ->
    threads w = pre ++ rest ->
    GC_stop_count w = r -> collector w = me -> GC_suspend_ack_sem w = n ->
    (forall t, In t rest ->
       last_stop_count (stop_info (rep t)) <> r /\ suspend_pending t = false
       /\ (eligible me (rep t) = true -> alive t = true -> pc t = User)) ->
    exists w',
      run (broadcast_schedule me (length pre) rest) w = Some w'
      /\ aborted w' = None
      /\ coord w'
         = InSuspendAll First (length pre + length rest)
             (n + cnt (responsive me) rest)
      /\ length (threads w') = length (threads w)
      /\ GC_stop_count w' = r /\ collector w' = me
      /\ GC_suspend_ack_sem w' = n + cnt (responsive me) rest
      /\ GC_retry_signals w' = GC_retry_signals w
      /\ GC_world_is_stopped w' = GC_world_is_stopped w.
Proof.
  induction rest as [| t rest IH];
    intros pre w n Hab Hc Hths Hcount Hcoll Hsem Hall.
  - exists w. cbn [broadcast_schedule run length]. unfold cnt. cbn.
    rewrite Nat.add_0_r, Z.add_0_r. by repeat split.
  - destruct (Hall t (or_introl eq_refl)) as (Hlsc & Hsp & Huser).
    destruct (exam_one me r w pre t rest n Hab Hc Hths Hcount Hcoll Hsem
                Hlsc Hsp Huser)
      as (w1 & t' & Hr1 & Hab1 & Hc1 & Hths1 & Hcount1 & Hcoll1 & Hsem1 & Hretry1
          & Hflag1).
    destruct (IH (pre ++ [t']) w1 (n + Z.b2z (responsive me t))) as
      (w2 & Hr2 & Hab2 & Hc2 & Hlen2 & Hcount2 & Hcoll2 & Hsem2 & Hretry2
       & Hflag2);
      try done.
    + by rewrite length_app, Nat.add_1_r.
    + by rewrite <- app_assoc.
    + intros u Hu. apply Hall. by right.
    + exists w2. cbn [broadcast_schedule].
      rewrite run_app, Hr1.
      rewrite length_app, Nat.add_1_r in Hr2, Hc2.
      rewrite cnt_cons. cbn [length].
      split; [done |]. split; [done |].
      split; [rewrite Hc2; f_equal; lia |].
      split; [rewrite Hlen2, Hths1, Hths, !length_app; done |].
      repeat split; try done; try lia; congruence.
Qed.

Lemma sem_wait_run (k : nat) :
  forall w i n,
    aborted w = None -> coord w = InSemWait i n ->
    GC_suspend_ack_sem w = Z.of_nat k -> n - i = Z.of_nat k ->
    exists w',
      run (repeat (Coord 0 0) k ++ [Coord 0 0]) w = Some w'
      /\ coord w' = Stopped /\ aborted w' = None
      /\ GC_stop_count w' = GC_stop_count w
      /\ GC_world_is_stopped w' = GC_world_is_stopped w.
Proof.
  induction k as [| k IH]; intros w i n Hab Hc Hsem Hn.
  - cbn [repeat app run]. unfold step. rewrite Hab, Hc. cbn [in_start_world].
    unfold GC_stop_world_step. rewrite Hc.
    assert ((i <? n) = false) as -> by (apply Z.ltb_ge; lia).
    eexists. split; [reflexivity |]. simpl_world. by repeat split.
  - cbn [repeat app run]. unfold step at 1. rewrite Hab, Hc.
    cbn [in_start_world]. unfold GC_stop_world_step. rewrite Hc.
    assert ((i <? n) = true) as -> by (apply Z.ltb_lt; lia).
    assert ((0 <? GC_suspend_ack_sem w) = true) as -> by (apply Z.ltb_lt; lia).
    cbn [Z.eqb].
    destruct (IH (set_coord (set_suspend_ack_sem w (GC_suspend_ack_sem w - 1))
                    (InSemWait (i + 1) n)) (i + 1) n)
      as (w' & Hr & Hst & Hab' & Hcount & Hflag); simpl_world; try done; try lia.
    exists w'. by repeat split.
Qed.

(** X15.  [GC_stop_world] can always run to its return: called in a
    quiescent process in which every existing thread the round is about
    is running user code, it returns on the schedule on which each
    signalled thread answers at once, and it returns with the round
    counter advanced and the world-stopped flag set. *)
Theorem stop_world_completes me w :
  aborted w = None -> coord w = Idle ->
  quiescent (wrap (GC_stop_count w + 1)) w ->
  (forall j t, threads w !! j = Some t ->
     eligible me (rep t) = true -> alive t = true -> pc t = User) ->
  exists w',
    run (CallStopWorld me :: stop_world_schedule me w) w = Some w'
    /\ forallb (fun l => negb (is_call l)) (stop_world_schedule me w) = true
    /\ coord w' = Stopped /\ aborted w' = None
    /\ GC_stop_count w' = wrap (GC_stop_count w + 1)
    /\ GC_world_is_stopped w' = true.
Proof.
  intros Hab Hc [Hsem Hq] Huser.
  set (r := wrap (GC_stop_count w + 1)) in *.
  set (w1 := set_coord
               (set_world_is_stopped
                  (set_coord (set_stop_count (set_collector w me) r)
                     AtStoreStopped) true)
               (InSuspendAll First 0 0)).
  destruct (broadcast_run me r (threads w) [] w1 0)
    as (w2 & Hr2 & Hab2 & Hc2 & Hlen2 & Hcount2 & Hcoll2 & Hsem2 & Hretry2
        & Hflag2);
    try done.
  { intros t Ht. apply list_elem_of_In, list_elem_of_lookup in Ht as [j Hj].
    destruct (Hq _ _ Hj) as (_ & Hlsc & Hqt). unfold quiet in Hqt.
    split; [done |]. split; [by destruct (suspend_pending t) |].
    by apply (Huser j). }
  cbn [length Nat.add] in Hr2, Hc2. rewrite Z.add_0_l in Hc2, Hsem2.
  set (N := cnt (responsive me) (threads w)) in *.
  assert (threads w2 !! length (threads w) = None) as Hend.
  { apply lookup_ge_None. rewrite Hlen2. done. }
  assert (exists w3,
            run ([Coord 0 0] ++ (if GC_retry_signals w then [Coord 0 0] else []))
              w2 = Some w3
            /\ aborted w3 = None /\ coord w3 = InSemWait 0 N
            /\ GC_suspend_ack_sem w3 = N
            /\ GC_stop_count w3 = r /\ GC_world_is_stopped w3 = GC_world_is_stopped w2)
    as (w3 & Hr3 & Hab3 & Hc3 & Hsem3 & Hcount3 & Hflag3).
  { cbn [app run]. unfold step at 1. rewrite Hab2, Hc2. cbn [in_start_world].
    unfold GC_stop_world_step. rewrite Hc2, Hend, Hretry2.
    change (GC_retry_signals w1) with (GC_retry_signals w).
    destruct (GC_retry_signals w).
    - cbn [run]. unfold step. simpl_world. rewrite Hab2. cbn [in_start_world].
      unfold GC_stop_world_step. simpl_world. rewrite Hsem2, Z.eqb_refl.
      eexists. split; [reflexivity |]. simpl_world. by repeat split.
    - cbn [run]. eexists. split; [reflexivity |]. simpl_world. by repeat split. }
  destruct (sem_wait_run (length (List.filter (responsive me) (threads w)))
              w3 0 N Hab3 Hc3)
    as (w4 & Hr4 & Hst4 & Hab4 & Hcount4 & Hflag4).
  { by rewrite Hsem3. }
  { unfold N, cnt. lia. }
  exists w4. split; [| split].
  - assert (CallStopWorld me :: stop_world_schedule me w
            = [CallStopWorld me; Coord 0 0]
              ++ broadcast_schedule me 0 (threads w)
              ++ ([Coord 0 0] ++ (if GC_retry_signals w then [Coord 0 0] else []))
              ++ repeat (Coord 0 0)
                   (length (List.filter (responsive me) (threads w)))
              ++ [Coord 0 0]) as ->.
    { unfold stop_world_schedule. cbn [app]. reflexivity. }
    assert (run [CallStopWorld me; Coord 0 0] w = Some w1) as Hr1.
    { cbn [run]. unfold step at 1. rewrite Hab. unfold GC_stop_world_call.
      rewrite Hc. unfold step. simpl_world. rewrite Hab. cbn [in_start_world].
      unfold GC_stop_world_step. simpl_world. reflexivity. }
    rewrite run_app, Hr1, run_app, Hr2, run_app, Hr3. exact Hr4.
  - unfold stop_world_schedule.
    rewrite !forallb_app. cbn [forallb is_call negb andb].
    assert (forall i ths,
              forallb (fun l => negb (is_call l)) (broadcast_schedule me i ths)
              = true) as Hb.
    { intros i ths. revert i. induction ths as [| t ths IH]; intros i; [done |].
      cbn [broadcast_schedule]. rewrite forallb_app, IH, andb_true_r.
      unfold exam_schedule. by destruct (eligible me (rep t)), (alive t). }
    rewrite Hb. cbn [andb].
    assert (forall k, forallb (fun l => negb (is_call l)) (repeat (Coord 0 0) k)
                      = true) as Hrep.
    { induction k as [| k IH]; [done |]. cbn [repeat forallb]. by rewrite IH. }
    rewrite Hrep. by destruct (GC_retry_signals w).
  - repeat split; try done; try congruence.
    by rewrite Hflag4, Hflag3, Hflag2.
Qed.

End Schedule.

(** ** [GC_start_world] runs to its return *)

Section RestartSchedule.
Context `{Platform}.

Ltac handler_next :=
  lazymatch goal with
  | Hab : aborted _ = None, Hal : alive _ = true |- _ =>
      cbn [run]; unfold step at 1; simpl_world; rewrite Hab; unfold next_step;
      simpl_world;
      rewrite list_lookup_insert_eq
        by (rewrite ?length_insert; by eapply lookup_lt_Some);
      simpl_world; rewrite ?Hal; cbn [negb];
      repeat match goal with
             | Hp : pc ?t = _ |- context [pc ?t] => rewrite Hp
             end
  end.

Lemma restart_one me w pre t rest n :
  aborted w = None -> coord w = InRestartAll (length pre) n ->
  threads w = pre ++ t :: rest ->
  collector w = me -> GC_world_is_stopped w = false ->
  suspend_handler_mask w SIG_THR_RESTART = false ->
  restart_pending t = false ->
  exists w' t',
    run (restart_exam_schedule me (length pre) t) w = Some w'
    /\ aborted w' = None
    /\ coord w' = InRestartAll (S (length pre)) (n + Z.b2z (responsive me t))
    /\ threads w' = pre ++ t' :: rest
    /\ collector w' = me /\ GC_world_is_stopped w' = false
    /\ suspend_handler_mask w' = suspend_handler_mask w
    /\ GC_restart_ack_sem w' = GC_restart_ack_sem w + restart_posts me t
    /\ (responsive me t = true -> pc t' = User).
Proof.
  intros Hab Hc Hths Hcoll Hflag Hmask Hrp.
  assert (threads w !! length pre = Some t) as Hi.
  { rewrite Hths. by apply list_lookup_middle. }
  assert (forall x, <[length pre := x]> (threads w) = pre ++ x :: rest) as Hins.
  { intros x. rewrite Hths, insert_app_r_alt by lia.
    by rewrite Nat.sub_diag. }
  assert (forall code,
            step (Coord code 0) w
            = match GC_start_world_body me code (rep t) n with
              | (tr, Ok n') =>
                  if kill_called tr && (code =? ESRCH) && alive t then None
                  else Some (add_trace
                               (set_coord
                                  (set_thread w (length pre)
                                     (if kill_called tr && (code =? 0)
                                      then set_restart_pending t true else t))
                                  (InRestartAll (S (length pre)) n')) tr)
              | (tr, Aborted msg) => Some (set_aborted (add_trace w tr) msg)
              end) as Hexam.
  { intros code. unfold step. rewrite Hab, Hc. cbn [in_start_world].
    unfold GC_start_world_step. by rewrite Hc, Hi, Hcoll. }
  assert ((0 =? ESRCH) = false) as Hz.
  { apply Z.eqb_neq. pose proof ESRCH_nonzero. lia. }
  assert ((ESRCH =? 0) = false) as Hz' by (apply Z.eqb_neq, ESRCH_nonzero).
  assert ((SIG_THR_RESTART =? SIG_SUSPEND) = false) as Hrs
    by apply restart_is_not_suspend.
  unfold restart_exam_schedule, restart_posts, responsive.
  set (i := length pre) in *.
  destruct (eligible me (rep t)) eqn:Hel; [destruct (alive t) eqn:Hal |].
  - cbn [run]. rewrite Hexam, GC_start_world_body_eq.
    fold (eligible me (rep t)). rewrite Hel, Hz. cbn [Z.eqb kill_called andb].
    unfold restart_answer.
    destruct (pc t) as [| e m | e m | e m | e m] eqn:Hpc.
    + (* in user code *)
      cbn [run]; unfold step at 1; simpl_world; rewrite Hab; unfold signal_step;
      simpl_world;
      rewrite list_lookup_insert_eq
        by (rewrite ?length_insert; by eapply lookup_lt_Some);
      simpl_world; rewrite ?Hal, ?Hpc; cbn [negb];
      rewrite Hrs; cbn [andb]; rewrite Z.eqb_refl; cbn [andb];
      unfold GC_restart_handler, commit, ret; rewrite Z.eqb_refl; cbn [negb];
      destruct GC_NETBSD_THREADS_WORKAROUND;
      eexists; eexists; (split; [reflexivity |]); simpl_world;
      rewrite !list_insert_insert_eq, Hins; cbn [Z.b2z andb];
      repeat split; try done; lia.
    + (* before its post *)
      handler_next. unfold GC_suspend_handler_post. simpl_world.
      handler_next. unfold GC_suspend_handler_store. simpl_world.
      cbn [run]; unfold step at 1; simpl_world; rewrite Hab; unfold signal_step;
      simpl_world;
      rewrite list_lookup_insert_eq
        by (rewrite ?length_insert; by eapply lookup_lt_Some);
      simpl_world; rewrite ?Hal, ?Hpc; cbn [negb];
      rewrite Hmask, Hrs; cbn [orb]; rewrite Z.eqb_refl;
      unfold GC_restart_handler, commit, ret; rewrite Z.eqb_refl; cbn [negb];
      unfold GC_suspend_handler_wake;
      destruct GC_NETBSD_THREADS_WORKAROUND; simpl_world; rewrite Hflag;
      eexists; eexists; (split; [reflexivity |]); simpl_world;
      rewrite !list_insert_insert_eq, Hins; cbn [Z.b2z andb];
      repeat split; try done; lia.
    + (* before its store *)
      handler_next. unfold GC_suspend_handler_store. simpl_world.
      cbn [run]; unfold step at 1; simpl_world; rewrite Hab; unfold signal_step;
      simpl_world;
      rewrite list_lookup_insert_eq
        by (rewrite ?length_insert; by eapply lookup_lt_Some);
      simpl_world; rewrite ?Hal, ?Hpc; cbn [negb];
      rewrite Hmask, Hrs; cbn [orb]; rewrite Z.eqb_refl;
      unfold GC_restart_handler, commit, ret; rewrite Z.eqb_refl; cbn [negb];
      unfold GC_suspend_handler_wake;
      destruct GC_NETBSD_THREADS_WORKAROUND; simpl_world; rewrite Hflag;
      eexists; eexists; (split; [reflexivity |]); simpl_world;
      rewrite !list_insert_insert_eq, Hins; cbn [Z.b2z andb];
      repeat split; try done; lia.
    + (* in sigsuspend *)
      cbn [run]; unfold step at 1; simpl_world; rewrite Hab; unfold signal_step;
      simpl_world;
      rewrite list_lookup_insert_eq
        by (rewrite ?length_insert; by eapply lookup_lt_Some);
      simpl_world; rewrite ?Hal, ?Hpc; cbn [negb];
      rewrite Hmask, Hrs; cbn [orb]; rewrite Z.eqb_refl;
      unfold GC_restart_handler, commit, ret; rewrite Z.eqb_refl; cbn [negb];
      unfold GC_suspend_handler_wake;
      destruct GC_NETBSD_THREADS_WORKAROUND; simpl_world; rewrite Hflag;
      eexists; eexists; (split; [reflexivity |]); simpl_world;
      rewrite !list_insert_insert_eq, Hins; cbn [Z.b2z andb];
      repeat split; try done; lia.
    + (* at the second operand of the loop condition *)
      handler_next. unfold GC_suspend_handler_recheck. simpl_world.
      destruct (GC_stop_count w =? m); simpl_world.
      * cbn [run]; unfold step at 1; simpl_world; rewrite Hab; unfold signal_step;
      simpl_world;
      rewrite list_lookup_insert_eq
        by (rewrite ?length_insert; by eapply lookup_lt_Some);
      simpl_world; rewrite ?Hal, ?Hpc; cbn [negb];
      rewrite Hmask, Hrs; cbn [orb]; rewrite Z.eqb_refl;
      unfold GC_restart_handler, commit, ret; rewrite Z.eqb_refl; cbn [negb];
      unfold GC_suspend_handler_wake;
      destruct GC_NETBSD_THREADS_WORKAROUND; simpl_world; rewrite Hflag;
      eexists; eexists; (split; [reflexivity |]); simpl_world;
      rewrite !list_insert_insert_eq, Hins; cbn [Z.b2z andb];
      repeat split; try done; lia.
      * cbn [run]; unfold step at 1; simpl_world; rewrite Hab; unfold signal_step;
      simpl_world;
      rewrite list_lookup_insert_eq
        by (rewrite ?length_insert; by eapply lookup_lt_Some);
      simpl_world; rewrite ?Hal, ?Hpc; cbn [negb];
      rewrite Hrs; cbn [andb]; rewrite Z.eqb_refl; cbn [andb];
      unfold GC_restart_handler, commit, ret; rewrite Z.eqb_refl; cbn [negb];
      destruct GC_NETBSD_THREADS_WORKAROUND;
      eexists; eexists; (split; [reflexivity |]); simpl_world;
      rewrite !list_insert_insert_eq, Hins; cbn [Z.b2z andb];
      repeat split; try done; lia.
  - cbn [run]. rewrite Hexam, GC_start_world_body_eq.
    fold (eligible me (rep t)). rewrite Hel, Z.eqb_refl, Hz'.
    cbn [kill_called andb].
    eexists. exists t. split; [reflexivity |]. simpl_world.
    rewrite Hins. cbn [Z.b2z andb]. rewrite ?Z.add_0_r.
    destruct GC_NETBSD_THREADS_WORKAROUND; rewrite ?Z.add_0_r;
      repeat split; try done.
  - cbn [run]. rewrite Hexam, GC_start_world_body_eq.
    fold (eligible me (rep t)). rewrite Hel.
    cbn [kill_called andb].
    eexists. exists t. split; [reflexivity |]. simpl_world.
    rewrite Hins. cbn [Z.b2z andb]. rewrite ?Z.add_0_r.
    destruct GC_NETBSD_THREADS_WORKAROUND; rewrite ?Z.add_0_r;
      repeat split; try done.
Qed.


Lemma restart_run me (rest : list Thread) :
  forall pre w n,
    aborted w = None -> coord w = InRestartAll (length pre) n ->
    threads w = pre ++ rest ->
    collector w = me -> GC_world_is_stopped w = false ->
    suspend_handler_mask w SIG_THR_RESTART = false ->
    (forall t, In t rest -> restart_pending t = false) ->
    exists w',
      run (restart_schedule me (length pre) rest) w = Some w'
      /\ aborted w' = None
      /\ coord w'
         = InRestartAll (length pre + length rest)
             (n + cnt (responsive me) rest)
      /\ length (threads w') = length (threads w)
      /\ GC_world_is_stopped w' = false
      /\ GC_restart_ack_sem w'
         = GC_restart_ack_sem w
           + (if GC_NETBSD_THREADS_WORKAROUND
              then cnt (responsive me) rest else 0).
Proof.
  induction rest as [| t rest IH];
    intros pre w n Hab Hc Hths Hcoll Hflag Hmask Hall.
  - exists w. cbn [restart_schedule run length]. unfold cnt. cbn.
    rewrite Nat.add_0_r, Z.add_0_r.
    destruct GC_NETBSD_THREADS_WORKAROUND; rewrite ?Z.add_0_r; by repeat split.
  - pose proof (Hall t (or_introl eq_refl)) as Hrp.
    destruct (restart_one me w pre t rest n Hab Hc Hths Hcoll Hflag Hmask Hrp)
      as (w1 & t' & Hr1 & Hab1 & Hc1 & Hths1 & Hcoll1 & Hflag1 & Hmask1 & Hsem1
          & _).
    destruct (IH (pre ++ [t']) w1 (n + Z.b2z (responsive me t))) as
      (w2 & Hr2 & Hab2 & Hc2 & Hlen2 & Hflag2 & Hsem2); try done.
    + by rewrite length_app, Nat.add_1_r.
    + by rewrite <- app_assoc.
    + by rewrite Hmask1.
    + intros u Hu. apply Hall. by right.
    + exists w2. cbn [restart_schedule].
      rewrite run_app, Hr1.
      rewrite length_app, Nat.add_1_r in Hr2, Hc2.
      rewrite cnt_cons. cbn [length].
      split; [done |]. split; [done |].
      split; [rewrite Hc2; f_equal; lia |].
      split; [rewrite Hlen2, Hths1, Hths, !length_app; done |].
      split; [done |].
      rewrite Hsem2, Hsem1. unfold restart_posts.
      destruct GC_NETBSD_THREADS_WORKAROUND; lia.
Qed.

Lemma restart_wait_run (k : nat) :
  forall w i n,
    aborted w = None -> coord w = InRestartWait i n ->
    GC_restart_ack_sem w = Z.of_nat k -> n - i = Z.of_nat k ->
    exists w',
      run (repeat (Coord 0 0) k ++ [Coord 0 0]) w = Some w'
      /\ coord w' = Idle /\ aborted w' = None
      /\ GC_world_is_stopped w' = GC_world_is_stopped w.
Proof.
  induction k as [| k IH]; intros w i n Hab Hc Hsem Hn.
  - cbn [repeat app run]. unfold step. rewrite Hab, Hc. cbn [in_start_world].
    unfold GC_start_world_step. rewrite Hc.
    assert ((i <? n) = false) as -> by (apply Z.ltb_ge; lia).
    eexists. split; [reflexivity |]. simpl_world. by repeat split.
  - cbn [repeat app run]. unfold step at 1. rewrite Hab, Hc.
    cbn [in_start_world]. unfold GC_start_world_step. rewrite Hc.
    assert ((i <? n) = true) as -> by (apply Z.ltb_lt; lia).
    assert ((0 <? GC_restart_ack_sem w) = true) as -> by (apply Z.ltb_lt; lia).
    cbn [Z.eqb].
    destruct (IH (set_coord (set_restart_ack_sem w (GC_restart_ack_sem w - 1))
                    (InRestartWait (i + 1) n)) (i + 1) n)
      as (w' & Hr & Hst & Hab' & Hflag); simpl_world; try done; try lia.
    exists w'. by repeat split.
Qed.

(** X16.  [GC_start_world] can always run to its return: called in a
    stopped world with no restart signal about and [SIG_THR_RESTART]
    outside [suspend_handler_mask], it returns on the schedule on which
    each signalled thread takes its restart signal, wherever in the
    handler it is, and it returns with the world-stopped flag false. *)
Theorem start_world_completes w :
  aborted w = None -> coord w = Stopped -> restart_quiet w ->
  suspend_handler_mask w SIG_THR_RESTART = false ->
  exists w',
    run (CallStartWorld :: start_world_schedule w) w = Some w'
    /\ forallb (fun l => negb (is_call l)) (start_world_schedule w) = true
    /\ coord w' = Idle /\ aborted w' = None
    /\ GC_world_is_stopped w' = false.
Proof.
  intros Hab Hc [Hsem Hq] Hmask.
  set (me := collector w).
  set (w1 := set_coord (set_world_is_stopped w false) (InRestartAll 0 0)).
  destruct (restart_run me (threads w) [] w1 0)
    as (w2 & Hr2 & Hab2 & Hc2 & Hlen2 & Hflag2 & Hsem2); try done.
  { intros t Ht. apply list_elem_of_In, list_elem_of_lookup in Ht as [j Hj].
    by apply (Hq j). }
  cbn [length Nat.add] in Hr2, Hc2. rewrite Z.add_0_l in Hc2.
  change (GC_restart_ack_sem w1) with (GC_restart_ack_sem w) in Hsem2.
  rewrite Hsem, Z.add_0_l in Hsem2.
  set (N := cnt (responsive me) (threads w)) in *.
  assert (threads w2 !! length (threads w) = None) as Hend.
  { apply lookup_ge_None. rewrite Hlen2. done. }
  assert (exists w3,
            run ([Coord 0 0]
                 ++ (if GC_NETBSD_THREADS_WORKAROUND
                     then repeat (Coord 0 0)
                            (length (List.filter (responsive me) (threads w)))
                          ++ [Coord 0 0]
                     else [])) w2 = Some w3
            /\ coord w3 = Idle /\ aborted w3 = None
            /\ GC_world_is_stopped w3 = false)
    as (w3 & Hr3 & Hc3 & Hab3 & Hflag3).
  { cbn [app run]. unfold step at 1. rewrite Hab2, Hc2. cbn [in_start_world].
    unfold GC_start_world_step. rewrite Hc2, Hend.
    destruct GC_NETBSD_THREADS_WORKAROUND.
    - destruct (restart_wait_run
                  (length (List.filter (responsive me) (threads w)))
                  (set_coord w2 (InRestartWait 0 N)) 0 N)
        as (w3 & Hr3 & Hc3 & Hab3 & Hflag3); simpl_world; try done.
      { unfold N, cnt. lia. }
      exists w3. split; [exact Hr3 |]. split; [done |]. split; [done |].
      by rewrite Hflag3.
    - cbn [run]. eexists. split; [reflexivity |]. simpl_world. by repeat split. }
  exists w3. split; [| split].
  - assert (CallStartWorld :: start_world_schedule w
            = [CallStartWorld]
              ++ restart_schedule me 0 (threads w)
              ++ [Coord 0 0]
                 ++ (if GC_NETBSD_THREADS_WORKAROUND
                     then repeat (Coord 0 0)
                            (length (List.filter (responsive me) (threads w)))
                          ++ [Coord 0 0]
                     else [])) as -> by reflexivity.
    assert (run [CallStartWorld] w = Some w1) as Hr1.
    { cbn [run]. unfold step. rewrite Hab. unfold GC_start_world_call.
      by rewrite Hc. }
    rewrite run_app, Hr1, run_app, Hr2. exact Hr3.
  - unfold start_world_schedule. fold me.
    rewrite !forallb_app. cbn [forallb is_call negb andb].
    assert (forall i ths,
              forallb (fun l => negb (is_call l)) (restart_schedule me i ths)
              = true) as Hb.
    { intros i ths. revert i. induction ths as [| t ths IH]; intros i; [done |].
      cbn [restart_schedule]. rewrite forallb_app, IH, andb_true_r.
      unfold restart_exam_schedule, restart_answer.
      by destruct (eligible me (rep t)), (alive t), (pc t). }
    rewrite Hb. cbn [andb].
    assert (forall k, forallb (fun l => negb (is_call l)) (repeat (Coord 0 0) k)
                      = true) as Hrep.
    { induction k as [| k IH]; [done |]. cbn [repeat forallb]. by rewrite IH. }
    destruct GC_NETBSD_THREADS_WORKAROUND; [| done].
    rewrite forallb_app, Hrep. done.
  - by repeat split.
Qed.

End RestartSchedule.

(** ** No thread is left parked *)

Section NoLostWakeup.
Context `{Platform}.


End NoLostWakeup.

(** ** The next round *)

Section Again.
Context `{Platform}.

(** Instantiate a [Forall] over the table at every thread looked up. *)
Ltac use_lookup Hall :=
  repeat match goal with
  | Hl : threads _ !! _ = Some _ |- _ =>
      let P := fresh "Hfa" in
      pose proof (Forall_lookup_1 _ _ _ _ Hall Hl) as P; cbv beta in P;
      let T := type of P in
      lazymatch goal with
      | H1 : T, H2 : T |- _ => fail
      | _ => idtac
      end
  end.

Lemma step_fresh x l w w' :
  step l w = Some w' -> GC_stop_count w <> x ->
  Forall (fun t => carries x t = false) (threads w) ->
  Forall (fun t => carries x t = false) (threads w').
Proof.
  intros Hs Hx Hall. step_cases Hs.
  all: simpl_world; try assumption.
  all: apply Forall_insert; try assumption.
  all: use_lookup Hall; cbv beta in *.
  all: unfold carries in *; simpl_world.
  all: cbn [store_stack_ptr store_last_stop_count stop_info last_stop_count]
         in *.
  all: try assumption.
  all: unfold GC_suspend_handler_wake, GC_suspend_handler_recheck; simpl_world.
  all: repeat match goal with
       | Hp : pc ?t = _ |- _ => rewrite Hp in *
       end.
  all: repeat match goal with
       | |- context [if ?b then _ else _] => destruct b eqn:?
       end; simpl_world.
  all: repeat match goal with
       | Hb : _ || _ = false |- _ => apply orb_false_iff in Hb as [? ?]
       end.
  all: repeat match goal with
       | Hb : (_ =? _) = true |- _ => apply Z.eqb_eq in Hb
       | Hb : (_ =? _) = false |- _ => apply Z.eqb_neq in Hb
       end.
  all: try (apply orb_false_iff; split; apply Z.eqb_neq; congruence).
  all: try (rewrite orb_false_r; apply Z.eqb_neq; congruence).
Qed.


Lemma calm_step l w w' :
  step l w = Some w' -> enters_stop_world l = false ->
  between_rounds (coord w) = true ->
  calm w -> calm w' /\ between_rounds (coord w') = true.
Proof.
  intros Hs Hl Hbr [Hsem Hall]. unfold calm. step_cases Hs.
  all: simpl_world; cbn [enters_stop_world] in *; try done.
  all: repeat match goal with
       | Hc : coord _ = _ |- _ => rewrite Hc in *
       end; cbn [between_rounds in_start_world] in *; try done.
  all: split; [split |]; try done.
  all: try assumption.
  all: try (apply Forall_insert; try assumption).
  all: use_lookup Hall; cbv beta in *.
  all: simpl_world;
    cbn [store_stack_ptr store_last_stop_count stop_info last_stop_count] in *.
  all: unfold GC_suspend_handler_wake, GC_suspend_handler_recheck; simpl_world.
  all: repeat match goal with
       | Hb : negb (alive ?t) = false |- _ =>
           apply negb_false_iff in Hb
       | Hb : _ && _ = true |- _ => apply andb_prop in Hb as [? ?]
       end.
  all: repeat match goal with
       | Ha : alive ?t = true, Hf : _ /\ (alive ?t = true -> _) |- _ =>
           destruct Hf as [? Hf]; destruct (Hf Ha); clear Hf
       end.
  all: repeat match goal with
       | Hp : pc ?t = _ |- _ => rewrite Hp in *
       end; cbn [at_sem_post] in *.
  all: try congruence.
  all: repeat match goal with
       | |- context [if ?b then _ else _] => destruct b eqn:?
       end; simpl_world; cbn [at_sem_post].
  all: try (split; [assumption | intros; split; (assumption || reflexivity)]).
  all: try tauto.
Qed.


Lemma pending_inv_step me r l w w' :
  step l w = Some w' -> is_call l = false ->
  round_inv me r w -> pending_inv r w -> pending_inv r w'.
Proof.
  intros Hs Hl (Hcount & Hcoll & Hoks & Hco) (Hretry & Hloop & Hall).
  unfold pending_inv, coord_ok in *. step_cases Hs.
  all: simpl_world; cbn [is_call] in *; try done.
  all: repeat match goal with
       | Hc : coord _ = _ |- _ => rewrite Hc in *
       end; cbn [in_retry_loop in_start_world] in *; try done.
  all: rewrite ?Hretry.
  all: split; [done |]; split; [try done |].
  all: try assumption.
  all: try (apply Forall_insert; try assumption).
  all: use_lookup Hall; cbv beta in *.
  all: simpl_world;
    cbn [store_stack_ptr store_last_stop_count stop_info last_stop_count] in *.
  all: unfold GC_suspend_handler_wake, GC_suspend_handler_recheck; simpl_world.
  all: try done.
  all: unfold GC_suspend_handler_store; simpl_world.
  all: intros Hp Ha.
  all: try match goal with
       | Hf : suspend_pending ?t = true -> alive ?t = true -> _ |- _ =>
           destruct (Hf Hp Ha); clear Hf
       end.
  all: unfold acked in *; simpl_world.
  all: repeat match goal with
       | Hpc : pc ?t = _ |- _ => rewrite Hpc in *
       end; cbn [at_sem_post] in *.
  all: try done.
  all: try match goal with
       | Hq : match ?b with First => _ | Resend _ => _ end |- _ =>
           destruct b; [| done];
           destruct Hq as (_ & _ & _ & Hq);
           match goal with
           | Hi : threads _ !! ?i = Some ?t |- _ =>
               specialize (Hq i t (le_n _) Hi); unfold quiet, acked in Hq;
               destruct (suspend_pending t), (at_sem_post (pc t));
               cbn [negb andb] in Hq; try done;
               by apply negb_true_iff in Hq
           end
       end.
  all: destruct Hco as (_ & _ & _ & Hq).
  all: match goal with
       | Hi : threads _ !! ?i = Some ?t |- _ =>
           specialize (Hq i t (le_n _) Hi); unfold quiet, acked in Hq;
           destruct (suspend_pending t), (at_sem_post (pc t));
           cbn [negb andb] in Hq; try done;
           by apply negb_true_iff in Hq
       end.
Qed.


Lemma wrap_succ_ne v : wrap (wrap v + 1) <> wrap v.
Proof.
  pose proof (wrap_range v) as Hr. unfold wrap in *.
  pose proof word_bits_pos as Hb.
  assert (1 < 2 ^ word_bits) as HM by (apply Z.pow_gt_1; lia).
  set (M := 2 ^ word_bits) in *. set (r := v mod M) in *.
  destruct (decide (r + 1 < M)) as [Hlt | Hge].
  - rewrite Z.mod_small by lia. lia.
  - assert (r + 1 = M) as -> by lia. rewrite Z.mod_same by lia. lia.
Qed.

(** X18.  In default mode a whole cycle leaves the process ready for the
    next round: when [GC_stop_world] was called in a quiescent process
    and has returned, then from the call of [GC_start_world] on the
    process is quiescent again for the round after, provided no thread
    carries that round's number already (the counter has not wrapped
    onto it) and no thread ceased to exist with a suspend signal pending
    or before its post. *)
Theorem cycle_leaves_process_quiescent me ls1 ls2 w w1 w2 :
  GC_retry_signals w = false ->
  quiescent (wrap (GC_stop_count w + 1)) w ->
  (forall j t, threads w !! j = Some t ->
     carries (wrap (wrap (GC_stop_count w + 1) + 1)) t = false) ->
  run (CallStopWorld me :: ls1) w = Some w1 ->
  forallb (fun l => negb (is_call l)) ls1 = true ->
  coord w1 = Stopped ->
  run (CallStartWorld :: ls2) w1 = Some w2 ->
  forallb (fun l => negb (is_call l)) ls2 = true ->
  (forall j t, threads w2 !! j = Some t -> alive t = false ->
     suspend_pending t = false /\ at_sem_post (pc t) = false) ->
  GC_stop_count w2 = wrap (GC_stop_count w + 1)
  /\ quiescent (wrap (GC_stop_count w2 + 1)) w2.
Proof.
  intros Hretry Hq Hfresh Hr1 Hls1 Hst Hr2 Hls2 Hdead.
  set (r := wrap (GC_stop_count w + 1)) in *.
  set (r' := wrap (r + 1)) in *.
  assert (r <> r') as Hrr.
  { intros E. symmetry in E. by apply wrap_succ_ne in E. }
  (* the round *)
  assert (round_inv me r w1 /\ GC_suspend_ack_sem w1 = 0
          /\ pending_inv r w1
          /\ Forall (fun t => carries r' t = false) (threads w1))
    as (Hinv1 & Hsem1 & Hpend1 & Hfresh1).
  { cbn [run] in Hr1.
    destruct (step (CallStopWorld me) w) as [wa |] eqn:Hs; [| done].
    pose proof (round_inv_begin me w wa Hq Hs) as Hinv. fold r in Hinv.
    assert ((coord wa = Stopped -> GC_suspend_ack_sem wa = 0)
            /\ pending_inv r wa
            /\ Forall (fun t => carries r' t = false) (threads wa))
      as (Hd & Hpend & Hfr).
    { destruct Hq as [_ Hq].
      unfold step, GC_stop_world_call in Hs.
      destruct (aborted w); [done |]. destruct (coord w); try done.
      simplify_eq. unfold pending_inv. simpl_world.
      split; [done |]. split.
      - split; [done |]. split; [done |].
        apply Forall_lookup. intros j t Hj Hp.
        destruct (Hq _ _ Hj) as (_ & _ & Hqt). unfold quiet in Hqt.
        by rewrite Hp in Hqt.
      - apply Forall_lookup. intros j t Hj. by apply (Hfresh j). }
    clear Hs Hq Hfresh. revert wa Hr1 Hinv Hd Hpend Hfr.
    induction ls1 as [| l ls IH]; intros wa Hr Hinv Hd Hpend Hfr;
      cbn [run] in Hr.
    - simplify_eq. split; [done |]. split; [by apply Hd | done].
    - destruct (step l wa) as [wb |] eqn:Hs; [| done].
      cbn [forallb] in Hls1. apply andb_prop in Hls1 as [Hl Hls].
      apply negb_true_iff in Hl.
      apply (IH Hls wb Hr).
      + by apply round_inv_step with l wa.
      + by apply round_drained_step with me r l wa.
      + by apply pending_inv_step with me l wa.
      + apply step_fresh with l wa; try done.
        destruct Hinv as (Hc & _). congruence. }
  (* the world is calm when [GC_stop_world] returns *)
  assert (calm w1) as Hcalm1.
  { split; [done |]. apply Forall_lookup. intros j t Hj.
    destruct Hinv1 as (_ & _ & Hoks & Hco).
    unfold coord_ok in Hco. rewrite Hst in Hco. destruct Hco as [_ HU].
    destruct (Hoks _ _ Hj) as (Hf & _ & _ & _ & Hel & _).
    split; [done |]. intros Hal.
    pose proof (cnt_zero _ _ _ _ HU Hj) as Ht. unfold todo in Ht.
    destruct Hpend1 as (_ & _ & Hp).
    pose proof (Forall_lookup_1 _ _ _ _ Hp Hj) as Hpt. cbv beta in Hpt.
    rewrite Hal in Ht.
    destruct (suspend_pending t) eqn:Esp.
    - destruct (Hpt eq_refl Hal) as [_ Ha].
      rewrite Hel, Ha in Ht by (by left). done.
    - split; [done |].
      destruct (at_sem_post (pc t)) eqn:Eap; [| done].
      rewrite Hel in Ht by (by right).
      unfold acked in Ht. destruct (pc t); done. }
  (* from the call of [GC_start_world] on *)
  assert (GC_stop_count w1 = r) as Hcount1 by (by destruct Hinv1).
  assert (calm w2 /\ GC_stop_count w2 = r
          /\ Forall (fun t => carries r' t = false) (threads w2))
    as (Hcalm2 & Hcount2 & Hfresh2).
  { assert (forallb (fun l => negb (enters_stop_world l)) (CallStartWorld :: ls2)
            = true) as Hls.
    { cbn [forallb enters_stop_world negb andb].
      clear -Hls2. induction ls2 as [| l ls IH]; [done |].
      cbn [forallb] in *. apply andb_prop in Hls2 as [Hl Hls].
      rewrite (IH Hls), andb_true_r. by destruct l. }
    assert (between_rounds (coord w1) = true) as Hbr by (by rewrite Hst).
    clear Hinv1 Hpend1 Hst Hsem1 Hls2 Hdead Hr1.
    revert w1 Hr2 Hcalm1 Hcount1 Hfresh1 Hbr.
    induction (CallStartWorld :: ls2) as [| l ls IH];
      intros wa Hr Hcalm Hcount Hfr Hbr; cbn [run] in Hr.
    - by simplify_eq.
    - destruct (step l wa) as [wb |] eqn:Hs; [| done].
      cbn [forallb] in Hls. apply andb_prop in Hls as [Hl Hls'].
      apply negb_true_iff in Hl.
      destruct (calm_step l wa wb Hs Hl Hbr Hcalm) as [Hcalm' Hbr'].
      destruct (step_shared _ _ _ Hs) as (Hc & _). rewrite Hl in Hc.
      apply (IH Hls' wb Hr); try done; try congruence.
      apply step_fresh with l wa; try done. congruence. }
  split; [done |]. rewrite Hcount2. fold r'.
  destruct Hcalm2 as [Hsem2 Hall2]. split; [done |].
  intros j t Hj.
  pose proof (Forall_lookup_1 _ _ _ _ Hall2 Hj) as [Hf Hlive].
  pose proof (Forall_lookup_1 _ _ _ _ Hfresh2 Hj) as Hc. cbv beta in Hc.
  unfold carries in Hc. apply orb_false_iff in Hc as [Hlsc Hpcx].
  split; [done |]. split; [by apply Z.eqb_neq |].
  assert (suspend_pending t = false /\ at_sem_post (pc t) = false)
    as [Hp Hap].
  { destruct (alive t) eqn:Hal; [by apply Hlive | by apply (Hdead j)]. }
  unfold quiet, acked. rewrite Hp, Hap. cbn [negb andb].
  destruct (pc t); cbn in *; try done; by rewrite Hpcx.
Qed.

End Again.

(** ** The further properties on concrete processes *)

(** The three processes are ones in which a cycle may begin. *)
Lemma two_threads_retry_quiescent :
  quiescent (@wrap linux64 (GC_stop_count two_threads_retry + 1))
    two_threads_retry.
Proof.
  split; [reflexivity |].
  intros [| [| j]] t Hj; vm_compute in Hj; simplify_eq; vm_compute;
    repeat split; congruence.
Defined.



(** The flag after the round [stop_round]. *)
Lemma world_is_stopped_tracks_coordinator_witness :
  let w' := @run_to linux64 (CallStopWorld 1 :: stop_round) two_threads in
  coord w' = Stopped /\ GC_world_is_stopped w' = true.
Proof.
  cbv zeta. split; [vm_compute; reflexivity |].
  rewrite (@world_is_stopped_tracks_coordinator linux64
             (CallStopWorld 1 :: stop_round) two_threads
             (@run_to linux64 (CallStopWorld 1 :: stop_round) two_threads)).
  - vm_compute; reflexivity.
  - vm_compute; reflexivity.
  - reflexivity.
Defined.


(** The collector's own record across a whole cycle. *)
Lemma record_written_by_own_handler_only_witness :
  exists t',
    threads (@run_to linux64 stop_start_cycle two_threads) !! 0%nat = Some t'
    /\ rep t' = new_rep 1 4 false /\ pc t' = User /\ errno t' = 11.
Proof.
  destruct (@record_written_by_own_handler_only linux64 stop_start_cycle
              two_threads (@run_to linux64 stop_start_cycle two_threads)
              0%nat (new_thread 1 4 false))
    as (_ & t' & Hl & _ & _ & _ & _ & _ & Hsame).
  - vm_compute; reflexivity.
  - reflexivity.
  - exists t'. split; [exact Hl |]. apply Hsame. vm_compute; reflexivity.
Defined.

(** The worker vanishes: the expectation falls from 1 to 0. *)
Lemma n_live_threads_never_grows_witness :
  let w := lost_signal_world (AtPoll 1 0) [EvKill 2 30 0] true in
  let w' := @run_to linux64 worker_vanishes w in
  coord w' = AtPoll 0 3000 /\ 0 <= 1.
Proof.
  cbv zeta. split; [vm_compute; reflexivity |].
  apply (@n_live_threads_never_grows linux64 worker_vanishes
           (lost_signal_world (AtPoll 1 0) [EvKill 2 30 0] true)
           (@run_to linux64 worker_vanishes
              (lost_signal_world (AtPoll 1 0) [EvKill 2 30 0] true)) 1 0).
  - vm_compute; reflexivity.
  - vm_compute; reflexivity.
  - reflexivity.
  - vm_compute; reflexivity.
Defined.

(** At the first poll, the worker having posted. *)
Lemma expected_acks_cover_round_witness :
  let ls := [Coord 0 0; Coord 0 0; Coord 0 0; Coord 0 0; Signal 1 30; Next 1] in
  let w' := @run_to linux64 (CallStopWorld 1 :: ls) two_threads_retry in
  coord w' = AtPoll 1 0
  /\ GC_suspend_ack_sem w'
     = cnt (acked 1) (threads w') - acks_consumed (coord w')
  /\ cnt (acked 1) (threads w') + cnt (@todo linux64 1 1) (threads w') <= 1.
Proof.
  cbv zeta. split; [vm_compute; reflexivity |].
  apply (@expected_acks_cover_round linux64 1
           [Coord 0 0; Coord 0 0; Coord 0 0; Coord 0 0; Signal 1 30; Next 1]
           two_threads_retry).
  - exact two_threads_retry_quiescent.
  - vm_compute; reflexivity.
  - vm_compute; reflexivity.
  - vm_compute; reflexivity.
Defined.

(** The worker takes the signal of the round. *)
Lemma round_takes_no_duplicate_witness :
  let w1 := @run_to linux64 [CallStopWorld 1; Coord 0 0; Coord 0 0; Coord 0 0]
              two_threads in
  exists t1 t2,
    threads w1 !! 1%nat = Some t1
    /\ threads (@run_to linux64 [Signal 1 30] w1) !! 1%nat = Some t2
    /\ pc t1 = User /\ pc t2 = AtSemPost (errno t1) 1
    /\ stack_ptr (stop_info (rep t2)) = frame t1
    /\ trace (@run_to linux64 [Signal 1 30] w1) = trace w1.
Proof.
  cbv zeta.
  apply (@round_takes_no_duplicate linux64 1 [Coord 0 0; Coord 0 0; Coord 0 0]
           1 two_threads).
  - exact two_threads_quiescent.
  - vm_compute; reflexivity.
  - vm_compute; reflexivity.
  - vm_compute; reflexivity.
Defined.

(** The semaphore after a round in loss-tolerant mode. *)
Lemma stop_world_drains_semaphore_witness :
  GC_suspend_ack_sem
    (@run_to linux64 (CallStopWorld 1 :: stop_round_retry) two_threads_retry)
  = 0.
Proof.
  apply (@stop_world_drains_semaphore linux64 1 stop_round_retry
           two_threads_retry).
  - exact two_threads_retry_quiescent.
  - vm_compute; reflexivity.
  - vm_compute; reflexivity.
  - vm_compute; reflexivity.
Defined.

(** The scan of the world stopped by [stop_round]: the collector is the
    main thread, so its range ends at [GC_stackbottom]. *)
Lemma stopped_world_can_be_scanned_witness :
  @GC_push_all_stacks linux64 1 4000 4096 false 0
    [map rep (threads (@run_to linux64 (CallStopWorld 1 :: stop_round)
                         two_threads))]
  = ([EvPush 4000 4096 0; EvPush 8128 8192 0], Ok tt).
Proof.
  rewrite (@stopped_world_can_be_scanned linux64 1 stop_round two_threads
             (@run_to linux64 (CallStopWorld 1 :: stop_round) two_threads)
             4000 4096 0).
  - vm_compute; reflexivity.
  - exact two_threads_quiescent.
  - vm_compute; reflexivity.
  - vm_compute; reflexivity.
  - vm_compute; reflexivity.
  - discriminate.
  - vm_compute; reflexivity.
  - intros [| [| i]] t Hi; vm_compute in Hi; simplify_eq;
      vm_compute; intros; (discriminate || by split).
Defined.

(** A cycle on the build with the restart acknowledgment. *)
Lemma start_world_waits_for_restart_handlers_witness :
  let w1 := @run_to tiny8 (CallStopWorld 1 :: stop_round_retry)
              two_threads_netbsd in
  let w2 := @run_to tiny8 (CallStartWorld :: start_round_netbsd) w1 in
  coord w2 = Idle /\ @restart_quiet w2.
Proof.
  cbv zeta. split; [vm_compute; reflexivity |].
  apply (@start_world_waits_for_restart_handlers tiny8 start_round_netbsd
           (@run_to tiny8 (CallStopWorld 1 :: stop_round_retry)
              two_threads_netbsd)).
  - reflexivity.
  - split; [vm_compute; reflexivity |].
    intros [| [| j]] t Hj; vm_compute in Hj; simplify_eq; reflexivity.
  - vm_compute; reflexivity.
  - vm_compute; reflexivity.
  - vm_compute; reflexivity.
Defined.


(** The broadcast of [GC_start_world] on a table of three chains: the
    caller, a finished record, two threads of which one is gone, a
    blocked thread and a thread that never took part in the round. *)
Example GC_start_world_broadcast_example :
  let p tid fl blocked lsc :=
    {| id := tid; flags := fl; thread_blocked := blocked;
       stop_info := {| last_stop_count := lsc; stack_ptr := 0 |};
       stack_end := 0; activation_frame := 0 |} in
  @GC_start_world_broadcast linux64 (fun tid _ => if tid =? 4 then 3 else 0) 1
    [[p 1 4 false 6]; [p 2 1 false 6; p 3 0 false 7; p 4 0 false 7];
     [p 5 0 true 6; p 6 0 false 6]]
  = ([EvKill 3 24 0; EvKill 4 24 3; EvKill 6 24 0], Ok 2).
Proof. vm_compute. reflexivity. Qed.

(** [GC_print_sig_mask] with signals 2, 5 and 9 blocked and [NSIG] 8. *)
Example GC_print_sig_mask_example :
  GC_print_sig_mask 8 0 (fun s => (s =? 2) || (s =? 5) || (s =? 9))
  = Ok [2; 5]
  /\ GC_print_sig_mask 8 (-1) (fun _ => true) = Aborted "pthread_sigmask".
Proof. vm_compute. by split. Qed.

(** The mask [GC_stop_init] leaves on the Linux build: the suspend signal
    (30) is in it, the restart signal (24), [SIGINT] (2), [SIGSEGV] (11)
    and [SIGBUS] (7) are not. *)
Example GC_stop_init_mask_example :
  let c := {| sem_init_suspend := 0; sem_init_restart := 0;
              sigfillset_result := 0; sigdelset_result := fun _ => 0;
              sigaction_result := fun _ => 0; environ := ∅ |} in
  match @GC_stop_init linux64 c two_threads with
  | (_, Ok w') =>
      map (suspend_handler_mask w') [30; 24; 2; 11; 7; 9]
      = [true; false; false; false; false; true]
  | (_, Aborted _) => False
  end.
Proof. vm_compute. reflexivity. Qed.

(** [GC_stop_world] on the process of five records: one signal is
    answered, one finds its thread gone. *)
Lemma stop_world_completes_witness :
  exists w',
    @run linux64 (CallStopWorld 1 :: @stop_world_schedule linux64 1 five_records)
      five_records = Some w'
    /\ coord w' = Stopped /\ aborted w' = None
    /\ trace w' = [EvKill 2 30 0; EvKill 3 30 3].
Proof.
  destruct (@stop_world_completes linux64 1 five_records)
    as (w' & Hr & _ & Hst & Hab & _).
  - reflexivity.
  - reflexivity.
  - split; [reflexivity |].
    intros [| [| [| [| [| j]]]]] t Hj; vm_compute in Hj; simplify_eq;
      vm_compute; repeat split; congruence.
  - intros [| [| [| [| [| j]]]]] t Hj; vm_compute in Hj; simplify_eq;
      vm_compute; intros; (reflexivity || discriminate).
  - exists w'. split; [exact Hr |]. split; [exact Hst |]. split; [exact Hab |].
    vm_compute in Hr. by simplify_eq.
Defined.

(** [GC_start_world] after a round that returned before the worker's
    store: the worker stores, parks, takes the restart signal and is back
    in user code. *)
Lemma start_world_completes_witness :
  let w := @run_to tiny8 (CallStopWorld 1 :: stop_round_retry_early)
             two_threads_netbsd in
  pc (thread_at 1 w) = AtStoreCount 11 1
  /\ exists w',
       @run tiny8 (CallStartWorld :: @start_world_schedule tiny8 w) w = Some w'
       /\ coord w' = Idle /\ aborted w' = None
       /\ GC_world_is_stopped w' = false
       /\ pc (thread_at 1 w') = User.
Proof.
  cbv zeta. split; [vm_compute; reflexivity |].
  destruct (@start_world_completes tiny8
              (@run_to tiny8 (CallStopWorld 1 :: stop_round_retry_early)
                 two_threads_netbsd))
    as (w' & Hr & _ & Hc & Hab & Hflag).
  - vm_compute; reflexivity.
  - vm_compute; reflexivity.
  - split; [vm_compute; reflexivity |].
    intros [| [| j]] t Hj; vm_compute in Hj; simplify_eq; reflexivity.
  - vm_compute; reflexivity.
  - exists w'. split; [exact Hr |]. split; [exact Hc |]. split; [exact Hab |].
    split; [exact Hflag |]. vm_compute in Hr. by simplify_eq.
Defined.


(** After the first cycle of [two_threads] the process is quiescent for
    round 2. *)
Lemma cycle_leaves_process_quiescent_witness :
  let w1 := @run_to linux64 (CallStopWorld 1 :: stop_round) two_threads in
  let w2 := @run_to linux64
              [CallStartWorld; Coord 0 0; Coord 0 0; Coord 0 0; Signal 1 24]
              w1 in
  coord w2 = Idle /\ pc (thread_at 1 w2) = User
  /\ GC_stop_count w2 = @wrap linux64 (GC_stop_count two_threads + 1)
  /\ quiescent (@wrap linux64 (GC_stop_count w2 + 1)) w2.
Proof.
  cbv zeta. split; [vm_compute; reflexivity |].
  split; [vm_compute; reflexivity |].
  apply (@cycle_leaves_process_quiescent linux64 1 stop_round
           [Coord 0 0; Coord 0 0; Coord 0 0; Signal 1 24] two_threads
           (@run_to linux64 (CallStopWorld 1 :: stop_round) two_threads)).
  - reflexivity.
  - exact two_threads_quiescent.
  - intros [| [| j]] t Hj; vm_compute in Hj; simplify_eq; reflexivity.
  - vm_compute; reflexivity.
  - vm_compute; reflexivity.
  - vm_compute; reflexivity.
  - vm_compute; reflexivity.
  - vm_compute; reflexivity.
  - intros [| [| j]] t Hj; vm_compute in Hj; simplify_eq; vm_compute;
      discriminate.
Defined.
